(** * vct_terminal web client: formatting helpers, API client and panels

  A shallow embedding of the JavaScript sources of the dashboard client
  (utils/formatBo, api/client, pages/Dashboard, components/AnalysisPanel,
  components/ComparisonPanel, components/OddsForm, components/StatsResult)
  together with the theorems that settle the properties claimed about
  them; and of the code around them (components/SeriesProbs, MatchCard,
  VetoInput and LivePanel, and the handlers of pages/Stats and
  pages/MatchAnalysis) with further properties of the whole.

  Layout: the JavaScript data model and the built-in operations the sources
  call come first, then the embedded functions, then the theorems. *)

From Stdlib Require Import ZArith NArith List Bool Ascii Lia DecimalString.
From Stdlib Require String.
From Stdlib Require Import Floats.SpecFloat.
From stdpp Require Import base option list strings gmap sorting.

Set Warnings "-register-all".

Local Open Scope Z_scope.

(** ** Strings

  A JavaScript string is a sequence of 16-bit code units.  The embedding
  keeps the code units 0..255 (type [ascii]); the literals of the embedded
  sources are in that range, but for the dash of ComparisonPanel.  Where
  a built-in behaves differently above that range ([encodeURIComponent]
  throws on a surrogate outside a pair), it is given on lists of code
  units. *)

Module Str.

Definition code (c : ascii) : N := N_of_ascii c.

Definition len (s : string) : Z := Z.of_nat (String.length s).

(** [s.startsWith(p)] *)
Fixpoint startsWith (p s : string) : bool :=
  match p, s with
  | EmptyString, _ => true
  | String a p', String b s' => Ascii.eqb a b && startsWith p' s'
  | String _ _, EmptyString => false
  end.

Fixpoint drop (n : nat) (s : string) : string :=
  match n, s with
  | O, _ => s
  | S n', String _ s' => drop n' s'
  | S _, EmptyString => EmptyString
  end.

Fixpoint take (n : nat) (s : string) : string :=
  match n, s with
  | O, _ => EmptyString
  | S n', String a s' => String a (take n' s')
  | S _, EmptyString => EmptyString
  end.

(** Offset of the first occurrence of [sub] in [s], if any. *)
Fixpoint find (sub s : string) : option nat :=
  if startsWith sub s then Some O
  else match s with
       | EmptyString => None
       | String _ s' => S <$> find sub s'
       end.

(** [s.indexOf(sub, from)]: the position is clamped to [0..length], and the
    result is [-1] when there is no occurrence. *)
Definition indexOf (s sub : string) (from : Z) : Z :=
  let start := Z.to_nat (Z.min (Z.max from 0) (len s)) in
  match find sub (drop start s) with
  | Some i => Z.of_nat (start + i)
  | None => -1
  end.

(** [s.includes(sub)] *)
Definition includes (s sub : string) : bool :=
  negb (indexOf s sub 0 =? -1).

(** [s.endsWith(p)] *)
Definition endsWith (p s : string) : bool :=
  let lp := String.length p in
  let ls := String.length s in
  (lp <=? ls)%nat && String.eqb (drop (ls - lp) s) p.

(** Relative index of [slice]: negative counts from the end. *)
Definition clamp (l i : Z) : Z :=
  if i <? 0 then Z.max (l + i) 0 else Z.min i l.

(** [s.slice(start, end)]; [None] is an omitted [end]. *)
Definition slice (s : string) (start : Z) (stop : option Z) : string :=
  let l := len s in
  let from := clamp l start in
  let to := match stop with Some e => clamp l e | None => l end in
  if to <=? from then EmptyString
  else take (Z.to_nat (to - from)) (drop (Z.to_nat from) s).

Definition map (f : ascii -> ascii) : string -> string :=
  fix go s := match s with
              | EmptyString => EmptyString
              | String a s' => String (f a) (go s')
              end.

Definition filter (f : ascii -> bool) : string -> string :=
  fix go s := match s with
              | EmptyString => EmptyString
              | String a s' => if f a then String a (go s') else go s'
              end.

(** Code units A-Z, and the Latin-1 capitals U+00C0..U+00DE except the
    multiplication sign U+00D7, have their lower case 32 above. *)
Definition lower (c : ascii) : ascii :=
  let n := code c in
  if ((65 <=? n) && (n <=? 90))%N
     || ((192 <=? n) && (n <=? 222) && negb (n =? 215))%N
  then ascii_of_N (n + 32) else c.

(** [s.toLowerCase()] *)
Definition toLowerCase : string -> string := map lower.

(** White space and line terminators: the class [\s] of regular
    expressions, of [trim] and of numeric literals. *)
Definition is_space (c : ascii) : bool :=
  let n := code c in
  ((9 <=? n) && (n <=? 13) || (n =? 32) || (n =? 160))%N.

Definition is_digit (c : ascii) : bool :=
  let n := code c in ((48 <=? n) && (n <=? 57))%N.

Fixpoint trimStart (s : string) : string :=
  match s with
  | String a s' => if is_space a then trimStart s' else s
  | EmptyString => EmptyString
  end.

(** [s.trim()] *)
Definition trim (s : string) : string :=
  String.rev (trimStart (String.rev (trimStart s))).

(** [s.split(c)] for a one-character separator. *)
Fixpoint split_go (c : ascii) (cur s : string) : list string :=
  match s with
  | EmptyString => [String.rev cur]
  | String a s' =>
      if Ascii.eqb a c then String.rev cur :: split_go c EmptyString s'
      else split_go c (String a cur) s'
  end.
Definition split (c : ascii) (s : string) : list string :=
  split_go c EmptyString s.

(** [s.split(/\s+/)]: cut at every maximal run of white space. *)
Fixpoint split_spaces_go (cur : string) (skipping : bool) (s : string)
  : list string :=
  match s with
  | EmptyString => [String.rev cur]
  | String a s' =>
      if is_space a then
        if skipping then split_spaces_go cur true s'
        else String.rev cur :: split_spaces_go EmptyString true s'
      else split_spaces_go (String a cur) false s'
  end.
Definition split_spaces (s : string) : list string :=
  split_spaces_go EmptyString false s.

(** [xs.join(sep)] on strings. *)
Fixpoint join (sep : string) (xs : list string) : string :=
  match xs with
  | [] => EmptyString
  | [x] => x
  | x :: rest => x +:+ sep +:+ join sep rest
  end.

Definition of_N (n : N) : string :=
  NilZero.string_of_uint (N.to_uint n).

Definition of_Z (z : Z) : string :=
  match z with
  | Zneg p => String "-" (of_N (Npos p))
  | _ => of_N (Z.to_N z)
  end.

Fixpoint repeat (c : ascii) (n : nat) : string :=
  match n with
  | O => EmptyString
  | S n' => String c (repeat c n')
  end.

End Str.

(** ** Numbers

  A JavaScript Number is an IEEE 754 binary64 value: [spec_float] at
  precision 53 and maximal exponent 1024, with the arithmetic of the
  standard library's specification of floating-point operations. *)

Module Num.

Definition number : Type := spec_float.

Definition prec : Z := 53.
Definition emax : Z := 1024.

Definition NaN : number := S754_nan.
Definition Infinity : number := S754_infinity false.
Definition zero : number := S754_zero false.

Definition add : number -> number -> number := SFadd prec emax.
Definition mul : number -> number -> number := SFmul prec emax.
Definition sub : number -> number -> number := SFsub prec emax.

(** [x < y] and [x > y]; both are false when an operand is NaN. *)
Definition lt (x y : number) : bool := SFltb x y.
Definition gt (x y : number) : bool := SFltb y x.
Definition le (x y : number) : bool := SFleb x y.

(** [Number.isFinite] on a Number. *)
Definition isFinite (x : number) : bool :=
  match x with
  | S754_zero _ | S754_finite _ _ _ => true
  | S754_infinity _ | S754_nan => false
  end.

Definition isNaN (x : number) : bool :=
  match x with S754_nan => true | _ => false end.

Definition isZero (x : number) : bool :=
  match x with S754_zero _ => true | _ => false end.

(** The Number nearest to an integer (ties to even). *)
Definition of_Z (z : Z) : number := binary_normalize prec emax z 0 false.

(** The Number nearest to [n / d], with the given sign. *)
Definition of_ratio (neg : bool) (n : N) (d : positive) : number :=
  match n with
  | N0 => S754_zero neg
  | Npos p => SFdiv prec emax (S754_finite neg p 0) (S754_finite false d 0)
  end.

(** The Number nearest to [digits * 10 ^ exp10], with the given sign: the
    value of a decimal literal. *)
Definition of_decimal (neg : bool) (digits : N) (exp10 : Z) : number :=
  match digits with
  | N0 => S754_zero neg
  | Npos p =>
      match exp10 with
      | Zneg e => of_ratio neg digits (Pos.pow 10 e)
      | _ => binary_round prec emax neg (p * Z.to_pos (10 ^ exp10)) 0
      end
  end.

(** *** Number::toString (radix 10) *)

(** [m * 2 ^ e] as a fraction. *)
Definition ratio (m : positive) (e : Z) : Z * Z :=
  match e with
  | Zneg p => (Zpos m, 2 ^ Zpos p)
  | _ => (Zpos m * 2 ^ e, 1)
  end.

Definition digits10 (z : Z) : Z := Str.len (Str.of_Z z).

(** The [n] with [10 ^ (n - 1) <= m * 2 ^ e < 10 ^ n]. *)
Definition magnitude10 (m : positive) (e : Z) : Z :=
  let '(num, den) := ratio m e in
  digits10 (num * 10 ^ 400 / den) - 400.

(** [x * 10 ^ p] as a fraction, for [x = num / den]. *)
Definition scale10 (num den p : Z) : Z * Z :=
  if p <? 0 then (num, den * 10 ^ (- p)) else (num * 10 ^ p, den).

(** The [k]-digit decimals next to [x = m * 2 ^ e] that denote [x], the
    closer one first (the even one on a tie). *)
Definition candidate (m : positive) (e n k : Z) : option Z :=
  let x := S754_finite false m e in
  let '(num, den) := ratio m e in
  let '(a, b) := scale10 num den (k - n) in
  let lo := a / b in
  let hi := lo + 1 in
  let ok s := SFeqb (of_decimal false (Z.to_N s) (n - k)) x in
  let lo_first :=
    match 2 * a ?= (lo + hi) * b with
    | Lt => true
    | Gt => false
    | Eq => Z.even lo
    end in
  let '(c1, c2) := if lo_first then (lo, hi) else (hi, lo) in
  if ok c1 then Some c1 else if ok c2 then Some c2 else None.

(** The first [k] from 1 to 17 for which a [k]-digit decimal denotes
    [m * 2 ^ e], with its digits. *)
Definition shortest_digits (m : positive) (e n : Z) : option (Z * Z) :=
  foldr (fun k later =>
           match candidate m e n k with
           | Some s => Some (s, k)
           | None => later
           end) None (seqZ 1 17).

(** The digits [s], their number [k] and the decimal exponent [n] of the
    shortest decimal that denotes [m * 2 ^ e] (17 digits always do). *)
Definition shortest (m : positive) (e : Z) : Z * Z * Z :=
  let n := magnitude10 m e in
  match shortest_digits m e n with
  | Some (s, k) => if s =? 10 ^ k then (1, 1, n + 1) else (s, k, n)
  | None => (0, 1, n)
  end.

Definition render (s k n : Z) : string :=
  let ds := Str.of_Z s in
  if (k <=? n) && (n <=? 21) then
    ds +:+ Str.repeat "0" (Z.to_nat (n - k))
  else if (0 <? n) && (n <=? 21) then
    Str.take (Z.to_nat n) ds +:+ "." +:+ Str.drop (Z.to_nat n) ds
  else if (-6 <? n) && (n <=? 0) then
    "0." +:+ Str.repeat "0" (Z.to_nat (- n)) +:+ ds
  else
    let ex := n - 1 in
    let sg := if ex <? 0 then "-" else "+" in
    let mant := if k =? 1 then ds
                else Str.take 1 ds +:+ "." +:+ Str.drop 1 ds in
    mant +:+ "e" +:+ sg +:+ Str.of_Z (Z.abs ex).

(** [String(x)] for a Number [x]. *)
Definition toString (x : number) : string :=
  match x with
  | S754_nan => "NaN"
  | S754_zero _ => "0"
  | S754_infinity s => if s then "-Infinity" else "Infinity"
  | S754_finite s m e =>
      let '(d, k, n) := shortest m e in
      (if s then "-" else EmptyString) +:+ render d k n
  end.

(** *** Number.prototype.toFixed *)

(** The integer [n] for which [n / 10 ^ f] is nearest to [m * 2 ^ e], the
    larger one when two are as near. *)
Definition scaled_round (m : positive) (e : Z) (f : nat) : Z :=
  let '(num, den) := ratio m e in
  (2 * num * 10 ^ Z.of_nat f + den) / (2 * den).

Definition ge_1e21 (m : positive) (e : Z) : bool :=
  let '(num, den) := ratio m e in 10 ^ 21 * den <=? num.

Definition fixed_digits (n : Z) (f : nat) : string :=
  let m := Str.of_Z n in
  match f with
  | O => m
  | S _ =>
      let k := String.length m in
      let m := if (k <=? f)%nat then Str.repeat "0" (f + 1 - k) +:+ m else m in
      let k := String.length m in
      Str.take (k - f) m +:+ "." +:+ Str.drop (k - f) m
  end.

(** [x.toFixed(f)] for [0 <= f <= 100]. *)
Definition toFixed (x : number) (f : nat) : string :=
  match x with
  | S754_finite s m e =>
      if ge_1e21 m e then toString x
      else (if s then "-" else EmptyString)
           +:+ fixed_digits (scaled_round m e f) f
  | S754_zero _ => fixed_digits 0 f
  | S754_infinity _ | S754_nan => toString x
  end.

(** *** StringToNumber *)

Definition digit_of (radix : N) (c : ascii) : option N :=
  let n := Str.code c in
  let v := if ((48 <=? n) && (n <=? 57))%N then Some (n - 48)%N
           else if ((97 <=? n) && (n <=? 102))%N then Some (n - 87)%N
           else if ((65 <=? n) && (n <=? 70))%N then Some (n - 55)%N
           else None in
  match v with
  | Some d => if (d <? radix)%N then Some d else None
  | None => None
  end.

(** The longest prefix of digits: its value continuing [acc], the number of
    digits read, and the rest of the string. *)
Fixpoint digits (radix : N) (s : string) (acc : N) (cnt : nat)
  : N * nat * string :=
  match s with
  | EmptyString => (acc, cnt, s)
  | String c s' =>
      match digit_of radix c with
      | Some d => digits radix s' (acc * radix + d)%N (S cnt)
      | None => (acc, cnt, s)
      end
  end.

Definition sign_of (s : string) : bool * string :=
  match s with
  | String "-" s' => (true, s')
  | String "+" s' => (false, s')
  | _ => (false, s)
  end.

Definition exponent_part (s : string) : option Z :=
  match s with
  | EmptyString => Some 0
  | String c s' =>
      if Ascii.eqb c "e" || Ascii.eqb c "E" then
        let '(neg, s'') := sign_of s' in
        match digits 10 s'' 0 0 with
        | (_, O, _) => None
        | (v, S _, EmptyString) =>
            Some (if neg then - Z.of_N v else Z.of_N v)
        | (_, S _, String _ _) => None
        end
      else None
  end.

(** StrDecimalLiteral *)
Definition decimal_literal (s : string) : option number :=
  let '(neg, s1) := sign_of s in
  if String.eqb s1 "Infinity" then Some (S754_infinity neg)
  else
    let '(ip, ni, s2) := digits 10 s1 0 0 in
    let '(mant, nf, s3) :=
      match s2 with
      | String "." r => digits 10 r ip 0
      | _ => (ip, O, s2)
      end in
    match (ni + nf)%nat with
    | O => None
    | S _ =>
        match exponent_part s3 with
        | Some ex => Some (of_decimal neg mant (ex - Z.of_nat nf))
        | None => None
        end
    end.

(** NonDecimalIntegerLiteral: [0x], [0o] and [0b] prefixes. *)
Definition radix_literal (s : string) : option number :=
  match s with
  | String "0" (String p r) =>
      let radix :=
        if Ascii.eqb p "x" || Ascii.eqb p "X" then Some 16%N
        else if Ascii.eqb p "o" || Ascii.eqb p "O" then Some 8%N
        else if Ascii.eqb p "b" || Ascii.eqb p "B" then Some 2%N
        else None in
      match radix with
      | Some rd =>
          match digits rd r 0 0 with
          | (v, S _, EmptyString) => Some (of_Z (Z.of_N v))
          | _ => None
          end
      | None => None
      end
  | _ => None
  end.

(** [Number(s)] for a string [s]. *)
Definition ofString (s : string) : number :=
  let t := Str.trim s in
  match t with
  | EmptyString => zero
  | _ =>
      match radix_literal t with
      | Some x => x
      | None =>
          match decimal_literal t with
          | Some x => x
          | None => NaN
          end
      end
  end.

End Num.

(** ** Values

  The values the client handles are JSON data (decoded API payloads and
  form state): primitives, arrays and plain objects.  An object is its list
  of own properties in enumeration order. *)

Module JS.

Import Num.

Inductive value : Type :=
| VUndefined
| VNull
| VBool (b : bool)
| VNum (n : number)
| VStr (s : string)
| VArr (elems : list value)
| VObj (props : list (string * value)).

(** [typeof v] *)
Definition typeof (v : value) : string :=
  match v with
  | VUndefined => "undefined"
  | VBool _ => "boolean"
  | VNum _ => "number"
  | VStr _ => "string"
  | VNull | VArr _ | VObj _ => "object"
  end.

(** [v == null] *)
Definition is_nullish (v : value) : bool :=
  match v with VUndefined | VNull => true | _ => false end.

(** ToBoolean: the falsy values are [undefined], [null], [false], zeros,
    NaN and the empty string. *)
Definition ToBoolean (v : value) : bool :=
  match v with
  | VUndefined | VNull => false
  | VBool b => b
  | VNum n => negb (isZero n || isNaN n)
  | VStr s => negb (String.eqb s EmptyString)
  | VArr _ | VObj _ => true
  end.

(** [a || b], [a ?? b] *)
Definition or_else (a b : value) : value := if ToBoolean a then a else b.
Definition coalesce (a b : value) : value := if is_nullish a then b else a.

(** [v === s] for a string literal [s]. *)
Definition is_string (s : string) (v : value) : bool :=
  match v with VStr t => String.eqb t s | _ => false end.

(** [Array.isArray(v)] *)
Definition isArray (v : value) : bool :=
  match v with VArr _ => true | _ => false end.

(** [String(v)]; an array joins its elements with commas, [null] and
    [undefined] elements giving the empty string. *)
Fixpoint ToString (v : value) : string :=
  match v with
  | VUndefined => "undefined"
  | VNull => "null"
  | VBool b => if b then "true" else "false"
  | VNum n => toString n
  | VStr s => s
  | VArr xs =>
      Str.join ","
        (List.map
           (fun x => if is_nullish x then EmptyString else ToString x) xs)
  | VObj _ => "[object Object]"
  end.

(** [Number(v)] *)
Definition ToNumber (v : value) : number :=
  match v with
  | VUndefined => NaN
  | VNull => zero
  | VBool b => if b then of_Z 1 else zero
  | VNum n => n
  | VStr s => ofString s
  | VArr _ => ofString (ToString v)
  | VObj _ => NaN
  end.

(** A canonical array index: the decimal numeral of a natural number. *)
Definition index_of_key (k : string) : option nat :=
  match digits 10 k 0 0 with
  | (n, S _, EmptyString) =>
      if String.eqb (Str.of_N n) k then Some (N.to_nat n) else None
  | _ => None
  end.

Fixpoint assoc (k : string) (props : list (string * value)) : value :=
  match props with
  | [] => VUndefined
  | (k', v) :: rest => if String.eqb k' k then v else assoc k rest
  end.

(** [v[k]] on a value that is neither [null] nor [undefined]: own
    properties, array elements and [length]. *)
Definition Get (v : value) (k : string) : value :=
  match v with
  | VObj props => assoc k props
  | VArr xs =>
      if String.eqb k "length" then VNum (of_Z (Z.of_nat (length xs)))
      else match index_of_key k with
           | Some i => nth i xs VUndefined
           | None => VUndefined
           end
  | VStr s =>
      if String.eqb k "length" then VNum (of_Z (Str.len s))
      else match index_of_key k with
           | Some i =>
               match String.get i s with
               | Some c => VStr (String c EmptyString)
               | None => VUndefined
               end
           | None => VUndefined
           end
  | _ => VUndefined
  end.

(** [v?.k] *)
Definition GetOpt (v : value) (k : string) : value :=
  if is_nullish v then VUndefined else Get v k.

(** [Object.keys(v)] on a value that is neither [null] nor [undefined]. *)
Definition keys (v : value) : list string :=
  match v with
  | VObj props => List.map fst props
  | VArr xs => List.map (fun i => Str.of_N (N.of_nat i)) (seq 0 (length xs))
  | VStr s =>
      List.map (fun i => Str.of_N (N.of_nat i)) (seq 0 (String.length s))
  | _ => []
  end.

(** [xs.includes(s)] on an array of strings. *)
Definition includes (xs : list string) (s : string) : bool :=
  existsb (String.eqb s) xs.

(** [xs.sort()] on an array of strings: ascending order of code units. *)
Definition sort (xs : list string) : list string := merge_sort String.le xs.

(** *** Errors

    A thrown error object; [status] and [payload] are [undefined] unless
    the code sets them. *)
Record Error : Type := mkError {
  name : string;
  message : string;
  status : value;
  payload : value
}.

(** [new Error(msg)] *)
Definition new_Error (msg : string) : Error :=
  mkError "Error" msg VUndefined VUndefined.

Definition TypeError (msg : string) : Error :=
  mkError "TypeError" msg VUndefined VUndefined.

(** Synchronous code that may throw. *)
Inductive result (A : Type) : Type :=
| Ok (a : A)
| Throw (e : Error).
Arguments Ok {A} a.
Arguments Throw {A} e.

Definition rbind {A B} (m : result A) (k : A -> result B) : result B :=
  match m with
  | Ok a => k a
  | Throw e => Throw e
  end.

(** [v.k]: reading a property of [null] or [undefined] throws. *)
Definition prop (v : value) (k : string) : result value :=
  if is_nullish v
  then Throw (TypeError ("Cannot read properties of " +:+ ToString v))
  else Ok (Get v k).

Fixpoint mapM {A B} (f : A -> result B) (xs : list A) : result (list B) :=
  match xs with
  | [] => Ok []
  | x :: rest =>
      rbind (f x) (fun y => rbind (mapM f rest) (fun ys => Ok (y :: ys)))
  end.

(** *** JSON.stringify *)

Definition hex_digit (n : N) : ascii :=
  ascii_of_N (if (n <? 10)%N then 48 + n else 87 + n)%N.

Definition dquote : ascii := "034".

Definition quote_char (c : ascii) : string :=
  let n := Str.code c in
  if (n =? 34)%N then String "\" (String dquote EmptyString)
  else if (n =? 92)%N then "\\"
  else if (n =? 8)%N then "\b"
  else if (n =? 9)%N then "\t"
  else if (n =? 10)%N then "\n"
  else if (n =? 12)%N then "\f"
  else if (n =? 13)%N then "\r"
  else if (n <? 32)%N then
    "\u00" +:+ String (hex_digit (n / 16))
                 (String (hex_digit (n mod 16)) EmptyString)
  else String c EmptyString.

Fixpoint quote_body (s : string) : string :=
  match s with
  | EmptyString => EmptyString
  | String c s' => quote_char c +:+ quote_body s'
  end.

Definition quote (s : string) : string :=
  String dquote (quote_body s) +:+ String dquote EmptyString.

(** An [undefined] has no JSON text: it prints as [null] inside an array
    and its property is left out of an object. *)
Fixpoint stringify (v : value) : option string :=
  match v with
  | VUndefined => None
  | VNull => Some "null"
  | VBool b => Some (if b then "true" else "false")
  | VNum n => Some (if isFinite n then toString n else "null")
  | VStr s => Some (quote s)
  | VArr xs =>
      Some ("[" +:+ Str.join ","
              (List.map (fun x => default "null" (stringify x)) xs) +:+ "]")
  | VObj props =>
      Some ("{" +:+ Str.join ","
              (omap (fun kv =>
                       match stringify (snd kv) with
                       | Some t => Some (quote (fst kv) +:+ ":" +:+ t)
                       | None => None
                       end) props) +:+ "}")
  end.

End JS.

(** ** utils/formatBo: best-of labels and chart data *)

Module FormatBo.

Import Num JS.

Definition formatBoType (boType : value) : string :=
  if is_nullish boType || is_string EmptyString boType then "Bo?"
  else
    let s := Str.toLowerCase (ToString boType) in
    if Str.includes s "5" then "Bo5"
    else if Str.includes s "3" then "Bo3"
    else "Bo?".

Definition resolveBoType (boType score1 score2 : value) : string :=
  let fromApi := formatBoType boType in
  if negb (String.eqb fromApi "Bo?") then fromApi
  else
    let s1 := ToNumber score1 in
    let s2 := ToNumber score2 in
    if isFinite s1 && isFinite s2 && gt (add s1 s2) (of_Z 3) then "Bo5"
    else if isFinite s1 && isFinite s2 then "Bo3"
    else "Bo?".

Definition BO3_ORDER : list string := ["2-0"; "2-1"; "1-2"; "0-2"].
Definition BO5_ORDER : list string :=
  ["3-0"; "3-1"; "3-2"; "2-3"; "1-3"; "0-3"].

(** [!scoreProbs || typeof scoreProbs !== 'object'] *)
Definition not_an_object (scoreProbs : value) : bool :=
  negb (ToBoolean scoreProbs)
  || negb (String.eqb (typeof scoreProbs) "object").

Definition inferSeriesFormatFromScoreProbs (scoreProbs : value) : string :=
  if not_an_object scoreProbs then "Bo3"
  else
    let keys := keys scoreProbs in
    let hasThree :=
      existsb (fun k => Str.startsWith "3-" k || Str.endsWith "-3" k) keys in
    if hasThree then "Bo5" else "Bo3".

(** [Number(((scoreProbs[score] ?? 0) * 100).toFixed(2))] *)
Definition probability (scoreProbs : value) (score : string) : number :=
  ofString
    (toFixed (mul (ToNumber (coalesce (Get scoreProbs score) (VNum zero)))
                (of_Z 100)) 2).

Definition entry (scoreProbs : value) (score : string) : value :=
  VObj [("score", VStr score);
        ("probability", VNum (probability scoreProbs score))].

Definition seriesChartData (scoreProbs format : value) : value :=
  if not_an_object scoreProbs then VArr []
  else
    let order := if is_string "Bo5" format then BO5_ORDER else BO3_ORDER in
    let ordered :=
      List.filter (fun s => negb (is_nullish (Get scoreProbs s))) order in
    let rest :=
      sort (List.filter (fun s => negb (includes order s))
              (keys scoreProbs)) in
    let allKeys := ordered ++ rest in
    VArr (List.map (entry scoreProbs) allKeys).

End FormatBo.

(** ** Asynchronous code

  An [async] function over a state [S]: it runs to a completion (a value,
  a thrown error, or a promise that never settles) and leaves a state. *)

Module Async.

Import JS.

Inductive completion (A : Type) : Type :=
| Returned (a : A)
| Thrown (e : Error)
| Pending.
Arguments Returned {A} a.
Arguments Thrown {A} e.
Arguments Pending {A}.

Definition M (S A : Type) : Type := S -> completion A * S.

Definition ret {S A} (a : A) : M S A := fun s => (Returned a, s).
Definition throw {S A} (e : Error) : M S A := fun s => (Thrown e, s).

Definition bind {S A B} (m : M S A) (k : A -> M S B) : M S B :=
  fun s =>
    match m s with
    | (Returned a, s') => k a s'
    | (Thrown e, s') => (Thrown e, s')
    | (Pending, s') => (Pending, s')
    end.

(** [try { m } catch (err) { handler }] *)
Definition try_catch {S A} (m : M S A) (handler : Error -> M S A) : M S A :=
  fun s =>
    match m s with
    | (Thrown e, s') => handler e s'
    | r => r
    end.

(** [try { m } finally { c }]: [c] runs once [m] has completed, and the
    completion of [m] stands unless [c] itself throws or hangs. *)
Definition finally {S A} (m : M S A) (c : M S unit) : M S A :=
  fun s =>
    match m s with
    | (Pending, s') => (Pending, s')
    | (r, s') =>
        match c s' with
        | (Returned _, s'') => (r, s'')
        | (Thrown e, s'') => (Thrown e, s'')
        | (Pending, s'') => (Pending, s'')
        end
    end.

Definition modify {S} (f : S -> S) : M S unit := fun s => (Returned tt, f s).
Definition gets {S A} (f : S -> A) : M S A := fun s => (Returned (f s), s).

(** Synchronous code that may throw, run inside asynchronous code. *)
Definition lift {S A} (r : result A) : M S A :=
  match r with
  | Ok a => ret a
  | Throw e => throw e
  end.

End Async.

Notation "'let*' x ':=' m 'in' k" := (Async.bind m (fun x => k))
(at level 10, x pattern, m at level 100, k at level 200).
Notation "m ';;' k" := (Async.bind m (fun _ => k))
(at level 100, k at level 200, right associativity).

(** ** api/client: the request wrapper and the endpoint functions *)

Module Client.

Import Num JS Async.

(** *** Errors, responses and the network *)

(** What the abort of a fetch rejects with. *)
Definition AbortError : Error :=
  mkError "AbortError" "The operation was aborted." VUndefined VUndefined.

(** What [response.json()] does: it resolves with the decoded body, it
    rejects (the body is not JSON text, or the connection breaks), or it
    never settles (the body never arrives in full). *)
Inductive body : Type :=
| BodyJson (v : value)
| BodyFails (e : Error)
| BodyStalls.

Record Response : Type := mkResponse {
  r_status : Z;
  r_content_type : option string;
  r_body : body
}.

(** [response.ok]: the status is in the range 200-299. *)
Definition ok (r : Response) : bool :=
  (200 <=? r_status r) && (r_status r <=? 299).

Inductive fetch_outcome : Type :=
| Resolves (r : Response)
| Rejects (e : Error).

(** How one fetch call goes when nothing aborts it: after how many
    milliseconds it settles ([None]: never) and with what; and whether a
    timer due at the very same instant runs first. *)
Record fetch_behaviour : Type := mkBehaviour {
  settles_after : option Z;
  outcome : fetch_outcome;
  timer_first_on_tie : bool
}.

Record RequestInit : Type := mkInit {
  method : option string;
  body_text : option string;
  headers : option (list (string * string))
}.

Definition no_options : RequestInit := mkInit None None None.

(** The init object [request] hands to [fetch]. *)
Record FetchInit : Type := mkFetchInit {
  f_method : option string;
  f_body : option string;
  f_signal : Z;
  f_headers : list (string * string)
}.

Inductive event : Type :=
| ESetTimeout (id ms : Z)
| EClearTimeout (id : Z)
| EFetch (path : string) (init : FetchInit)
| EAbort (controller : Z).

(** An armed timer whose callback aborts a controller. *)
Record timer : Type := mkTimer {
  t_id : Z;
  t_deadline : Z;
  t_controller : Z
}.

(** The environment of a call: the clock, the armed timers, the behaviour
    of the fetch calls still to come (in call order) and the effects so
    far. *)
Record world : Type := mkWorld {
  now : Z;
  armed : list timer;
  fresh_id : Z;
  network : list fetch_behaviour;
  log : list event
}.

(** Asynchronous code over the world. *)
Definition M (A : Type) : Type := Async.M world A.

(** [new AbortController()] *)
Definition new_AbortController : M Z :=
  fun w => (Returned (fresh_id w),
            mkWorld (now w) (armed w) (fresh_id w + 1) (network w) (log w)).

(** [setTimeout(() => controller.abort(), ms)] *)
Definition setTimeout_abort (controller ms : Z) : M Z :=
  fun w =>
    let id := fresh_id w in
    (Returned id,
     mkWorld (now w) (armed w ++ [mkTimer id (now w + ms) controller])
       (id + 1) (network w) (log w ++ [ESetTimeout id ms])).

(** [clearTimeout(id)] *)
Definition clearTimeout (id : Z) : M unit :=
  fun w =>
    (Returned tt,
     mkWorld (now w)
       (List.filter (fun t => negb (t_id t =? id)) (armed w))
       (fresh_id w) (network w) (log w ++ [EClearTimeout id])).

(** The earliest armed timer that aborts the controller. *)
Definition next_abort (controller : Z) (ts : list timer) : option timer :=
  foldr (fun t acc =>
           if t_controller t =? controller then
             match acc with
             | Some u => if t_deadline u <? t_deadline t then Some u
                         else Some t
             | None => Some t
             end
           else acc) None ts.

(** Whether the timer due at [deadline] fires before the fetch settles. *)
Definition fires_first (deadline : Z) (b : fetch_behaviour) (start : Z)
  : bool :=
  match settles_after b with
  | Some d =>
      (deadline <? start + d)
      || ((deadline =? start + d) && timer_first_on_tie b)
  | None => true
  end.

Definition never : fetch_behaviour :=
  mkBehaviour None (Rejects AbortError) false.

(** [await fetch(path, init)]: the call takes the next behaviour of the
    network.  If a timer aborting the signal's controller fires first, the
    fetch rejects with an AbortError at the timer's deadline. *)
Definition fetch (path : string) (init : FetchInit) : M Response :=
  fun w =>
    let b := hd never (network w) in
    let lg := log w ++ [EFetch path init] in
    let rest := tl (network w) in
    match next_abort (f_signal init) (armed w) with
    | Some t =>
        if fires_first (t_deadline t) b (now w) then
          (Thrown AbortError,
           mkWorld (t_deadline t)
             (List.filter (fun u => negb (t_id u =? t_id t)) (armed w))
             (fresh_id w) rest (lg ++ [EAbort (f_signal init)]))
        else
          match settles_after b, outcome b with
          | Some d, Resolves r =>
              (Returned r,
               mkWorld (now w + d) (armed w) (fresh_id w) rest lg)
          | Some d, Rejects e =>
              (Thrown e, mkWorld (now w + d) (armed w) (fresh_id w) rest lg)
          | None, _ =>
              (Pending, mkWorld (now w) (armed w) (fresh_id w) rest lg)
          end
    | None =>
        match settles_after b, outcome b with
        | Some d, Resolves r =>
            (Returned r, mkWorld (now w + d) (armed w) (fresh_id w) rest lg)
        | Some d, Rejects e =>
            (Thrown e, mkWorld (now w + d) (armed w) (fresh_id w) rest lg)
        | None, _ =>
            (Pending, mkWorld (now w) (armed w) (fresh_id w) rest lg)
        end
    end.

(** [await response.json()] *)
Definition json (r : Response) : M value :=
  fun w =>
    match r_body r with
    | BodyJson v => (Returned v, w)
    | BodyFails e => (Thrown e, w)
    | BodyStalls => (Pending, w)
    end.

(** [{...a, ...b}] on string-valued objects. *)
Definition spread (a b : list (string * string)) : list (string * string) :=
  List.map (fun kv =>
              match List.find (fun kv' => String.eqb (fst kv') (fst kv)) b with
              | Some kv' => (fst kv, snd kv')
              | None => kv
              end) a
  ++ List.filter (fun kv =>
                    negb (existsb (fun kv' => String.eqb (fst kv') (fst kv))
                            a)) b.

(** *** request *)

Definition DEFAULT_HEADERS : list (string * string) :=
  [("Content-Type", "application/json")].

Definition REQUEST_TIMEOUT_MS : Z := 30000.

(** The message of the timeout error (with its Latin-1 letters written as
    code units). *)
Definition timeout_message : string :=
  "A requisi"
  +:+ String "231" (String "227" "o passou do tempo limite (30s). ")
  +:+ "Verifique se a API est"
  +:+ String "225" " rodando na porta 8000 e se o servidor n"
  +:+ String "227" "o travou.".

(** [typeof message === 'string' ? message : JSON.stringify(message)] as
    the argument of [new Error]. *)
Definition message_text (message : value) : string :=
  match message with
  | VStr s => s
  | _ => default EmptyString (stringify message)
  end.

Definition failure_message (payload : value) (status : Z) : value :=
  or_else (or_else (GetOpt payload "detail") (GetOpt payload "error"))
    (VStr ("Request failed (" +:+ Str.of_Z status +:+ ")")).

Definition is_json (r : Response) : bool :=
  match r_content_type r with
  | Some ct => Str.includes ct "application/json"
  | None => false
  end.

Definition request (path : string) (options : RequestInit) : M value :=
  let* controller := new_AbortController in
  let* timeoutId := setTimeout_abort controller REQUEST_TIMEOUT_MS in
  try_catch
    (let* response :=
       fetch path
         (mkFetchInit (method options) (body_text options) controller
            (spread DEFAULT_HEADERS (default [] (headers options)))) in
     clearTimeout timeoutId ;;
     let isJson := is_json response in
     let* payload := if isJson then json response else ret VNull in
     if negb (ok response) then
       let message := failure_message payload (r_status response) in
       throw (mkError "Error" (message_text message)
                (VNum (of_Z (r_status response))) payload)
     else ret payload)
    (fun err =>
       clearTimeout timeoutId ;;
       if String.eqb (name err) "AbortError"
       then throw (new_Error timeout_message)
       else throw err).

(** *** URL helpers *)

Definition hex_upper (n : N) : ascii :=
  ascii_of_N (if (n <? 10)%N then 48 + n else 55 + n)%N.

Definition percent (n : N) : string :=
  String "%" (String (hex_upper (n / 16))
                (String (hex_upper (n mod 16)) EmptyString)).

(** The UTF-8 bytes of a code point, percent-encoded. *)
Definition percent_utf8 (n : N) : string :=
  if (n <? 128)%N then percent n
  else if (n <? 2048)%N
  then percent (192 + n / 64) +:+ percent (128 + n mod 64)
  else if (n <? 65536)%N
  then percent (224 + n / 4096) +:+ percent (128 + (n / 64) mod 64)
       +:+ percent (128 + n mod 64)
  else percent (240 + (n / 262144) mod 8)
       +:+ percent (128 + (n / 4096) mod 64)
       +:+ percent (128 + (n / 64) mod 64) +:+ percent (128 + n mod 64).

Definition is_alnum (n : N) : bool :=
  ((48 <=? n) && (n <=? 57) || (65 <=? n) && (n <=? 90)
   || (97 <=? n) && (n <=? 122))%N.

Fixpoint encode_with (keep : N -> bool) (plus : bool) (s : string) : string :=
  match s with
  | EmptyString => EmptyString
  | String c s' =>
      let n := Str.code c in
      (if keep n then String c EmptyString
       else if plus && (n =? 32)%N then "+"
       else percent_utf8 n) +:+ encode_with keep plus s'
  end.

(** What [encodeURIComponent] throws. *)
Definition URIError : Error :=
  mkError "URIError" "URI malformed" VUndefined VUndefined.

(** A JavaScript string is a sequence of 16-bit code units.  The strings
    of this development hold the code units below 256; [units] gives the
    code units of one of them. *)
Definition units (s : string) : list N :=
  List.map Str.code (String.list_ascii_of_string s).

(** The two halves of a surrogate pair. *)
Definition is_lead (u : N) : bool := ((55296 <=? u) && (u <=? 56319))%N.
Definition is_trail (u : N) : bool := ((56320 <=? u) && (u <=? 57343))%N.

(** The code point a surrogate pair stands for. *)
Definition pair_point (lead trail : N) : N :=
  ((lead - 55296) * 1024 + (trail - 56320) + 65536)%N.

(** The encoding [encodeURIComponent] applies to a sequence of code units:
    a code unit of the set [keep] stays as it is; any other code point
    becomes the percent escapes of its UTF-8 bytes; a surrogate that is
    not part of a pair throws a URIError. *)
Fixpoint Encode (keep : N -> bool) (us : list N) : result string :=
  match us with
  | [] => Ok EmptyString
  | u :: rest =>
      if keep u
      then rbind (Encode keep rest)
             (fun s => Ok (String (ascii_of_N u) s))
      else if is_trail u then Throw URIError
      else if is_lead u then
        match rest with
        | v :: rest' =>
            if is_trail v
            then rbind (Encode keep rest')
                   (fun s => Ok (percent_utf8 (pair_point u v) +:+ s))
            else Throw URIError
        | [] => Throw URIError
        end
      else rbind (Encode keep rest) (fun s => Ok (percent_utf8 u +:+ s))
  end.

(** The code units [encodeURIComponent] keeps: letters, digits and
    [- _ . ! ~ * ' ( )]. *)
Definition uri_unreserved (n : N) : bool :=
  is_alnum n || existsb (N.eqb n) [45; 95; 46; 33; 126; 42; 39; 40; 41]%N.

(** [encodeURIComponent(v)] *)
Definition encodeURIComponent (v : value) : result string :=
  Encode uri_unreserved (units (ToString v)).

(** A [URLSearchParams] object: its list of name-value pairs. *)
Definition URLSearchParams : Type := list (string * string).

Definition usp_append (sp : URLSearchParams) (k : string) (v : value)
  : URLSearchParams := sp ++ [(k, ToString v)].

Fixpoint usp_replace (sp : URLSearchParams) (k v : string)
  : URLSearchParams :=
  match sp with
  | [] => []
  | (k', v') :: rest =>
      if String.eqb k' k
      then (k, v) :: List.filter (fun kv => negb (String.eqb (fst kv) k)) rest
      else (k', v') :: usp_replace rest k v
  end.

Definition usp_set (sp : URLSearchParams) (k : string) (v : value)
  : URLSearchParams :=
  if existsb (fun kv => String.eqb (fst kv) k) sp
  then usp_replace sp k (ToString v)
  else sp ++ [(k, ToString v)].

(** The [application/x-www-form-urlencoded] serialisation: letters, digits
    and [* - . _] are kept, a space becomes [+]. *)
Definition form_encode (s : string) : string :=
  encode_with
    (fun n => is_alnum n || existsb (N.eqb n) [42; 45; 46; 95]%N) true s.

Definition usp_toString (sp : URLSearchParams) : string :=
  Str.join "&"
    (List.map (fun kv => form_encode (fst kv) +:+ "=" +:+ form_encode (snd kv))
       sp).

(** [`${base}${query ? `?${query}` : ''}`] *)
Definition with_query (base query : string) : string :=
  base +:+ (if String.eqb query EmptyString then EmptyString
            else "?" +:+ query).

(** A parameter with a default value. *)
Definition default_arg (d v : value) : value :=
  match v with VUndefined => d | _ => v end.

Definition when (c : bool) (f : URLSearchParams -> URLSearchParams)
  (sp : URLSearchParams) : URLSearchParams := if c then f sp else sp.

Definition post (method : string) (body : value) : RequestInit :=
  mkInit (Some method) (stringify body) None.

(** *** api: one function per endpoint

    Each function of [api] computes the path and the options of its
    request, which may throw, and returns the promise of
    [request(path, options)].  An omitted argument is [VUndefined]. *)

Inductive call : Type :=
| getEvents (params : value)
| getTeams (region : value)
| getMaps
| getMarkets
| getMatches (params : value)
| getMatch (matchId : value)
| getMatchAnalysis (matchId : value)
| getCrossMatchParlays (params : value)
| saveVeto (matchId body : value)
| saveOdds (matchId body : value)
| getOdds (matchId latestOnly : value)
| autoOdds (matchId force : value)
| getTeamStats (teamId mapName : value)
| statsQuery (q : value)
| statsH2h (a b mapName : value)
| saveLiveMapResult (matchId body : value)
| getLiveSeriesProb (matchId : value)
| getConfig
| updateConfig (body : value)
| sync (body : value)
| hedge (stake odds hedgeOdds lockProfit : value).

(** The arguments an endpoint function hands to [request]. *)
Definition endpoint (c : call) : result (string * RequestInit) :=
  match c with
  | getEvents params =>
      let params := default_arg (VObj []) params in
      rbind (prop params "fromYear") (fun fromYear =>
      let search :=
        when (negb (is_nullish fromYear))
          (fun sp => usp_set sp "from_year" (VStr (ToString fromYear))) [] in
      let query := usp_toString search in
      Ok (with_query "/api/events" query, no_options))
  | getTeams region =>
      rbind (if ToBoolean region && negb (is_string "all" region)
             then rbind (encodeURIComponent region)
                    (fun encoded => Ok ("?region=" +:+ encoded))
             else Ok EmptyString) (fun q =>
      Ok ("/api/teams" +:+ q, no_options))
  | getMaps => Ok ("/api/maps", no_options)
  | getMarkets => Ok ("/api/markets", no_options)
  | getMatches params =>
      let params := default_arg (VObj []) params in
      rbind (prop params "eventIds") (fun eventIds =>
      let search :=
        match eventIds with
        | VArr ids => foldl (fun sp id => usp_append sp "event_id" id) [] ids
        | _ => []
        end in
      let status := Get params "status" in
      let search :=
        when (ToBoolean status) (fun sp => usp_set sp "status" status)
          search in
      let dateFrom := Get params "dateFrom" in
      let search :=
        when (ToBoolean dateFrom) (fun sp => usp_set sp "date_from" dateFrom)
          search in
      let dateTo := Get params "dateTo" in
      let search :=
        when (ToBoolean dateTo) (fun sp => usp_set sp "date_to" dateTo)
          search in
      let fromYear := Get params "fromYear" in
      let search :=
        when (negb (is_nullish fromYear))
          (fun sp => usp_set sp "from_year" (VStr (ToString fromYear)))
          search in
      let limit := Get params "limit" in
      let search :=
        when (ToBoolean limit) (fun sp => usp_set sp "limit" limit) search in
      let query := usp_toString search in
      Ok (with_query "/api/matches" query, no_options))
  | getMatch matchId =>
      Ok ("/api/matches/" +:+ ToString matchId, no_options)
  | getMatchAnalysis matchId =>
      Ok ("/api/matches/" +:+ ToString matchId +:+ "/analysis", no_options)
  | getCrossMatchParlays params =>
      let params := default_arg (VObj []) params in
      rbind (prop params "dateFrom") (fun dateFrom =>
      let search :=
        when (ToBoolean dateFrom) (fun sp => usp_set sp "date_from" dateFrom)
          [] in
      let dateTo := Get params "dateTo" in
      let search :=
        when (ToBoolean dateTo) (fun sp => usp_set sp "date_to" dateTo)
          search in
      let maxLegs := Get params "maxLegs" in
      let search :=
        when (negb (is_nullish maxLegs))
          (fun sp => usp_set sp "max_legs" (VStr (ToString maxLegs)))
          search in
      let query := usp_toString search in
      Ok (with_query "/api/analysis/cross-match-parlays" query, no_options))
  | saveVeto matchId body =>
      Ok ("/api/matches/" +:+ ToString matchId +:+ "/veto",
          post "POST" body)
  | saveOdds matchId body =>
      Ok ("/api/matches/" +:+ ToString matchId +:+ "/odds",
          post "POST" body)
  | getOdds matchId latestOnly =>
      let latestOnly := default_arg (VBool true) latestOnly in
      Ok ("/api/matches/" +:+ ToString matchId +:+ "/odds?latest_only="
          +:+ ToString latestOnly, no_options)
  | autoOdds matchId force =>
      let force := default_arg (VBool false) force in
      Ok ("/api/matches/" +:+ ToString matchId +:+ "/odds/auto",
          post "POST" (VObj [("force", force)]))
  | getTeamStats teamId mapName =>
      rbind (if ToBoolean mapName
             then rbind (encodeURIComponent mapName)
                    (fun encoded => Ok ("?map_name=" +:+ encoded))
             else Ok EmptyString) (fun q =>
      Ok ("/api/stats/team/" +:+ ToString teamId +:+ q, no_options))
  | statsQuery q =>
      rbind (encodeURIComponent q) (fun encoded =>
      Ok ("/api/stats/query?q=" +:+ encoded, no_options))
  | statsH2h a b mapName =>
      let search := [("a", ToString a); ("b", ToString b)] in
      let search :=
        when (ToBoolean mapName) (fun sp => usp_set sp "map_name" mapName)
          search in
      Ok ("/api/stats/h2h?" +:+ usp_toString search, no_options)
  | saveLiveMapResult matchId body =>
      Ok ("/api/matches/" +:+ ToString matchId +:+ "/live/map-result",
          post "POST" body)
  | getLiveSeriesProb matchId =>
      Ok ("/api/matches/" +:+ ToString matchId +:+ "/live/series-prob",
          no_options)
  | getConfig => Ok ("/api/config", no_options)
  | updateConfig body => Ok ("/api/config", post "PUT" body)
  | sync body => Ok ("/api/sync", post "POST" (or_else body (VObj [])))
  | hedge stake odds hedgeOdds lockProfit =>
      let lockProfit := default_arg (VBool true) lockProfit in
      Ok ("/api/hedge?stake=" +:+ ToString stake
          +:+ "&odds=" +:+ ToString odds
          +:+ "&hedge_odds=" +:+ ToString hedgeOdds
          +:+ "&lock_profit=" +:+ ToString lockProfit, no_options)
  end.

(** [api.c(...)] as the caller of an [await] sees it: what the function
    throws and what its request rejects with are both thrown. *)
Definition api (c : call) : M value :=
  let* args := lift (endpoint c) in
  request (fst args) (snd args).

End Client.

(** ** pages/Dashboard: loading the event and match lists *)

Module Dashboard.

Import Num JS Async Client.

(** *** Promises *)

(** A promise by what becomes of it: it fulfils or rejects at some time,
    or never settles. *)
Inductive promise (A : Type) : Type :=
| Fulfils (t : Z) (a : A)
| Fails (t : Z) (e : Error)
| NeverSettles.
Arguments Fulfils {A} t a.
Arguments Fails {A} t e.
Arguments NeverSettles {A}.

(** The promise an endpoint function returns when its request runs in the
    world [w]. *)
Definition promise_of (c : call) (w : world) : promise value :=
  match api c w with
  | (Returned v, w') => Fulfils (now w') v
  | (Thrown e, w') => Fails (now w') e
  | (Pending, _) => NeverSettles
  end.

(** The rejection that happens first (the earlier promise on a tie). *)
Fixpoint first_failure (ps : list (promise value)) : option (Z * Error) :=
  match ps with
  | [] => None
  | p :: rest =>
      match p, first_failure rest with
      | Fails t e, Some (t', e') =>
          if t' <? t then Some (t', e') else Some (t, e)
      | Fails t e, None => Some (t, e)
      | _, r => r
      end
  end.

Fixpoint all_fulfilled (ps : list (promise value)) : option (Z * list value) :=
  match ps with
  | [] => Some (0, [])
  | Fulfils t v :: rest =>
      match all_fulfilled rest with
      | Some (t', vs) => Some (Z.max t t', v :: vs)
      | None => None
      end
  | _ :: _ => None
  end.

(** [Promise.all(ps)]: it rejects with the first rejection, fulfils with
    all the values once every promise has fulfilled, and otherwise never
    settles. *)
Definition Promise_all (ps : list (promise value)) : promise (list value) :=
  match first_failure ps with
  | Some (t, e) => Fails t e
  | None =>
      match all_fulfilled ps with
      | Some (t, vs) => Fulfils t vs
      | None => NeverSettles
      end
  end.

(** *** Component state *)

Record state : Type := mkState {
  matches : value;
  events : value;
  config : value;
  loading : bool;
  error : string
}.

Definition initial : state :=
  mkState (VArr []) (VArr []) VNull false EmptyString.

Definition setMatches (v : value) (st : state) : state :=
  mkState v (events st) (config st) (loading st) (error st).
Definition setEvents (v : value) (st : state) : state :=
  mkState (matches st) v (config st) (loading st) (error st).
Definition setConfig (v : value) (st : state) : state :=
  mkState (matches st) (events st) v (loading st) (error st).
Definition setLoading (b : bool) (st : state) : state :=
  mkState (matches st) (events st) (config st) b (error st).
Definition setError (s : string) (st : state) : state :=
  mkState (matches st) (events st) (config st) (loading st) s.

Record filters : Type := mkFilters {
  eventFilter : string;
  statusFilter : string;
  dateFrom : string;
  dateTo : string;
  fromYear : value
}.

Definition MATCHES_LIMIT : value := VNum (of_Z 80).

(** [s || undefined] *)
Definition or_undefined (s : string) : value :=
  or_else (VStr s) VUndefined.

Definition params (f : filters) : value :=
  VObj ((if negb (String.eqb (eventFilter f) EmptyString)
         then [("eventIds", VArr [VNum (ToNumber (VStr (eventFilter f)))])]
         else [])
        ++ [("status", or_undefined (statusFilter f));
            ("dateFrom", or_undefined (dateFrom f));
            ("dateTo", or_undefined (dateTo f));
            ("fromYear", fromYear f);
            ("limit", MATCHES_LIMIT)]).

(** [Array.isArray(res) ? res : (res?.items ?? [])] *)
Definition list_of (res : value) : value :=
  if isArray res then res else coalesce (GetOpt res "items") (VArr []).

(** The [then] callback; the array it receives has the three results. *)
Definition onFulfilled (results : list value) (st : state) : state :=
  let eventsRes := nth 0 results VUndefined in
  let configRes := nth 1 results VUndefined in
  let matchesRes := nth 2 results VUndefined in
  let eventList := list_of eventsRes in
  let matchList := list_of matchesRes in
  setMatches matchList (setConfig configRes (setEvents eventList st)).

(** The [catch] callback: [err?.message || 'Erro ao carregar']. *)
Definition onRejected (err : Error) (st : state) : state :=
  let msg := if String.eqb (message err) EmptyString
             then "Erro ao carregar" else message err in
  setMatches (VArr []) (setEvents (VArr []) (setError msg st)).

(** The [finally] callback. *)
Definition onFinally (st : state) : state := setLoading false st.

(** [p.then(f).catch(g).finally(h)] for callbacks that only set state: the
    state once the chain has run, or [None] if [p] never settles. *)
Definition then_catch_finally {A} (p : promise A)
  (f : A -> state -> state) (g : Error -> state -> state)
  (h : state -> state) (st : state) : option state :=
  match p with
  | Fulfils _ a => Some (h (f a st))
  | Fails _ e => Some (h (g e st))
  | NeverSettles => None
  end.

(** The three requests [loadData] starts, each in its own world. *)
Definition requests (f : filters) (net : world * world * world)
  : list (promise value) :=
  let '(w1, w2, w3) := net in
  [promise_of (getEvents (VObj [("fromYear", fromYear f)])) w1;
   promise_of getConfig w2;
   promise_of (getMatches (params f)) w3].

(** The state [loadData] leaves when it returns (the requests are in
    flight), and the state after its promise chain has run, if it does. *)
Definition loadData_started (st : state) : state :=
  setError EmptyString (setLoading true st).

Definition loadData (f : filters) (net : world * world * world) (st : state)
  : option state :=
  then_catch_finally (Promise_all (requests f net))
    onFulfilled onRejected onFinally (loadData_started st).

(** *** The overview counters *)

Record counters : Type := mkCounters {
  live : nat;
  upcoming : nat;
  done : nat
}.

(** [xs.filter(p)] for a callback that may throw. *)
Fixpoint filterR (p : value -> result bool) (xs : list value)
  : result (list value) :=
  match xs with
  | [] => Ok []
  | x :: rest =>
      rbind (p x) (fun b =>
      rbind (filterR p rest) (fun ys => Ok (if b then x :: ys else ys)))
  end.

(** [(m) => m.status === s] *)
Definition has_status (s : string) (m : value) : result bool :=
  rbind (prop m "status") (fun st => Ok (is_string s st)).

(** The [useMemo] callback; [matches.filter] throws when [matches] is not
    an array. *)
Definition overview (matches : value) : result counters :=
  match matches with
  | VArr ms =>
      rbind (filterR (has_status "ongoing") ms) (fun l =>
      rbind (filterR (has_status "upcoming") ms) (fun u =>
      rbind (filterR (has_status "completed") ms) (fun d =>
      Ok (mkCounters (length l) (length u) (length d)))))
  | _ =>
      Throw (TypeError
               (if is_nullish matches
                then "Cannot read properties of " +:+ ToString matches
                else "matches.filter is not a function"))
  end.

End Dashboard.

(** ** JSX

  What a component function returns: a tree of elements.  A child is
  literal text, an embedded expression (a value), an element, or an array
  of children. *)

Module JSX.

Import JS.

Inductive node : Type :=
| Text (s : string)
| Expr (v : value)
| Elem (tag : string) (attrs : list (string * value)) (children : list node)
| Many (items : list node).

Definition className (c : string) : string * value := ("className", VStr c).
Definition key (v : value) : string * value := ("key", v).

Definition children_of (n : node) : list node :=
  match n with
  | Elem _ _ cs => cs
  | Many cs => cs
  | _ => []
  end.

(** [xs.map((x, idx) => f x idx)] *)
Fixpoint imap_from {A B} (i : nat) (f : A -> nat -> B) (xs : list A)
  : list B :=
  match xs with
  | [] => []
  | x :: rest => f x i :: imap_from (S i) f rest
  end.

Definition num_of_nat (n : nat) : value := VNum (Num.of_Z (Z.of_nat n)).

End JSX.

(** ** components/AnalysisPanel: the table of edges *)

Module AnalysisPanel.

Import Num JS JSX.

Definition pct (v : value) : string :=
  toFixed (mul (ToNumber (or_else v (VNum zero))) (of_Z 100)) 1 +:+ "%".

Definition td (children : list node) : node :=
  Elem "td" [className "py-2 pr-2"] children.

Definition th (label : string) : node :=
  Elem "th" [className "py-2 pr-2"] [Text label].

(** One row of the table body; [edge] is an element of [single_edges]. *)
Definition row (edge : value) (idx : nat) : result node :=
  rbind (prop edge "market") (fun market =>
  let selection := Get edge "selection" in
  let map_number := Get edge "map_number" in
  Ok (Elem "tr"
        [key (VStr (ToString market +:+ "-" +:+ ToString selection +:+ "-"
                    +:+ ToString (num_of_nat idx)));
         className "border-b border-slate-100"]
        [td [Expr market;
             Expr (VStr (if ToBoolean map_number
                         then " M" +:+ ToString map_number
                         else EmptyString))];
         td [Expr selection];
         td [Expr (Get edge "bookmaker")];
         td [Expr (VStr (toFixed (ToNumber (Get edge "odds")) 2))];
         td [Expr (VStr (pct (Get edge "p_impl")))];
         td [Expr (VStr (pct (Get edge "p_model")))];
         Elem "td"
           [className ("py-2 pr-2 font-semibold "
                       +:+ (if gt (ToNumber (Get edge "edge")) zero
                            then "text-emerald-700" else "text-slate-500"))]
           [Expr (VStr (pct (Get edge "edge")))];
         td [Expr (Get edge "recommendation")];
         td [Text "R$";
             Expr (VStr (toFixed
                           (ToNumber (or_else (Get edge "suggested_stake")
                                        (VNum zero))) 2))]])).

Fixpoint rows_from (i : nat) (edges : list value) : result (list node) :=
  match edges with
  | [] => Ok []
  | e :: rest =>
      rbind (row e i) (fun r =>
      rbind (rows_from (S i) rest) (fun rs => Ok (r :: rs)))
  end.

(** [analysis?.single_edges || []] *)
Definition edges_of (analysis : value) : value :=
  or_else (GetOpt analysis "single_edges") (VArr []).

Definition header : node :=
  Elem "thead" []
    [Elem "tr"
       [className "border-b border-slate-200 text-xs uppercase text-slate-500"]
       [th "Mercado"; th ("Sele" +:+ String "231" (String "227" "o"));
        th "Casa"; th "Odd";
        th ("Prob. impl" +:+ String "237" "cita"); th "Prob. modelo";
        th "Edge"; th ("Recomenda" +:+ String "231" (String "227" "o"));
        th "Valor sug."]].

Definition empty_row : node :=
  Elem "tr" []
    [Elem "td" [className "py-3 text-slate-500"; ("colSpan", VNum (of_Z 9))]
       [Text "Sem odds suficientes para calcular edges."]].

(** The component; [edges.map] throws when [single_edges] is a truthy value
    that is not an array. *)
Definition AnalysisPanel (analysis : value) : result node :=
  let edges := edges_of analysis in
  match edges with
  | VArr es =>
      rbind (rows_from 0 es) (fun rows =>
      Ok (Elem "section" [className "panel p-4"]
            [Elem "h3"
               [className "font-display text-base font-semibold text-ink"]
               [Text "Tabela de edges"];
             Elem "div" [className "mt-3 overflow-x-auto"]
               [Elem "table" [className "min-w-full text-left text-sm"]
                  [header;
                   Elem "tbody" []
                     [Many rows;
                      if negb (ToBoolean (Get edges "length"))
                      then empty_row else Expr VNull]]]]))
  | _ => Throw (TypeError "edges.map is not a function")
  end.

(** The rows of the table body in a rendered panel. *)
Definition body_rows (panel : node) : list node :=
  match panel with
  | Elem _ _ [_; Elem _ _ [Elem _ _ [_; Elem _ _ (Many rows :: _)]]] => rows
  | _ => []
  end.

(** The content of the [i]th cell of a row. *)
Definition cell (r : node) (i : nat) : list node :=
  children_of (nth i (children_of r) (Many [])).

End AnalysisPanel.

(** ** components/ComparisonPanel: the win probabilities of a map row *)

Module ComparisonPanel.

Import Num JS.

(** [pct(value)].  For [null], [undefined] and NaN the component shows a
    dash (U+2014), which is no code unit of the strings here: [None]
    stands for it. *)
Definition pct (v : value) : option string :=
  if is_nullish v || match v with VNum n => isNaN n | _ => false end
  then None
  else Some (toFixed (mul (ToNumber v) (of_Z 100)) 1 +:+ "%").

(** [row.p_team_a_win != null ? Number(row.p_team_a_win) : null] *)
Definition pA (row : value) : value :=
  let p := Get row "p_team_a_win" in
  if negb (is_nullish p) then VNum (ToNumber p) else VNull.

(** [pA != null ? 1 - pA : null] *)
Definition pB (pA : value) : value :=
  if negb (is_nullish pA) then VNum (sub (of_Z 1) (ToNumber pA)) else VNull.

(** The two [P(ganha)] cells of a row of the table of all maps, that of
    team A and that of team B; [row] is an element of
    [comparison.all_maps], and reading [row.team_a] throws when it is
    [null]. *)
Definition win_cells (row : value) : result (option string * option string) :=
  rbind (prop row "team_a") (fun _ =>
  let a := pA row in
  let b := pB a in
  Ok (pct a, pct b)).

End ComparisonPanel.

(** ** components/OddsForm: collecting the odds entries to save *)

Module OddsForm.

Import Num JS Async.

Definition BOOKMAKERS : list string := ["betano"; "bet365"].

Definition entry (bookmaker market_type selection odds_value map_number : value)
  : value :=
  VObj [("bookmaker", bookmaker); ("market_type", market_type);
        ("selection", selection); ("odds_value", odds_value);
        ("map_number", map_number)].

(** [xs.slice(start, end)] on an array. *)
Definition slice {A} (xs : list A) (start stop : Z) : list A :=
  let l := Z.of_nat (length xs) in
  let from := Str.clamp l start in
  let to := Str.clamp l stop in
  if to <=? from then []
  else firstn (Z.to_nat (to - from)) (skipn (Z.to_nat from) xs).

(** The body of the loop of [parseBatch] on one line: the entry pushed, or
    [None] where the code says [continue]. *)
Definition parseLine (line : string) : option value :=
  let tokens := Str.split_spaces line in
  if (length tokens <? 4)%nat then None
  else
    let bookmaker := Str.toLowerCase (nth 0 tokens EmptyString) in
    let market_type := Str.toLowerCase (nth 1 tokens EmptyString) in
    let selection := Str.join " " (slice tokens 2 (-1)) in
    let odds_value := ofString (nth (length tokens - 1) tokens EmptyString) in
    if negb (isFinite odds_value) || le odds_value (of_Z 1) then None
    else
      let mapDigits := Str.filter Str.is_digit market_type in
      Some (entry (VStr bookmaker) (VStr market_type) (VStr selection)
              (VNum odds_value)
              (if negb (String.eqb mapDigits EmptyString)
               then VNum (ofString mapDigits) else VNull)).

(** [batchText.replace(/\n/g, ';').split(';').map((part) => part.trim())
    .filter(Boolean)] *)
Definition batch_lines (batchText : string) : list string :=
  List.filter (fun part => negb (String.eqb part EmptyString))
    (List.map Str.trim
       (Str.split ";"
          (Str.map (fun c => if Ascii.eqb c "010" then ";"%char else c)
             batchText))).

Definition parseBatch (batchText : string) : list value :=
  omap parseLine (batch_lines batchText).

(** [if (x > 1) entries.push(e)] *)
Definition push_if (x : number) (e : value) : list value :=
  if gt x (of_Z 1) then [e] else [].

(** [Number(values[key])] *)
Definition field (values : value) (key : string) : number :=
  ToNumber (Get values key).

(** The first [forEach]: the match-winner odds of one bookmaker. *)
Definition match_winner_entries (values teamA teamB : value) (book : string)
  : list value :=
  let mwA := field values ("match_winner_" +:+ book +:+ "_a") in
  let mwB := field values ("match_winner_" +:+ book +:+ "_b") in
  push_if mwA (entry (VStr book) (VStr "match_winner") teamA (VNum mwA) VNull)
  ++ push_if mwB
       (entry (VStr book) (VStr "match_winner") teamB (VNum mwB) VNull).

(** The inner [forEach]: the odds of one bookmaker on map [n]. *)
Definition map_entries (values teamA teamB n : value) (book : string)
  : list value :=
  let pre := "map" +:+ ToString n in
  let winnerA := field values (pre +:+ "_winner_" +:+ book +:+ "_a") in
  let winnerB := field values (pre +:+ "_winner_" +:+ book +:+ "_b") in
  let otYes := field values (pre +:+ "_ot_" +:+ book) in
  let handicap := field values (pre +:+ "_handicap_" +:+ book) in
  let total := field values (pre +:+ "_total_rounds_" +:+ book) in
  let pistol := field values (pre +:+ "_pistol_" +:+ book) in
  push_if winnerA
    (entry (VStr book) (VStr (pre +:+ "_winner")) teamA (VNum winnerA) n)
  ++ push_if winnerB
       (entry (VStr book) (VStr (pre +:+ "_winner")) teamB (VNum winnerB) n)
  ++ push_if otYes
       (entry (VStr book) (VStr (pre +:+ "_ot")) (VStr "Yes") (VNum otYes) n)
  ++ push_if handicap
       (entry (VStr book) (VStr (pre +:+ "_handicap"))
          (VStr (ToString teamA +:+ " -2.5")) (VNum handicap) n)
  ++ push_if total
       (entry (VStr book) (VStr (pre +:+ "_total_rounds"))
          (VStr "Over 24.5") (VNum total) n)
  ++ push_if pistol
       (entry (VStr book) (VStr (pre +:+ "_pistol_1h")) teamA (VNum pistol) n).

(** [teams?.team_a?.tag || teams?.team_a?.name || 'Team A'] *)
Definition team_label (teams : value) (side fallback : string) : value :=
  let team := GetOpt teams side in
  or_else (or_else (GetOpt team "tag") (GetOpt team "name")) (VStr fallback).

Definition default_maps : value :=
  VArr (List.map (fun i =>
                    VObj [("map_order", VNum (of_Z i));
                          ("map_name", VStr ("Map " +:+ Str.of_Z i))])
          [1; 2; 3]).

(** [maps?.length ? maps : default] *)
Definition mapList (maps : value) : value :=
  if ToBoolean (GetOpt maps "length") then maps else default_maps.

Record props : Type := mkProps {
  matchId : value;
  teams : value;
  maps : value;
  has_onSaved : bool
}.

Definition collectStructuredEntries (p : props) (values : value)
  : result (list value) :=
  let teamA := team_label (teams p) "team_a" "Team A" in
  let teamB := team_label (teams p) "team_b" "Team B" in
  let first := flat_map (match_winner_entries values teamA teamB) BOOKMAKERS in
  match mapList (maps p) with
  | VArr ms =>
      rbind (mapM (fun map =>
                     rbind (prop map "map_order") (fun n =>
                     Ok (flat_map (map_entries values teamA teamB n)
                           BOOKMAKERS))) ms)
        (fun per_map => Ok (first ++ concat per_map))
  | _ => Throw (TypeError "mapList.forEach is not a function")
  end.

(** *** The save handlers *)

Record form : Type := mkForm {
  values : value;
  batchText : string;
  busy : bool;
  error : string
}.

Inductive effect : Type :=
| CallSaveOdds (matchId body : value)
| CallOnSaved (res : value).

(** A handler runs over the form and the calls it has made. *)
Definition H (A : Type) : Type := M (form * list effect) A.

Definition setError (s : string) : H unit :=
  modify (fun '(f, log) => (mkForm (values f) (batchText f) (busy f) s, log)).
Definition setBusy (b : bool) : H unit :=
  modify (fun '(f, log) => (mkForm (values f) (batchText f) b (error f), log)).
Definition setBatchText (s : string) : H unit :=
  modify (fun '(f, log) => (mkForm (values f) s (busy f) (error f), log)).

(** [await api.saveOdds(matchId, body)]; [saved] is how the request ends. *)
Definition api_saveOdds (saved : completion value) (matchId body : value)
  : H value :=
  fun '(f, log) => (saved, (f, log ++ [CallSaveOdds matchId body])).

(** [onSaved?.(res)] *)
Definition onSaved (p : props) (res : value) : H unit :=
  modify (fun '(f, log) =>
            (f, if has_onSaved p then log ++ [CallOnSaved res] else log)).

(** [!entries.length] *)
Definition is_empty (entries : list value) : bool :=
  match entries with [] => true | _ :: _ => false end.

Definition saveStructured (p : props) (saved : completion value) : H unit :=
  setError EmptyString ;;
  setBusy true ;;
  finally
    (try_catch
       (let* values := gets (fun s => values (fst s)) in
        let* entries := lift (collectStructuredEntries p values) in
        if is_empty entries
        then throw (new_Error "Preencha pelo menos uma odd valida.")
        else
          let* res :=
            api_saveOdds saved (matchId p) (VObj [("entries", VArr entries)]) in
          onSaved p res)
       (fun err => setError (message err)))
    (setBusy false).

Definition saveBatch (p : props) (saved : completion value) : H unit :=
  setError EmptyString ;;
  setBusy true ;;
  finally
    (try_catch
       (let* batchText := gets (fun s => batchText (fst s)) in
        let entries := parseBatch batchText in
        if is_empty entries
        then throw (new_Error "Nenhuma odd valida no batch paste.")
        else
          let* res :=
            api_saveOdds saved (matchId p) (VObj [("entries", VArr entries)]) in
          setBatchText EmptyString ;;
          onSaved p res)
       (fun err => setError (message err)))
    (setBusy false).

(** [xs.join(sep)] on an array: [null] and [undefined] elements give the
    empty string. *)
Definition Array_join (sep : string) (xs : list value) : string :=
  Str.join sep
    (List.map (fun x => if is_nullish x then EmptyString else ToString x) xs).

(** [await api.autoOdds(matchId)]; [fetched] is how the request ends. *)
Definition api_autoOdds (fetched : completion value) (matchId : value)
  : H value :=
  fun s => (fetched, s).

(** [Array.isArray(fallbackSteps) ? ` | Fallback: ${fallbackSteps.join(' | ')}`
    : ''] for [fallbackSteps = err?.payload?.fallback_steps]. *)
Definition fallbackText (err : Error) : string :=
  match GetOpt (payload err) "fallback_steps" with
  | VArr steps => " | Fallback: " +:+ Array_join " | " steps
  | _ => EmptyString
  end.

Definition autoFetch (p : props) (fetched : completion value) : H unit :=
  setError EmptyString ;;
  setBusy true ;;
  finally
    (try_catch
       (let* res := api_autoOdds fetched (matchId p) in
        onSaved p res)
       (fun err => setError (message err +:+ fallbackText err)))
    (setBusy false).

End OddsForm.

(** ** components/StatsResult: rendering the markdown lines *)

Module StatsResult.

Import Num JS JSX.

Record loop_state : Type := mkLoop {
  parts : list node;
  remaining : string
}.

Inductive step : Type :=
| Continue (s : loop_state)
| Exit (s : loop_state).

(** One test of the condition of the [while] loop followed, when it holds,
    by one run of its body. *)
Definition loop_body (s : loop_state) : step :=
  if negb (Str.includes (remaining s) "**") then Exit s
  else
    let i1 := Str.indexOf (remaining s) "**" 0 in
    let i2 := Str.indexOf (remaining s) "**" (i1 + 2) in
    if i2 =? -1 then Exit s
    else
      let parts1 :=
        parts s ++ [Expr (VStr (Str.slice (remaining s) 0 (Some i1)))] in
      let parts2 :=
        parts1
        ++ [Elem "strong" [key (num_of_nat (length parts1))]
              [Expr (VStr (Str.slice (remaining s) (i1 + 2) (Some i2)))]] in
      Continue (mkLoop parts2 (Str.slice (remaining s) (i2 + 2) None)).

(** The [while] loop, run for at most [fuel] iterations; [None] when the
    fuel runs out first. *)
Fixpoint run_loop (fuel : nat) (s : loop_state) : option loop_state :=
  match fuel with
  | O => None
  | S fuel' =>
      match loop_body s with
      | Exit s' => Some s'
      | Continue s' => run_loop fuel' s'
      end
  end.

(** The callback of [lines.map]. *)
Definition renderLine (fuel : nat) (line : string) (i : nat)
  : option node :=
  if Str.startsWith "### " line then
    Some (Elem "h3" [key (num_of_nat i);
                     className "mt-3 text-sm font-semibold text-ink"]
            [Expr (VStr (Str.slice line 4 None))])
  else if Str.startsWith "## " line then
    Some (Elem "h2" [key (num_of_nat i);
                     className "mt-4 text-base font-semibold text-ink first:mt-0"]
            [Expr (VStr (Str.slice line 3 None))])
  else if Str.startsWith "- " line then
    let rest := Str.slice line 2 None in
    match run_loop fuel (mkLoop [] rest) with
    | Some s =>
        let parts := parts s ++ [Expr (VStr (remaining s))] in
        Some (Elem "p" [key (num_of_nat i);
                        className "ml-2 text-sm text-slate-700"]
                [Many parts])
    | None => None
    end
  else if String.eqb (Str.trim line) EmptyString then
    Some (Elem "br" [key (num_of_nat i)] [])
  else
    Some (Elem "p" [key (num_of_nat i); className "text-sm text-slate-700"]
            [Expr (VStr line)]).

Fixpoint render_from (fuel : nat) (i : nat) (lines : list string)
  : option (list node) :=
  match lines with
  | [] => Some []
  | line :: rest =>
      match renderLine fuel line i, render_from fuel (S i) rest with
      | Some n, Some ns => Some (n :: ns)
      | _, _ => None
      end
  end.

Definition newline : ascii := "010".

(** [renderMarkdownLines(md)], every loop being given [fuel] iterations. *)
Definition renderMarkdownLines (fuel : nat) (md : string)
  : option (list node) :=
  render_from fuel 0 (Str.split newline md).

End StatsResult.

(** ** components/SeriesProbs: the format of the chart and its caption *)

Module SeriesProbs.

Import JS FormatBo.

(** [boType != null && boType !== '' ? formatBoType(boType)
    : inferSeriesFormatFromScoreProbs(scoreProbs)] *)
Definition format (scoreProbs boType : value) : string :=
  if negb (is_nullish boType) && negb (is_string EmptyString boType)
  then formatBoType boType
  else inferSeriesFormatFromScoreProbs scoreProbs.

Definition data (scoreProbs boType : value) : value :=
  seriesChartData scoreProbs (VStr (format scoreProbs boType)).

(** [format === 'Bo5' ? 'Bo5' : 'Bo3'] *)
Definition formatLabel (scoreProbs boType : value) : string :=
  if String.eqb (format scoreProbs boType) "Bo5" then "Bo5" else "Bo3".

End SeriesProbs.

(** ** components/MatchCard: the status badge *)

Module MatchCard.

Import JS JSX.

Definition statusBadge (status : value) : node :=
  if is_string "ongoing" status then
    Elem "span" [className "badge badge-live"] [Text "LIVE"]
  else if is_string "upcoming" status then
    Elem "span" [className "badge badge-upcoming"] [Text "UPCOMING"]
  else Elem "span" [className "badge badge-done"] [Text "DONE"].

End MatchCard.

(** ** Handlers that call the API

  A handler of a page or panel runs over the world of the API client and
  the state of its component. *)

Module Page.

Import JS Async Client.

Definition P (S A : Type) : Type := Async.M (world * S) A.

(** [await api.c(...)] *)
Definition api_call {S} (c : call) : P S value :=
  fun ws => let '(r, w') := api c (fst ws) in (r, (w', snd ws)).

(** The promise of [request(path, options)]. *)
Definition requested {S} (path : string) (options : RequestInit)
  : P S value :=
  fun ws =>
    let '(r, w') := request path options (fst ws) in (r, (w', snd ws)).

(** The call expression [api.c(...)] where its promise is not awaited on
    the spot: what the endpoint function throws is thrown by the
    expression itself; otherwise its value is the promise of the
    request. *)
Definition start {S} (c : call) : P S (P S value) :=
  match endpoint c with
  | Ok (path, options) => ret (requested path options)
  | Throw e => throw e
  end.

(** A state setter. *)
Definition update {S} (f : S -> S) : P S unit :=
  modify (fun ws => (fst ws, f (snd ws))).

(** The state the handler closes over. *)
Definition read {S} : P S S := gets snd.

End Page.

(** ** components/VetoInput: saving the veto *)

Module VetoInput.

Import JS Async.

Record form : Type := mkForm {
  vetoText : string;
  loading : bool;
  error : string
}.

Inductive effect : Type :=
| CallSaveVeto (matchId body : value)
| CallOnSaved (res : value).

Definition H (A : Type) : Type := M (form * list effect) A.

Definition setError (s : string) : H unit :=
  modify (fun '(f, log) => (mkForm (vetoText f) (loading f) s, log)).
Definition setLoading (b : bool) : H unit :=
  modify (fun '(f, log) => (mkForm (vetoText f) b (error f), log)).
Definition setVetoText (s : string) : H unit :=
  modify (fun '(f, log) => (mkForm s (loading f) (error f), log)).

(** [await api.saveVeto(matchId, body)]; [saved] is how the request ends. *)
Definition api_saveVeto (saved : completion value) (matchId body : value)
  : H value :=
  fun '(f, log) => (saved, (f, log ++ [CallSaveVeto matchId body])).

(** [onSaved?.(res)] *)
Definition onSaved (has_onSaved : bool) (res : value) : H unit :=
  modify (fun '(f, log) =>
            (f, if has_onSaved then log ++ [CallOnSaved res] else log)).

Definition handleSave (matchId : value) (has_onSaved : bool)
  (saved : completion value) : H unit :=
  setError EmptyString ;;
  let* vetoText := gets (fun s => vetoText (fst s)) in
  if String.eqb (Str.trim vetoText) EmptyString
  then setError "Cole o veto antes de salvar."
  else
    setLoading true ;;
    finally
      (try_catch
         (let* res :=
            api_saveVeto saved matchId (VObj [("veto_text", VStr vetoText)]) in
          setVetoText EmptyString ;;
          onSaved has_onSaved res)
         (fun err => setError (message err)))
      (setLoading false).

End VetoInput.

(** ** components/LivePanel: registering a map result *)

Module LivePanel.

Import Num JS Async Client Page.

Record panel : Type := mkPanel {
  mapNumber : string;
  winnerSide : string;
  scoreA : string;
  scoreB : string;
  error : string;
  updates : list value
}.

Definition setError (s : string) (p : panel) : panel :=
  mkPanel (mapNumber p) (winnerSide p) (scoreA p) (scoreB p) s (updates p).

(** [onUpdated?.(updated)]; the calls are kept in [updates]. *)
Definition onUpdated (has_onUpdated : bool) (updated : value) (p : panel)
  : panel :=
  mkPanel (mapNumber p) (winnerSide p) (scoreA p) (scoreB p) (error p)
    (if has_onUpdated then updates p ++ [updated] else updates p).

(** The body of the map-result request. *)
Definition map_result (p : panel) : value :=
  VObj [("map_number", VNum (ofString (mapNumber p)));
        ("winner_side", VStr (winnerSide p));
        ("score_a", VNum (ofString (scoreA p)));
        ("score_b", VNum (ofString (scoreB p)))].

Definition submitResult (matchId : value) (has_onUpdated : bool)
  : P panel unit :=
  update (setError EmptyString) ;;
  try_catch
    (let* p := read in
     api_call (saveLiveMapResult matchId (map_result p)) ;;
     let* updated := api_call (getLiveSeriesProb matchId) in
     update (onUpdated has_onUpdated updated))
    (fun err => update (setError (message err))).

End LivePanel.

(** ** pages/Stats: the query handlers

  A handler starts a promise chain and returns; the state given here is
  the one after the chain has run. *)

Module StatsPage.

Import Num JS Async Client Page.

Record page : Type := mkPage {
  query : string;
  h2hA : string;
  h2hB : string;
  h2hMap : string;
  result : value;
  error : string
}.

Definition setError (s : string) (p : page) : page :=
  mkPage (query p) (h2hA p) (h2hB p) (h2hMap p) (result p) s.
Definition setResult (v : value) (p : page) : page :=
  mkPage (query p) (h2hA p) (h2hB p) (h2hMap p) v (error p).

(** [promise.then(setResult).catch((err) => setError(err.message))] *)
Definition show (promise : P page value) : P page unit :=
  try_catch (let* res := promise in update (setResult res))
    (fun err => update (setError (message err))).


(** [a === b] on Numbers. *)
Definition same_number (a b : number) : bool := SFeqb a b.

Definition loadH2h : P page unit :=
  update (setError EmptyString) ;;
  let* p := read in
  let a := ofString (h2hA p) in
  let b := ofString (h2hB p) in
  if negb (ToBoolean (VNum a)) || negb (ToBoolean (VNum b))
  then update (setError "Selecione os dois times.")
  else if same_number a b
  then update (setError "Escolha times diferentes.")
  else
    update (setResult VNull) ;;
    let* promise := start (statsH2h (VNum a) (VNum b)
                             (or_else (VStr (h2hMap p)) VUndefined)) in
    show promise.

End StatsPage.

(** ** pages/MatchAnalysis: loading a match with its analysis *)

Module MatchAnalysisPage.

Import JS Async Client Dashboard.

Record page : Type := mkPage {
  match_ : value;
  analysis : value;
  error : string;
  loading : bool
}.

Definition initial : page := mkPage VNull VNull EmptyString true.

(** The two requests [loadAll] starts, each in its own world. *)
Definition requests (matchId : value) (net : world * world)
  : list (promise value) :=
  [promise_of (getMatch matchId) (fst net);
   promise_of (getMatchAnalysis matchId) (snd net)].

(** The page once [loadAll] has finished; [None] if it never does. *)
Definition loadAll (matchId : value) (net : world * world) (p : page)
  : option page :=
  match Promise_all (requests matchId net) with
  | Fulfils _ results =>
      let matchRes := nth 0 results VUndefined in
      let analysisRes := nth 1 results VUndefined in
      Some (mkPage matchRes analysisRes EmptyString false)
  | Fails _ err => Some (mkPage (match_ p) (analysis p) (message err) false)
  | NeverSettles => None
  end.

End MatchAnalysisPage.

(** ** The formatting helpers over a store

  Arrays and objects are mutable and are passed by reference.  To speak of
  what the helpers of utils/formatBo do to their arguments and to the
  module's own arrays, they are run here over a store of arrays and
  objects: [filter], [map], [Object.keys] and the spread allocate a new
  array, [sort] overwrites the array it is called on. *)

Module Store.

Import Num JS Async.

(** An argument or a result: a primitive, or the address of an array or an
    object. *)
Inductive ref : Type :=
| Imm (v : value)
| At (l : positive).

Abbreviation store := (gmap positive value).

(** The content a reference stands for. *)
Definition view (σ : store) (r : ref) : value :=
  match r with
  | Imm v => v
  | At l => default VUndefined (σ !! l)
  end.

Definition load (r : ref) : M store value := gets (fun σ => view σ r).

Definition alloc (v : value) : M store ref :=
  fun σ => let l := fresh (dom σ) in (Returned (At l), <[l := v]> σ).

Definition write (r : ref) (v : value) : M store unit :=
  modify (fun σ => match r with At l => <[l := v]> σ | Imm _ => σ end).

Definition elems (v : value) : list value :=
  match v with VArr xs => xs | _ => [] end.

(** [x === y] on primitives. *)
Definition strict_eq (x y : value) : bool :=
  match x, y with
  | VUndefined, VUndefined | VNull, VNull => true
  | VBool a, VBool b => Bool.eqb a b
  | VNum a, VNum b => SFeqb a b
  | VStr a, VStr b => String.eqb a b
  | _, _ => false
  end.

Fixpoint filterM (p : value -> M store bool) (xs : list value)
  : M store (list value) :=
  match xs with
  | [] => ret []
  | x :: rest =>
      let* keep := p x in
      let* kept := filterM p rest in
      ret (if keep then x :: kept else kept)
  end.

Fixpoint mapM (f : value -> M store value) (xs : list value)
  : M store (list value) :=
  match xs with
  | [] => ret []
  | x :: rest =>
      let* y := f x in
      let* ys := mapM f rest in
      ret (y :: ys)
  end.

(** [arr.filter(p)] *)
Definition Array_filter (arr : ref) (p : value -> M store bool)
  : M store ref :=
  let* a := load arr in
  let* kept := filterM p (elems a) in
  alloc (VArr kept).

(** [arr.map(f)] *)
Definition Array_map (arr : ref) (f : value -> M store value) : M store ref :=
  let* a := load arr in
  let* ys := mapM f (elems a) in
  alloc (VArr ys).

(** [arr.includes(x)] *)
Definition Array_includes (arr : ref) (x : value) : M store bool :=
  let* a := load arr in
  ret (existsb (strict_eq x) (elems a)).

(** [Object.keys(o)] *)
Definition Object_keys (o : ref) : M store ref :=
  let* v := load o in
  alloc (VArr (VStr <$> keys v)).

(** The order of the default [sort]: by the strings of the elements, with
    [undefined] last. *)
Definition sort_le (x y : value) : Prop :=
  match x, y with
  | _, VUndefined => True
  | VUndefined, _ => False
  | _, _ => String.le (ToString x) (ToString y)
  end.

#[export] Instance sort_le_dec : RelDecision sort_le.
Proof.
  intros x y. unfold sort_le.
  destruct x, y; first [exact (left I) | right; exact (fun H => H) | apply _].
Defined.

(** [arr.sort()]: the array is sorted in place and returned. *)
Definition Array_sort (arr : ref) : M store ref :=
  let* a := load arr in
  write arr (VArr (merge_sort sort_le (elems a))) ;;
  ret arr.

(** [[...a, ...b]] *)
Definition Array_spread (a b : ref) : M store ref :=
  let* xs := load a in
  let* ys := load b in
  alloc (VArr (elems xs ++ elems ys)).

(** The addresses of the module's arrays [BO3_ORDER] and [BO5_ORDER]. *)
Definition BO3_ORDER : positive := 1.
Definition BO5_ORDER : positive := 2.

(** The store once the module has been evaluated. *)
Definition loaded (σ : store) : Prop :=
  σ !! BO3_ORDER = Some (VArr (VStr <$> FormatBo.BO3_ORDER))
  ∧ σ !! BO5_ORDER = Some (VArr (VStr <$> FormatBo.BO5_ORDER)).

Definition module_store : store :=
  <[BO5_ORDER := VArr (VStr <$> FormatBo.BO5_ORDER)]>
    (<[BO3_ORDER := VArr (VStr <$> FormatBo.BO3_ORDER)]> ∅).

(** A reference that is not dangling. *)
Definition bound (σ : store) (r : ref) : Prop :=
  match r with
  | Imm _ => True
  | At l => l ∈ dom σ
  end.

Definition formatBoType (boType : ref) : M store ref :=
  let* v := load boType in
  ret (Imm (VStr (FormatBo.formatBoType v))).

Definition resolveBoType (boType score1 score2 : ref) : M store ref :=
  let* b := load boType in
  let* s1 := load score1 in
  let* s2 := load score2 in
  ret (Imm (VStr (FormatBo.resolveBoType b s1 s2))).

Definition inferSeriesFormatFromScoreProbs (scoreProbs : ref) : M store ref :=
  let* sp := load scoreProbs in
  ret (Imm (VStr (FormatBo.inferSeriesFormatFromScoreProbs sp))).

(** [{ score, probability: Number(((scoreProbs[score] ?? 0) * 100)
    .toFixed(2)) }] *)
Definition entry (sp score : value) : value :=
  VObj [("score", score);
        ("probability", VNum (FormatBo.probability sp (ToString score)))].

Definition seriesChartData (scoreProbs format : ref) : M store ref :=
  let* sp := load scoreProbs in
  if FormatBo.not_an_object sp then alloc (VArr [])
  else
    let* fmt := load format in
    let order := if is_string "Bo5" fmt then At BO5_ORDER else At BO3_ORDER in
    let* ordered :=
      Array_filter order
        (fun s => let* sp := load scoreProbs in
                  ret (negb (is_nullish (Get sp (ToString s))))) in
    let* ks := Object_keys scoreProbs in
    let* unsorted :=
      Array_filter ks
        (fun s => let* found := Array_includes order s in ret (negb found)) in
    let* rest := Array_sort unsorted in
    let* allKeys := Array_spread ordered rest in
    Array_map allKeys
      (fun score => let* sp := load scoreProbs in ret (entry sp score)).

(** A helper call is pure at a store when it returns, leaves every array
    and object of the store as it was, and returns an equal result when it
    is evaluated again. *)
Definition pure_at (m : M store ref) (σ : store) : Prop :=
  ∃ r1 σ1 r2 σ2,
    m σ = (Returned r1, σ1) ∧ m σ1 = (Returned r2, σ2)
    ∧ σ ⊆ σ1 ∧ σ1 ⊆ σ2
    ∧ view σ2 r1 = view σ2 r2.

End Store.

(** ** The properties, in the words of the specification *)

Module Spec.

Import Num JS.

(** The string contains the character. *)
Definition has_char (c : ascii) (s : string) : bool :=
  existsb (Ascii.eqb c) (String.list_ascii_of_string s).

(** The lowercased string form of a value. *)
Definition lowered (v : value) : string := Str.toLowerCase (ToString v).

(** The label of a best-of type: [Bo?] for [null], [undefined] and the
    empty string; otherwise [Bo5] when the lowercased string form has a 5,
    otherwise [Bo3] when it has a 3, otherwise [Bo?]. *)
Definition bo_label (v : value) : string :=
  match v with
  | VNull | VUndefined | VStr EmptyString => "Bo?"
  | _ =>
      if has_char "5" (lowered v) then "Bo5"
      else if has_char "3" (lowered v) then "Bo3"
      else "Bo?"
  end.

(** The label of a match: that of its best-of type when there is one;
    otherwise, from scores that convert to finite numbers, [Bo5] when
    their sum is above 3 and [Bo3] when it is not; otherwise [Bo?]. *)
Definition resolved_label (boType score1 score2 : value) : string :=
  if negb (String.eqb (FormatBo.formatBoType boType) "Bo?")
  then FormatBo.formatBoType boType
  else
    let s1 := ToNumber score1 in
    let s2 := ToNumber score2 in
    if isFinite s1 && isFinite s2
    then if gt (add s1 s2) (of_Z 3) then "Bo5" else "Bo3"
    else "Bo?".

(** The canonical scorelines of a format. *)
Definition canonical (format : value) : list string :=
  match format with
  | VStr "Bo5" => ["3-0"; "3-1"; "3-2"; "2-3"; "1-3"; "0-3"]
  | _ => ["2-0"; "2-1"; "1-2"; "0-2"]
  end.

(** A value that is an object: an array or a plain object. *)
Definition is_object (v : value) : bool :=
  match v with VArr _ | VObj _ => true | _ => false end.

(** The string [s] is the number [m * 2 ^ e] (below [10 ^ 21], of sign
    [neg]) rounded to [f] decimal places: the digits of the integer [n]
    nearest to [m * 2 ^ e * 10 ^ f] with the point [f] places from the
    right. *)
Definition rounded (f : nat) (neg : bool) (m : positive) (e : Z)
  (s : string) : Prop :=
  ∃ n : Z,
    s = (if neg then "-" else EmptyString) +:+ fixed_digits n f
    ∧ 0 <= n
    ∧ let '(num, den) := ratio m e in
      2 * Z.abs (n * den - num * 10 ^ Z.of_nat f) <= den.

(** The number [p] is the value [v] (0 when it is [null] or [undefined])
    multiplied by 100 and rounded to [f] decimal places: [p] is read from
    the rounded decimal.  (From [10 ^ 21] on, and for NaN and the
    infinities, the decimal is the string of the number itself.) *)
Definition times_100_rounded (f : nat) (v : value) (s : string) : Prop :=
  let y := mul (ToNumber v) (of_Z 100) in
  match y with
  | S754_finite neg m e =>
      if ge_1e21 m e then s = toString y else rounded f neg m e s
  | S754_zero _ => s = fixed_digits 0 f
  | S754_infinity _ | S754_nan => s = toString y
  end.

(** *** The request wrapper *)

Import Async Client.

(** No armed timer aborts the controller the next request will create. *)
Definition wf_world (w : world) : Prop :=
  Forall (fun t => t_controller t < fresh_id w) (armed w).

Definition is_fetch (e : event) : bool :=
  match e with EFetch _ _ => true | _ => false end.

(** The number of fetch calls in a log. *)
Definition fetches (lg : list event) : nat :=
  length (List.filter is_fetch lg).

(** The payload of a response: the decoded JSON body, or [null] for a
    response that is not JSON. *)
Definition decoded (r : Response) (payload : value) : Prop :=
  (is_json r = true /\ r_body r = BodyJson payload)
  \/ (is_json r = false /\ payload = VNull).

(** The message of the error for a non-ok response: taken from
    [payload.detail], else from [payload.error] (a value that is not a
    string as its JSON text), else [Request failed (<status>)]. *)
Definition error_message (payload : value) (status : Z) : string :=
  let detail := GetOpt payload "detail" in
  let error := GetOpt payload "error" in
  if ToBoolean detail then message_text detail
  else if ToBoolean error then message_text error
  else "Request failed (" +:+ Str.of_Z status +:+ ")".

(** The error [request] throws for a non-ok response. *)
Definition http_error (r : Response) (payload : value) : Error :=
  mkError "Error" (error_message payload (r_status r))
    (VNum (of_Z (r_status r))) payload.

(** The fetch settles with the response [r] before the 30 seconds are
    over. *)
Definition responds (b : fetch_behaviour) (r : Response) : Prop :=
  exists d, settles_after b = Some d /\ 0 <= d < 30000
            /\ outcome b = Resolves r.

(** The fetch has not settled when the 30 seconds are over. *)
Definition too_late (b : fetch_behaviour) : Prop :=
  match settles_after b with
  | Some d => 30000 < d
  | None => True
  end.

(** The claim about non-ok responses as it is worded: whenever the fetch
    of a request settles in time with a non-ok response, [request] throws
    an error that carries the status and a payload. *)
Definition every_http_error_has_status : Prop :=
  forall (path : string) (options : RequestInit) (w : world)
         (b : fetch_behaviour) (rest : list fetch_behaviour) (r : Response),
    wf_world w -> network w = b :: rest -> responds b r -> ok r = false ->
    exists e, fst (request path options w) = Thrown e
              /\ status e = VNum (of_Z (r_status r)).

(** The body of the response is awaited and never arrives: the response
    announces JSON and [response.json()] does not settle. *)
Definition body_stalls (r : Response) : Prop :=
  is_json r = true /\ r_body r = BodyStalls.

(** A failure of the fetch of a request: the 30 seconds pass, the fetch
    rejects, the response is not ok, or its body does not decode. *)
Inductive failure (b : fetch_behaviour) : Prop :=
| timed_out : too_late b -> failure b
| network_error (d : Z) (e : Error) :
    settles_after b = Some d -> 0 <= d < 30000 -> outcome b = Rejects e ->
    failure b
| bad_status (r : Response) : responds b r -> ok r = false -> failure b
| decode_error (r : Response) (e : Error) :
    responds b r -> is_json r = true -> r_body r = BodyFails e -> failure b.

(** The claim about failures as it is worded: whenever the fetch of a
    request fails, [request] throws. *)
Definition every_failure_is_thrown : Prop :=
  forall (path : string) (options : RequestInit) (w : world)
         (b : fetch_behaviour) (rest : list fetch_behaviour),
    wf_world w -> network w = b :: rest -> failure b ->
    exists e, fst (request path options w) = Thrown e.

(** The body of the response to the next fetch call of the world never
    arrives. *)
Definition body_never_arrives (w : world) : Prop :=
  exists r, outcome (hd never (network w)) = Resolves r /\ body_stalls r.

(** What [request] makes of an error caught by its [catch]. *)
Definition rethrown (e : Error) : completion value :=
  if String.eqb (name e) "AbortError"
  then Thrown (new_Error timeout_message) else Thrown e.

(** What [request] makes of a response whose payload is [v]. *)
Definition finish (r : Response) (v : value) : completion value :=
  if ok r then Returned v
  else Thrown (mkError "Error"
                 (message_text (failure_message v (r_status r)))
                 (VNum (of_Z (r_status r))) v).

(** The completion of a request as a function of the behaviour of its
    fetch. *)
Definition request_completion (w : world) : completion value :=
  let b := hd never (network w) in
  if fires_first (now w + REQUEST_TIMEOUT_MS) b (now w)
  then Thrown (new_Error timeout_message)
  else
    match settles_after b, outcome b with
    | Some _, Resolves r =>
        if is_json r then
          match r_body r with
          | BodyJson v => finish r v
          | BodyFails e => rethrown e
          | BodyStalls => Pending
          end
        else finish r VNull
    | Some _, Rejects e => rethrown e
    | None, _ => Pending
    end.

(** Code that makes no fetch call. *)
Definition quiet {A} (m : M A) : Prop :=
  forall w, fetches (log (snd (m w))) = fetches (log w)
            /\ network (snd (m w)) = network w.

(** *** The dashboard *)

Import Dashboard.

(** The list a response stands for: the response itself when it is an array,
    its [items] field when it is an object that has one, and the empty list
    otherwise. *)
Definition items_or_empty (res : value) : value :=
  match res with
  | VArr _ => res
  | VObj props =>
      match assoc "items" props with
      | VUndefined | VNull => VArr []
      | items => items
      end
  | _ => VArr []
  end.

(** The message shown for an error. *)
Definition shown_message (e : Error) : string :=
  if String.eqb (message e) EmptyString then "Erro ao carregar"
  else message e.

(** All three requests succeeded, and the lists and the configuration are
    set from the three responses. *)
Definition loaded_all (ps : list (promise value)) (st' : state) : Prop :=
  exists t1 v1 t2 v2 t3 v3,
    ps = [Fulfils t1 v1; Fulfils t2 v2; Fulfils t3 v3]
    /\ events st' = items_or_empty v1
    /\ config st' = v2
    /\ matches st' = items_or_empty v3.

(** A request failed: the error message is set and both lists are empty. *)
Definition load_failed (ps : list (promise value)) (st' : state) : Prop :=
  exists t e,
    Fails t e ∈ ps
    /\ error st' = shown_message e
    /\ error st' <> EmptyString
    /\ events st' = VArr []
    /\ matches st' = VArr [].

(** *** The table of edges *)

Import JSX AnalysisPanel.

(** A probability as it is displayed: multiplied by 100, with one decimal
    place and a trailing percent sign; a missing or [null] value (any falsy
    one) as 0.0%. *)
Definition percent (v : value) : string :=
  if ToBoolean v then toFixed (mul (ToNumber v) (of_Z 100)) 1 +:+ "%"
  else "0.0%".

(** The row [r] displays the odds, the implied probability, the model
    probability and the edge of the payload entry [edge], each through its
    display transformation and nothing else. *)
Definition row_shows (edge : value) (r : node) : Prop :=
  cell r 3 = [Expr (VStr (toFixed (ToNumber (Get edge "odds")) 2))]
  /\ cell r 4 = [Expr (VStr (percent (Get edge "p_impl")))]
  /\ cell r 5 = [Expr (VStr (percent (Get edge "p_model")))]
  /\ cell r 6 = [Expr (VStr (percent (Get edge "edge")))].

(** *** The comparison panel *)

(** The claim that the client computes no model probability, as it is
    worded, for the table of all maps of the comparison panel: each of
    the two win probabilities a row displays is a field of the payload
    row, displayed. *)
Definition displays_payload_only : Prop :=
  forall (row : value) (a b : option string),
    ComparisonPanel.win_cells row = Ok (a, b) ->
    (exists k, a = ComparisonPanel.pct (Get row k))
    /\ (exists k, b = ComparisonPanel.pct (Get row k)).

(** *** The markdown lines *)

(** The number of occurrences of a character in a string. *)
Fixpoint occurrences (c : ascii) (s : string) : nat :=
  match s with
  | EmptyString => O
  | String a s' => ((if Ascii.eqb a c then 1 else 0) + occurrences c s')%nat
  end.

(** *** The odds form *)

(** The odds of an entry are a finite number above 1. *)
Definition finite_odds_above_one (e : value) : Prop :=
  exists n, Get e "odds_value" = VNum n
            /\ isFinite n = true /\ gt n (of_Z 1) = true.

(** The odds of an entry are a number above 1. *)
Definition odds_above_one (e : value) : Prop :=
  exists n, Get e "odds_value" = VNum n /\ gt n (of_Z 1) = true.

(** The state of the structured form after the user has typed [Infinity]
    into the first field (the odds of team A at the first bookmaker). *)
Definition infinity_typed : value :=
  VObj [("match_winner_betano_a", VStr "Infinity")].

(** The Number written as a decimal literal. *)
Definition num (s : string) : value := VNum (ofString s).

End Spec.

(** ** Further notions used in the statements *)

Module Props.

Import Num JS JSX.

(** The badge reads DONE. *)
Definition shows_done (badge : node) : bool :=
  match badge with
  | Elem _ _ [Text t] => String.eqb t "DONE"
  | _ => false
  end.

(** One of the three statuses the overview counts. *)
Definition counted_status (status : value) : bool :=
  is_string "ongoing" status || is_string "upcoming" status
  || is_string "completed" status.

(** The characters [encodeURIComponent] leaves as they are. *)
Definition unreserved (c : ascii) : bool :=
  let n := Str.code c in
  Client.is_alnum n
  || existsb (N.eqb n) [45; 95; 46; 33; 126; 42; 39; 40; 41]%N.

(** A character that cannot end or split a query parameter: an unreserved
    one, or the percent sign of an escape. *)
Definition url_safe (c : ascii) : bool := unreserved c || Ascii.eqb c "%".

(** What follows the rows in the table body of a rendered panel. *)
Definition after_rows (panel : node) : option node :=
  match panel with
  | Elem _ _ [_; Elem _ _ [Elem _ _ [_; Elem _ _ [Many _; n]]]] => Some n
  | _ => None
  end.

(** The markdown a rendered part stands for: a text as it is, an element
    around a text (a [strong]) as that text between two pairs of
    asterisks. *)
Definition part_source (part : node) : string :=
  match part with
  | Expr (VStr s) => s
  | Elem _ _ [Expr (VStr s)] => "**" +:+ s +:+ "**"
  | _ => EmptyString
  end.

Definition source_of (parts : list node) : string :=
  foldr (fun part rest => part_source part +:+ rest) EmptyString parts.

(** The string holds no white space. *)
Definition spaceless (s : string) : Prop :=
  forall c, Spec.has_char c s = true -> Str.is_space c = false.

(** The fetch calls of a log. *)
Definition fetch_calls (lg : list Client.event) : list Client.event :=
  List.filter Spec.is_fetch lg.

End Props.

(** * Theorems *)

(** ** Strings *)

Module StrFacts.

Import Str.

Lemma find_char (c : ascii) (s : string) :
  is_Some (find (String c EmptyString) s) <-> Spec.has_char c s = true.
Proof.
  unfold Spec.has_char.
  induction s as [|b s IH]; simpl.
  - split; [intros [x Hx]; discriminate | discriminate].
  - rewrite andb_true_r. destruct (Ascii.eqb c b) eqn:E; simpl.
    + split; eauto.
    + rewrite <- IH. destruct (find (String c EmptyString) s); simpl;
        split; intros [x Hx]; eauto; discriminate.
Qed.

Lemma indexOf_0 (s sub : string) :
  indexOf s sub 0 = match find sub s with
                    | Some i => Z.of_nat i
                    | None => -1
                    end.
Proof.
  unfold indexOf, len.
  replace (Z.to_nat (Z.min (Z.max 0 0) (Z.of_nat (String.length s)))) with O
    by lia.
  reflexivity.
Qed.

Lemma includes_find (s sub : string) :
  includes s sub = bool_decide (is_Some (find sub s)).
Proof.
  unfold includes. rewrite indexOf_0.
  case_bool_decide as H.
  - destruct H as [i ->].
    destruct (Z.eqb_spec (Z.of_nat i) (-1)); [lia | reflexivity].
  - destruct (find sub s) as [i|]; [destruct H; eauto | reflexivity].
Qed.

Lemma includes_char (c : ascii) (s : string) :
  includes s (String c EmptyString) = Spec.has_char c s.
Proof.
  rewrite includes_find.
  destruct (Spec.has_char c s) eqn:E.
  - apply bool_decide_eq_true_2, find_char, E.
  - apply bool_decide_eq_false_2. rewrite find_char, E. discriminate.
Qed.

End StrFacts.

(** ** utils/formatBo *)

Module FormatBoFacts.

Import Num JS FormatBo.

(** C4. For every input, [formatBoType] returns one of the three labels
    Bo3, Bo5 and Bo?: Bo? when the input is [null], [undefined] or the
    empty string; otherwise Bo5 when the lowercased string form of the
    input contains the character 5; otherwise Bo3 when it contains the
    character 3; otherwise Bo?. *)
Theorem formatBoType_label (boType : value) :
  formatBoType boType = Spec.bo_label boType
  /\ (formatBoType boType = "Bo3" \/ formatBoType boType = "Bo5"
      \/ formatBoType boType = "Bo?").
Proof.
  assert (E : formatBoType boType = Spec.bo_label boType).
  { unfold formatBoType, Spec.bo_label, Spec.lowered.
    rewrite !StrFacts.includes_char.
    destruct boType as [| |b|n|s|xs|ps]; try reflexivity.
    destruct s; reflexivity. }
  split; [exact E|]. rewrite E. unfold Spec.bo_label.
  destruct boType as [| |b|n|s|xs|ps]; auto;
    try (destruct (Spec.has_char "5" _); auto;
         destruct (Spec.has_char "3" _); auto).
  destruct s; auto.
  destruct (Spec.has_char "5" _); auto; destruct (Spec.has_char "3" _); auto.
Qed.

(** C5. [resolveBoType] returns the label of the best-of type whenever
    that is not Bo?; otherwise, when both scores convert to finite numbers,
    Bo5 exactly when their sum is above 3 and Bo3 for every other finite
    pair (a 3-0 series and a 0-0 match among them); and Bo? when a score
    does not convert to a finite number. *)
Theorem resolveBoType_label (boType score1 score2 : value) :
  let s1 := ToNumber score1 in
  let s2 := ToNumber score2 in
  resolveBoType boType score1 score2
  = Spec.resolved_label boType score1 score2
  /\ (formatBoType boType <> "Bo?" ->
      resolveBoType boType score1 score2 = formatBoType boType)
  /\ (formatBoType boType = "Bo?" ->
      isFinite s1 = true -> isFinite s2 = true ->
      (resolveBoType boType score1 score2 = "Bo5"
       <-> gt (add s1 s2) (of_Z 3) = true)
      /\ (gt (add s1 s2) (of_Z 3) = false ->
          resolveBoType boType score1 score2 = "Bo3"))
  /\ (formatBoType boType = "Bo?" ->
      isFinite s1 = false \/ isFinite s2 = false ->
      resolveBoType boType score1 score2 = "Bo?")
  /\ resolveBoType VNull (VNum (of_Z 3)) (VNum (of_Z 0)) = "Bo3"
  /\ resolveBoType VNull (VNum (of_Z 0)) (VNum (of_Z 0)) = "Bo3"
  /\ resolveBoType VNull (VNum (of_Z 3)) (VNum (of_Z 1)) = "Bo5".
Proof.
  intros s1 s2.
  assert (E : resolveBoType boType score1 score2
              = Spec.resolved_label boType score1 score2).
  { unfold resolveBoType, Spec.resolved_label.
    destruct (negb (String.eqb (formatBoType boType) "Bo?")); [reflexivity|].
    destruct (isFinite (ToNumber score1) && isFinite (ToNumber score2));
      [|reflexivity].
    simpl. destruct (gt _ _); reflexivity. }
  split; [exact E|]. rewrite E. unfold Spec.resolved_label. fold s1 s2.
  split; [|split; [|split; [|repeat split; vm_compute; reflexivity]]].
  - intros Hne. apply String.eqb_neq in Hne. rewrite Hne. reflexivity.
  - intros Hq F1 F2. rewrite Hq, F1, F2. simpl.
    destruct (gt (add s1 s2) _); intuition congruence.
  - intros Hq [F|F]; rewrite Hq, F; simpl; [reflexivity|].
    rewrite andb_false_r. reflexivity.
Qed.

Lemma not_an_object_is_object (v : value) :
  not_an_object v = negb (Spec.is_object v).
Proof.
  destruct v as [| |b|n|s|xs|ps]; try reflexivity.
  - unfold not_an_object. simpl. apply orb_true_r.
  - unfold not_an_object. simpl. apply orb_true_r.
  - unfold not_an_object. simpl. apply orb_true_r.
Qed.

Lemma order_canonical (format : value) :
  (if is_string "Bo5" format then BO5_ORDER else BO3_ORDER)
  = Spec.canonical format.
Proof.
  destruct format as [| |b|n|s|xs|ps]; try reflexivity.
  simpl. destruct (String.eqb_spec s "Bo5") as [->|Hne]; [reflexivity|].
  unfold Spec.canonical.
  repeat (match goal with
          | |- context [match ?x with _ => _ end] =>
              destruct x; try reflexivity; try congruence
          end).
Qed.

Lemma includes_elem_of (xs : list string) (s : string) :
  includes xs s = bool_decide (s ∈ xs).
Proof.
  unfold includes. induction xs as [|x xs IH].
  - case_bool_decide as H; [|reflexivity].
    by apply elem_of_nil in H.
  - cbn [existsb]. rewrite IH.
    destruct (String.eqb_spec s x) as [->|Hne]; cbn [orb].
    + symmetry. apply bool_decide_eq_true_2. left.
    + apply bool_decide_ext. rewrite elem_of_cons. intuition congruence.
Qed.

(** The integer [toFixed] prints is the one nearest to the scaled value. *)
Lemma scaled_round_nearest (m : positive) (e : Z) (f : nat) :
  let '(num, den) := ratio m e in
  0 <= scaled_round m e f
  /\ 2 * Z.abs (scaled_round m e f * den - num * 10 ^ Z.of_nat f) <= den.
Proof.
  unfold scaled_round.
  assert (Hr : 0 < fst (ratio m e) /\ 0 < snd (ratio m e)).
  { unfold ratio. destruct e as [|p|p]; cbn [fst snd]; split; try lia;
      try (apply Z.mul_pos_pos; [lia|]); apply Z.pow_pos_nonneg; lia. }
  destruct (ratio m e) as [num den]. simpl in Hr. destruct Hr as [Hn Hd].
  assert (Hp : 0 < 10 ^ Z.of_nat f) by (apply Z.pow_pos_nonneg; lia).
  set (a := num * 10 ^ Z.of_nat f).
  assert (Ha : 0 < a) by (apply Z.mul_pos_pos; assumption).
  replace (2 * num * 10 ^ Z.of_nat f) with (2 * a) by (unfold a; ring).
  pose proof (Z.div_mod (2 * a + den) (2 * den) ltac:(lia)) as Hdm.
  pose proof (Z.mod_pos_bound (2 * a + den) (2 * den) ltac:(lia)) as Hb.
  set (n := (2 * a + den) / (2 * den)) in *.
  split.
  - apply Z.div_pos; lia.
  - nia.
Qed.

Lemma toFixed_rounded (f : nat) (neg : bool) (m : positive) (e : Z) :
  ge_1e21 m e = false ->
  Spec.rounded f neg m e (toFixed (S754_finite neg m e) f).
Proof.
  intros H. unfold toFixed. rewrite H.
  exists (scaled_round m e f).
  pose proof (scaled_round_nearest m e f) as Hn.
  destruct (ratio m e) as [num den]. destruct Hn as [H0 Hn].
  repeat split; assumption.
Qed.

End FormatBoFacts.

Module ChartFacts.

Import Num JS FormatBo FormatBoFacts.

Lemma toFixed_times_100 (f : nat) (v : value) :
  Spec.times_100_rounded f v (toFixed (mul (ToNumber v) (of_Z 100)) f).
Proof.
  unfold Spec.times_100_rounded.
  destruct (mul (ToNumber v) (of_Z 100)) as [s|s| |s m e] eqn:E;
    try reflexivity.
  destruct (ge_1e21 m e) eqn:G.
  - unfold toFixed. rewrite G. reflexivity.
  - apply toFixed_rounded, G.
Qed.

(** C6. For an object [scoreProbs], [seriesChartData] lists first the
    canonical scorelines of the format that [scoreProbs] holds with a
    value other than [null], in canonical order, then every other key of
    [scoreProbs] in lexicographic order; each entry carries its key and,
    as probability, the key's value (0 for [null]) multiplied by 100 and
    rounded to 2 decimal places.  A canonical scoreline whose value is
    [null] is left out, and a [scoreProbs] that is not an object gives the
    empty list. *)
Theorem seriesChartData_rows (scoreProbs format : value) :
  let present s := negb (is_nullish (Get scoreProbs s)) in
  (Spec.is_object scoreProbs = false ->
   seriesChartData scoreProbs format = VArr [])
  /\ (Spec.is_object scoreProbs = true ->
      exists others : list string,
        seriesChartData scoreProbs format
        = VArr (entry scoreProbs
                  <$> (List.filter present (Spec.canonical format) ++ others))
        /\ others ≡ₚ List.filter
                       (fun k => bool_decide (k ∉ Spec.canonical format))
                       (keys scoreProbs)
        /\ StronglySorted String.le others)
  /\ (forall score : string,
        exists s : string,
          entry scoreProbs score
          = VObj [("score", VStr score); ("probability", VNum (ofString s))]
          /\ Spec.times_100_rounded 2
               (coalesce (Get scoreProbs score) (VNum zero)) s)
  /\ (forall score : string,
        Get scoreProbs score = VNull ->
        entry scoreProbs score
        = VObj [("score", VStr score); ("probability", VNum zero)])
  /\ (forall score : string,
        score ∈ Spec.canonical format ->
        Get scoreProbs score = VNull ->
        forall others : list string,
          (forall k, k ∈ others -> k ∉ Spec.canonical format) ->
          score ∉ List.filter present (Spec.canonical format) ++ others).
Proof.
  intros present. unfold seriesChartData.
  rewrite not_an_object_is_object, order_canonical.
  split; [intros ->; reflexivity|].
  split.
  { intros ->. cbn [negb].
    exists (sort (List.filter
                    (fun s => negb (includes (Spec.canonical format) s))
                    (keys scoreProbs))).
    split; [reflexivity|]. split.
    - unfold sort. rewrite merge_sort_Permutation.
      erewrite List.filter_ext; [reflexivity|].
      intros k. rewrite includes_elem_of. symmetry. apply bool_decide_not.
    - apply StronglySorted_merge_sort; apply _. }
  split.
  { intros score. eexists. split; [reflexivity|]. apply toFixed_times_100. }
  split.
  { intros score H. unfold entry, probability. rewrite H. reflexivity. }
  intros score Hc Hnull others Hothers Hin.
  apply elem_of_app in Hin as [Hin|Hin].
  - apply list_elem_of_In, List.filter_In in Hin as [_ Hp].
    unfold present in Hp. rewrite Hnull in Hp. discriminate.
  - exact (Hothers _ Hin Hc).
Qed.

End ChartFacts.

(** ** The helpers over the store *)

Module StoreFacts.

Import Num JS Async Store.

Lemma fresh_unused (σ : store) : σ !! fresh (dom σ) = None.
Proof. apply not_elem_of_dom, is_fresh. Qed.

Lemma alloc_extends (σ : store) (v : value) :
  σ ⊆ <[fresh (dom σ) := v]> σ.
Proof. apply insert_subseteq, fresh_unused. Qed.

Lemma view_weaken (σ σ' : store) (r : ref) :
  bound σ r -> σ ⊆ σ' -> view σ' r = view σ r.
Proof.
  destruct r as [v|l]; [reflexivity|]. simpl. intros Hb Hsub.
  apply elem_of_dom in Hb as [v Hv].
  rewrite Hv, (lookup_weaken _ _ _ _ Hv Hsub). reflexivity.
Qed.

Lemma bound_weaken (σ σ' : store) (r : ref) :
  bound σ r -> σ ⊆ σ' -> bound σ' r.
Proof.
  destruct r as [v|l]; [trivial|]. simpl. intros Hb Hsub.
  apply elem_of_dom in Hb as [v Hv]. apply elem_of_dom.
  exists v. exact (lookup_weaken _ _ _ _ Hv Hsub).
Qed.

Lemma filterM_reads (p : value -> M store bool) (q : value -> bool)
  (xs : list value) (σ : store) :
  (forall x, p x σ = (Returned (q x), σ)) ->
  filterM p xs σ = (Returned (List.filter q xs), σ).
Proof.
  intros Hp. induction xs as [|x xs IH]; [reflexivity|].
  cbn [filterM List.filter]. unfold bind. rewrite Hp.
  fold (filterM p xs). rewrite IH. destruct (q x); reflexivity.
Qed.

Lemma mapM_reads (f : value -> M store value) (g : value -> value)
  (xs : list value) (σ : store) :
  (forall x, f x σ = (Returned (g x), σ)) ->
  mapM f xs σ = (Returned (g <$> xs), σ).
Proof.
  intros Hf. induction xs as [|x xs IH]; [reflexivity|].
  cbn [mapM]. unfold bind. rewrite Hf. fold (mapM f xs). rewrite IH.
  reflexivity.
Qed.

Lemma Array_filter_run (arr : ref) (p : value -> M store bool)
  (q : value -> bool) (σ : store) :
  (forall x, p x σ = (Returned (q x), σ)) ->
  Array_filter arr p σ
  = (Returned (At (fresh (dom σ))),
     <[fresh (dom σ) := VArr (List.filter q (elems (view σ arr)))]> σ).
Proof.
  intros Hp. unfold Array_filter, bind, load, gets.
  rewrite (filterM_reads p q _ σ Hp). reflexivity.
Qed.

Lemma Array_map_run (arr : ref) (f : value -> M store value)
  (g : value -> value) (σ : store) :
  (forall x, f x σ = (Returned (g x), σ)) ->
  Array_map arr f σ
  = (Returned (At (fresh (dom σ))),
     <[fresh (dom σ) := VArr (g <$> elems (view σ arr))]> σ).
Proof.
  intros Hf. unfold Array_map, bind, load, gets.
  rewrite (mapM_reads f g _ σ Hf). reflexivity.
Qed.

(** *** The order of [sort] on arrays of strings *)

#[export] Instance sort_le_total : Total sort_le.
Proof.
  intros x y. unfold sort_le.
  destruct x, y; auto; apply (total String.le).
Qed.

#[export] Instance sort_le_trans : Transitive sort_le.
Proof.
  intros x y z. unfold sort_le.
  destruct x, y, z; try tauto; apply (transitivity (R := String.le)).
Qed.

Lemma sort_strings (xs : list string) :
  merge_sort sort_le (VStr <$> xs) = VStr <$> sort xs.
Proof.
  apply StronglySorted_unique_strong with (R := sort_le).
  - intros x1 x2 H1 H2 H12 H21.
    rewrite merge_sort_Permutation in H1.
    apply list_elem_of_fmap in H1 as [a [-> _]].
    apply list_elem_of_fmap in H2 as [b [-> _]].
    f_equal. apply (anti_symm String.le); assumption.
  - apply StronglySorted_merge_sort; apply _.
  - apply StronglySorted_fmap with (R1 := String.le).
    + intros x y H. exact H.
    + apply StronglySorted_merge_sort; apply _.
  - rewrite merge_sort_Permutation. apply fmap_Permutation.
    unfold sort. symmetry. apply merge_sort_Permutation.
Qed.

Lemma filter_strings (q : string -> bool) (q' : value -> bool)
  (xs : list string) :
  (forall s, q' (VStr s) = q s) ->
  List.filter q' (VStr <$> xs) = VStr <$> List.filter q xs.
Proof.
  intros H. induction xs as [|x xs IH]; [reflexivity|].
  cbn [fmap list_fmap List.filter]. rewrite H.
  change (list_fmap string value VStr xs) with (VStr <$> xs).
  rewrite IH. destruct (q x); reflexivity.
Qed.

Lemma includes_strings (xs : list string) (s : string) :
  existsb (strict_eq (VStr s)) (VStr <$> xs) = includes xs s.
Proof.
  unfold includes. induction xs as [|x xs IH]; [reflexivity|].
  cbn [fmap list_fmap existsb strict_eq].
  change (list_fmap string value VStr xs) with (VStr <$> xs).
  rewrite IH. reflexivity.
Qed.

Lemma Object_keys_run (o : ref) (σ : store) :
  Object_keys o σ
  = (Returned (At (fresh (dom σ))),
     <[fresh (dom σ) := VArr (VStr <$> keys (view σ o))]> σ).
Proof. reflexivity. Qed.

Lemma Array_sort_run (l : positive) (σ : store) :
  Array_sort (At l) σ
  = (Returned (At l),
     <[l := VArr (merge_sort sort_le (elems (view σ (At l))))]> σ).
Proof. reflexivity. Qed.

Lemma Array_spread_run (a b : ref) (σ : store) :
  Array_spread a b σ
  = (Returned (At (fresh (dom σ))),
     <[fresh (dom σ) := VArr (elems (view σ a) ++ elems (view σ b))]> σ).
Proof. reflexivity. Qed.

Lemma view_alloc (σ : store) (v : value) :
  view (<[fresh (dom σ) := v]> σ) (At (fresh (dom σ))) = v.
Proof. simpl. rewrite lookup_insert_eq. reflexivity. Qed.

Lemma view_alloc_other (σ : store) (v : value) (r : ref) :
  bound σ r -> view (<[fresh (dom σ) := v]> σ) r = view σ r.
Proof. intros H. apply view_weaken; [exact H | apply alloc_extends]. Qed.

Lemma bound_alloc (σ : store) (v : value) :
  bound (<[fresh (dom σ) := v]> σ) (At (fresh (dom σ))).
Proof. simpl. apply elem_of_dom. rewrite lookup_insert_eq. eauto. Qed.

Lemma bound_alloc_other (σ : store) (v : value) (r : ref) :
  bound σ r -> bound (<[fresh (dom σ) := v]> σ) r.
Proof. intros H. eapply bound_weaken; [exact H | apply alloc_extends]. Qed.

Lemma view_order (σ : store) (fmt : value) :
  loaded σ ->
  view σ (if is_string "Bo5" fmt then At BO5_ORDER else At BO3_ORDER)
  = VArr (VStr <$> (if is_string "Bo5" fmt then FormatBo.BO5_ORDER
                    else FormatBo.BO3_ORDER))
  /\ bound σ (if is_string "Bo5" fmt then At BO5_ORDER else At BO3_ORDER).
Proof.
  intros [H3 H5]. destruct (is_string "Bo5" fmt); simpl.
  - rewrite H5. split; [reflexivity|]. apply elem_of_dom. eauto.
  - rewrite H3. split; [reflexivity|]. apply elem_of_dom. eauto.
Qed.

Lemma seriesChartData_run (scoreProbs format : ref) (σ : store) :
  loaded σ -> bound σ scoreProbs -> bound σ format ->
  exists l σ',
    seriesChartData scoreProbs format σ = (Returned (At l), σ')
    /\ σ ⊆ σ' /\ σ !! l = None
    /\ σ' !! l = Some (FormatBo.seriesChartData (view σ scoreProbs)
                         (view σ format)).
Proof.
  intros Hld Hsp Hfmt.
  unfold seriesChartData, FormatBo.seriesChartData.
  unfold bind at 1. unfold load at 1, gets at 1.
  destruct (FormatBo.not_an_object (view σ scoreProbs)) eqn:Hobj.
  { eexists _, _. split; [reflexivity|]. split; [apply alloc_extends|].
    split; [apply fresh_unused|]. apply lookup_insert_eq. }
  unfold bind at 1. unfold load at 1, gets at 1.
  destruct (view_order σ (view σ format) Hld) as [Hov Hob].
  set (oref := if is_string "Bo5" (view σ format)
               then At BO5_ORDER else At BO3_ORDER) in *.
  set (order := if is_string "Bo5" (view σ format)
                then FormatBo.BO5_ORDER else FormatBo.BO3_ORDER) in *.
  unfold bind at 1.
  erewrite Array_filter_run; [|intros x; reflexivity].
  rewrite Hov. cbn [elems].
  erewrite (filter_strings
              (fun s => negb (is_nullish (Get (view σ scoreProbs) s))));
    [|reflexivity].
  set (ordered := List.filter _ order).
  set (l1 := fresh (dom σ)). set (σ1 := <[l1 := _]> σ).
  assert (S1 : σ ⊆ σ1) by apply alloc_extends.
  unfold bind at 1. rewrite Object_keys_run.
  rewrite (view_weaken σ σ1 scoreProbs Hsp S1).
  set (l2 := fresh (dom σ1)). set (σ2 := <[l2 := _]> σ1).
  assert (S2 : σ1 ⊆ σ2) by apply alloc_extends.
  unfold bind at 1.
  erewrite Array_filter_run; [|intros x; reflexivity].
  cbv beta.
  assert (S02 : σ ⊆ σ2) by (etrans; eassumption).
  rewrite (view_weaken σ σ2 oref Hob S02), Hov.
  assert (V2 : view σ2 (At l2) = VArr (VStr <$> keys (view σ scoreProbs)))
    by apply view_alloc.
  rewrite V2. cbn [elems].
  erewrite (filter_strings (fun s => negb (includes order s)));
    [|intros s; rewrite includes_strings; reflexivity].
  set (unsorted := List.filter _ (keys _)).
  set (l3 := fresh (dom σ2)). set (σ3 := <[l3 := _]> σ2).
  assert (S3 : σ2 ⊆ σ3) by apply alloc_extends.
  unfold bind at 1. rewrite Array_sort_run.
  assert (V3' : view σ3 (At l3) = VArr (VStr <$> unsorted))
    by apply view_alloc.
  rewrite V3'. cbn [elems].
  rewrite sort_strings.
  set (σ4 := <[l3 := _]> σ3).
  assert (E4 : σ4 = <[l3 := VArr (VStr <$> sort unsorted)]> σ2).
  { unfold σ4, σ3. apply insert_insert_eq. }
  assert (S4 : σ2 ⊆ σ4) by (rewrite E4; apply alloc_extends).
  unfold bind at 1. rewrite Array_spread_run.
  assert (V1 : view σ4 (At l1) = VArr (VStr <$> ordered)).
  { rewrite (view_weaken σ1 σ4); [apply view_alloc | apply bound_alloc |].
    etrans; eassumption. }
  assert (V3 : view σ4 (At l3) = VArr (VStr <$> sort unsorted)).
  { rewrite E4. apply view_alloc. }
  rewrite V1, V3. cbn [elems]. rewrite <- fmap_app.
  set (l4 := fresh (dom σ4)). set (σ5 := <[l4 := _]> σ4).
  assert (S5 : σ4 ⊆ σ5) by apply alloc_extends.
  assert (S05 : σ ⊆ σ5) by (etrans; [exact S02|]; etrans; eassumption).
  erewrite Array_map_run; [|intros x; reflexivity].
  cbv beta. rewrite (view_weaken σ σ5 scoreProbs Hsp S05).
  assert (V4 : view σ5 (At l4) = VArr (VStr <$> (ordered ++ sort unsorted)))
    by apply view_alloc.
  rewrite V4. cbn [elems].
  eexists _, _. split; [reflexivity|].
  split; [etrans; [exact S05 | apply alloc_extends]|].
  split.
  { apply (lookup_weaken_None _ σ5); [apply fresh_unused | exact S05]. }
  rewrite lookup_insert_eq. f_equal. f_equal.
  rewrite <- list_fmap_compose. reflexivity.
Qed.

Lemma loaded_weaken (σ σ' : store) : loaded σ -> σ ⊆ σ' -> loaded σ'.
Proof.
  intros [H3 H5] Hsub.
  split; eapply lookup_weaken; eassumption.
Qed.

Lemma pure_read (v : value) (σ : store) :
  pure_at (ret (Imm v)) σ.
Proof. exists (Imm v), σ, (Imm v), σ. repeat split; reflexivity. Qed.

(** C3. The four formatting helpers are pure.  Run on any store that holds
    the module's arrays and the arguments, each helper returns, leaves
    every array and object of the store (its arguments and the module's
    own arrays among them) as it was, and returns an equal result when it
    is evaluated a second time. *)
Theorem helpers_pure (σ : store)
  (boType score1 score2 scoreProbs format : ref) :
  loaded σ ->
  bound σ boType -> bound σ score1 -> bound σ score2 ->
  bound σ scoreProbs -> bound σ format ->
  pure_at (formatBoType boType) σ
  /\ pure_at (resolveBoType boType score1 score2) σ
  /\ pure_at (inferSeriesFormatFromScoreProbs scoreProbs) σ
  /\ pure_at (seriesChartData scoreProbs format) σ.
Proof.
  intros Hld Hb H1 H2 Hsp Hfmt.
  split; [|split; [|split]].
  - eexists _, σ, _, σ. repeat split; reflexivity.
  - eexists _, σ, _, σ. repeat split; reflexivity.
  - eexists _, σ, _, σ. repeat split; reflexivity.
  - destruct (seriesChartData_run scoreProbs format σ Hld Hsp Hfmt)
      as (l1 & σ1 & E1 & S1 & N1 & V1).
    destruct (seriesChartData_run scoreProbs format σ1
                (loaded_weaken _ _ Hld S1) (bound_weaken _ _ _ Hsp S1)
                (bound_weaken _ _ _ Hfmt S1))
      as (l2 & σ2 & E2 & S2 & N2 & V2).
    exists (At l1), σ1, (At l2), σ2.
    split; [exact E1|]. split; [exact E2|].
    split; [exact S1|]. split; [exact S2|].
    simpl. rewrite V2, (lookup_weaken _ _ _ _ V1 S2).
    rewrite (view_weaken _ _ _ Hsp S1), (view_weaken _ _ _ Hfmt S1).
    reflexivity.
Qed.

Lemma helpers_pure_witness :
  let σ : store :=
    <[7%positive := VObj [("2-1", VNum (ofString "0.3")); ("x", VNull)]]>
      module_store in
  pure_at (seriesChartData (At 7) (Imm (VStr "Bo3"))) σ.
Proof.
  intros σ.
  apply (helpers_pure σ (Imm (VStr "bo3")) (Imm VNull) (Imm VNull) (At 7)
           (Imm (VStr "Bo3"))).
  - split; reflexivity.
  - exact I.
  - exact I.
  - exact I.
  - apply elem_of_dom. eexists. reflexivity.
  - exact I.
Defined.

End StoreFacts.

(** ** api/client *)

Module ClientFacts.

Import Num JS Async Client.

Lemma next_abort_new (c : Z) (ts : list timer) (t : timer) :
  Forall (fun u => t_controller u < c) ts -> t_controller t = c ->
  next_abort c (ts ++ [t]) = Some t.
Proof.
  intros Hts Ht. induction Hts as [|u ts Hu _ IH]; simpl.
  - rewrite Ht, Z.eqb_refl. reflexivity.
  - destruct (Z.eqb_spec (t_controller u) c); [lia | exact IH].
Qed.

Lemma request_result (path : string) (options : RequestInit) (w : world) :
  Spec.wf_world w ->
  fst (request path options w) = Spec.request_completion w.
Proof.
  intros Hwf. unfold request, Spec.request_completion.
  unfold bind at 1. unfold new_AbortController at 1.
  unfold bind at 1. unfold setTimeout_abort at 1.
  cbn [fresh_id now armed network log].
  unfold try_catch. unfold bind at 1. unfold fetch at 1.
  cbn [fresh_id now armed network log f_signal].
  rewrite (next_abort_new (fresh_id w) (armed w)); [|exact Hwf|reflexivity].
  cbn [t_deadline t_id].
  destruct (fires_first _ _ _); [reflexivity|].
  destruct (settles_after _); [|reflexivity].
  destruct (outcome _) as [r|e].
  - unfold bind, clearTimeout, json, ret, throw, Spec.finish, Spec.rethrown.
    destruct (is_json r).
    + destruct (r_body r) as [v|e|].
      * destruct (ok r); reflexivity.
      * unfold bind, clearTimeout, throw.
        destruct (String.eqb (name e) "AbortError"); reflexivity.
      * reflexivity.
    + destruct (ok r); reflexivity.
  - unfold Spec.rethrown, bind, clearTimeout, throw.
    destruct (String.eqb (name e) "AbortError"); reflexivity.
Qed.

Lemma fetches_app (lg es : list event) :
  Spec.fetches (lg ++ es) = (Spec.fetches lg + Spec.fetches es)%nat.
Proof.
  unfold Spec.fetches. rewrite List.filter_app, length_app. reflexivity.
Qed.

Lemma quiet_bind {A B} (m : M A) (k : A -> M B) :
  Spec.quiet m -> (forall a, Spec.quiet (k a)) -> Spec.quiet (bind m k).
Proof.
  intros Hm Hk w. unfold bind. specialize (Hm w).
  destruct (m w) as [[a|e|] w']; cbn [snd] in *; [|exact Hm..].
  destruct (Hk a w') as [H1 H2]. rewrite H1, H2. exact Hm.
Qed.

Lemma quiet_try {A} (m : M A) (h : Error -> M A) :
  Spec.quiet m -> (forall e, Spec.quiet (h e)) -> Spec.quiet (try_catch m h).
Proof.
  intros Hm Hh w. unfold try_catch. specialize (Hm w).
  destruct (m w) as [[a|e|] w']; cbn [snd] in *; [exact Hm| |exact Hm].
  destruct (Hh e w') as [H1 H2]. rewrite H1, H2. exact Hm.
Qed.

Lemma quiet_ret {A} (a : A) : Spec.quiet (ret a).
Proof. intros w. split; reflexivity. Qed.

Lemma quiet_throw {A} (e : Error) : Spec.quiet (@throw world A e).
Proof. intros w. split; reflexivity. Qed.

Lemma quiet_clearTimeout (id : Z) : Spec.quiet (clearTimeout id).
Proof.
  intros w. unfold clearTimeout. cbn [snd log network].
  rewrite fetches_app. cbn. split; [lia | reflexivity].
Qed.

Lemma quiet_json (r : Response) : Spec.quiet (json r).
Proof. intros w. unfold json. destruct (r_body r); split; reflexivity. Qed.

Lemma fetch_once (path : string) (init : FetchInit) (w : world) :
  Spec.fetches (log (snd (fetch path init w))) = S (Spec.fetches (log w))
  /\ network (snd (fetch path init w)) = tl (network w).
Proof.
  unfold fetch.
  destruct (next_abort _ _) as [t|]; [destruct (fires_first _ _ _)|];
    try (destruct (settles_after _); [destruct (outcome _)|]);
    cbn [snd log network]; rewrite !fetches_app; cbn;
    (split; [lia | reflexivity]).
Qed.

Lemma try_fetch_once {A} (path : string) (init : FetchInit)
  (k : Response -> M A) (h : Error -> M A) (w : world) :
  (forall r, Spec.quiet (k r)) -> (forall e, Spec.quiet (h e)) ->
  Spec.fetches (log (snd (try_catch (bind (fetch path init) k) h w)))
  = S (Spec.fetches (log w))
  /\ network (snd (try_catch (bind (fetch path init) k) h w))
     = tl (network w).
Proof.
  intros Hk Hh. destruct (fetch_once path init w) as [F1 F2].
  unfold try_catch, bind.
  destruct (fetch path init w) as [[r|e|] w1]; cbn [snd] in *.
  - destruct (quiet_try (k r) h (Hk r) Hh w1) as [Q1 Q2].
    unfold try_catch in Q1, Q2.
    destruct (k r w1) as [[a|e|] w2]; cbn [snd] in *;
      rewrite Q1, Q2, F1, F2; split; reflexivity.
  - destruct (Hh e w1) as [Q1 Q2]. rewrite Q1, Q2, F1, F2. split; reflexivity.
  - rewrite F1, F2. split; reflexivity.
Qed.

Lemma request_one_fetch (path : string) (options : RequestInit) (w : world) :
  Spec.fetches (log (snd (request path options w))) = S (Spec.fetches (log w))
  /\ network (snd (request path options w)) = tl (network w).
Proof.
  unfold request.
  unfold bind at 1. unfold new_AbortController at 1.
  unfold bind at 1. unfold setTimeout_abort at 1.
  cbn [fresh_id now armed network log].
  set (w1 := mkWorld _ _ _ _ _).
  assert (H1 : Spec.fetches (log w1) = Spec.fetches (log w)
               /\ network w1 = network w).
  { unfold w1. cbn [log network]. rewrite fetches_app. cbn.
    split; [lia | reflexivity]. }
  destruct H1 as [H1 H2]. rewrite <- H1, <- H2.
  apply try_fetch_once.
  - intros r. apply quiet_bind; [apply quiet_clearTimeout|]. intros _.
    apply quiet_bind.
    + destruct (is_json r); [apply quiet_json | apply quiet_ret].
    + intros v. destruct (negb (ok r)); [apply quiet_throw | apply quiet_ret].
  - intros e. apply quiet_bind; [apply quiet_clearTimeout|]. intros _.
    destruct (String.eqb _ _); apply quiet_throw.
Qed.

Lemma failure_message_text (payload : value) (status : Z) :
  message_text (failure_message payload status)
  = Spec.error_message payload status.
Proof.
  unfold failure_message, Spec.error_message, or_else.
  destruct (ToBoolean (GetOpt payload "detail")) eqn:D; rewrite ?D.
  - reflexivity.
  - destruct (ToBoolean (GetOpt payload "error")); reflexivity.
Qed.

Lemma too_late_fires (b : fetch_behaviour) (start : Z) :
  Spec.too_late b -> fires_first (start + REQUEST_TIMEOUT_MS) b start = true.
Proof.
  unfold Spec.too_late, fires_first, REQUEST_TIMEOUT_MS.
  destruct (settles_after b) as [d|]; [|reflexivity].
  intros H. apply orb_true_iff. left. apply Z.ltb_lt. lia.
Qed.

Lemma in_time_settles (b : fetch_behaviour) (start d : Z) :
  settles_after b = Some d -> d < 30000 ->
  fires_first (start + REQUEST_TIMEOUT_MS) b start = false.
Proof.
  unfold fires_first, REQUEST_TIMEOUT_MS. intros -> H.
  apply orb_false_iff. split; [apply Z.ltb_ge; lia|].
  apply andb_false_iff. left. apply Z.eqb_neq. lia.
Qed.

(** On the strings held here, whose code units are below 256 and so are
    no surrogates, the encoding never throws. *)
Lemma Encode_units (keep : N -> bool) (s : string) :
  Encode keep (units s) = Ok (encode_with keep false s).
Proof.
  induction s as [|c s IH]; [reflexivity|].
  change (units (String c s)) with (Str.code c :: units s).
  cbn [Encode encode_with]. rewrite IH. cbn [rbind andb].
  pose proof (N_ascii_bounded c) as B. unfold Str.code.
  destruct (keep (N_of_ascii c)).
  - rewrite ascii_N_embedding. reflexivity.
  - replace (is_trail (N_of_ascii c)) with false
      by (symmetry; apply andb_false_iff; left; apply N.leb_gt; lia).
    replace (is_lead (N_of_ascii c)) with false
      by (symmetry; apply andb_false_iff; left; apply N.leb_gt; lia).
    reflexivity.
Qed.

Lemma encodeURIComponent_total (v : value) :
  encodeURIComponent v = Ok (encode_with uri_unreserved false (ToString v)).
Proof. apply Encode_units. Qed.

(** What an endpoint function hands to [request]: a path under [/api/],
    no headers, and either no method and no body, or the method POST or
    PUT; or, given [null] for its parameters, it throws a TypeError. *)
Lemma endpoint_cases (c : call) :
  (exists path options,
      endpoint c = Ok (path, options)
      /\ Str.startsWith "/api/" path = true
      /\ headers options = None
      /\ ((method options = None /\ body_text options = None)
          \/ method options = Some "POST" \/ method options = Some "PUT"))
  \/ (exists e, endpoint c = Throw e /\ name e = "TypeError").
Proof.
  destruct c; cbn [endpoint]; rewrite ?encodeURIComponent_total;
    unfold prop;
    try match goal with
        | |- context [rbind (if ?b then _ else _) _] => destruct b
        end;
    cbn [rbind];
    first [ left; eexists _, _; split; [reflexivity|];
            split; [reflexivity|]; split; [reflexivity|]; auto; fail
          | right; eexists; split; reflexivity ].
Qed.

Lemma api_of_endpoint (c : call) (w : world) :
  api c w = match endpoint c with
            | Ok (path, options) => request path options w
            | Throw e => (Thrown e, w)
            end.
Proof.
  unfold api, bind, lift. destruct (endpoint c) as [[path options]|e];
    reflexivity.
Qed.

(** Every endpoint function is one call of [request] (or, given [null]
    for its parameters, a TypeError before any request is made). *)
Lemma api_is_request (c : call) (w : world) :
  (exists path options, api c w = request path options w)
  \/ (exists e, api c w = (Thrown e, w) /\ name e = "TypeError").
Proof.
  rewrite api_of_endpoint.
  destruct (endpoint_cases c) as [(path & options & -> & _)|(e & -> & He)];
    eauto.
Qed.

(** C1 (as amended). Every endpoint function goes through [request], whose
    timeout is the fixed 30000 ms.  If the fetch has not settled when the
    30 seconds are over, the request is aborted and [request] throws an
    Error with the timeout message.  If the fetch settles in time with a
    response whose payload is decoded (the decoded JSON body, or [null]
    for a response that is not JSON), then [request] throws, for a non-ok
    response, an Error carrying the status and the payload, with the
    message taken from [payload.detail], else [payload.error], else
    [Request failed (<status>)]; and it returns the payload for an ok
    response. *)
Theorem request_contract :
  REQUEST_TIMEOUT_MS = 30000
  /\ (forall (c : call) (w : world),
        (exists path options, api c w = request path options w)
        \/ (exists e, api c w = (Thrown e, w) /\ name e = "TypeError"))
  /\ (forall (path : string) (options : RequestInit) (w : world)
             (b : fetch_behaviour) (rest : list fetch_behaviour),
        Spec.wf_world w -> network w = b :: rest ->
        (Spec.too_late b ->
         fst (request path options w) = Thrown (new_Error timeout_message))
        /\ (forall (r : Response) (payload : value),
              Spec.responds b r -> Spec.decoded r payload ->
              (ok r = false ->
               fst (request path options w)
               = Thrown (Spec.http_error r payload))
              /\ (ok r = true ->
                  fst (request path options w) = Returned payload))).
Proof.
  split; [reflexivity|]. split; [exact api_is_request|].
  intros path options w b rest Hwf Hnet.
  rewrite (request_result path options w Hwf).
  unfold Spec.request_completion. rewrite Hnet. cbn [hd].
  split.
  - intros Hlate. rewrite (too_late_fires b (now w) Hlate). reflexivity.
  - intros r payload (d & Hd & Hrange & Hout) Hdec.
    rewrite (in_time_settles b (now w) d Hd) by lia.
    rewrite Hd, Hout. unfold Spec.finish, Spec.http_error.
    destruct Hdec as [[Hj Hb]|[Hj ->]]; rewrite Hj; [rewrite Hb|];
      rewrite failure_message_text; split; intros ->; reflexivity.
Qed.

Lemma request_contract_witness :
  let r := mkResponse 404 (Some "application/json")
             (BodyJson (VObj [("detail", VStr "Match not found")])) in
  let w := mkWorld 0 [] 0 [mkBehaviour (Some 120) (Resolves r) false] [] in
  fst (api (getMatch (VNum (of_Z 7))) w)
  = Thrown (mkError "Error" "Match not found" (VNum (of_Z 404))
              (VObj [("detail", VStr "Match not found")])).
Proof.
  intros r w.
  destruct request_contract as (_ & _ & H).
  destruct (H "/api/matches/7" no_options w
              (mkBehaviour (Some 120) (Resolves r) false) []) as [_ H2].
  - constructor.
  - reflexivity.
  - destruct (H2 r (VObj [("detail", VStr "Match not found")])) as [H3 _].
    + exists 120. split; [reflexivity|]. split; [lia | reflexivity].
    + left. split; reflexivity.
    + exact (H3 eq_refl).
Defined.

(** C1, counterexample to the claim as worded: a 502 response that
    announces JSON and carries a body that does not decode.  [request]
    rethrows the decoding error, which has no status. *)
Lemma http_error_without_status : ~ Spec.every_http_error_has_status.
Proof.
  intros H.
  pose (r := mkResponse 502 (Some "application/json")
               (BodyFails (mkError "SyntaxError" "Unexpected end of JSON input"
                             VUndefined VUndefined))).
  pose (b := mkBehaviour (Some 10) (Resolves r) false).
  destruct (H "/api/config" no_options (mkWorld 0 [] 0 [b] []) b [] r)
    as (e & He & Hs).
  - constructor.
  - reflexivity.
  - exists 10. split; [reflexivity|]. split; [lia | reflexivity].
  - reflexivity.
  - vm_compute in He. injection He as <-. discriminate Hs.
Qed.

(** C2 (as amended). Each invocation of [request] performs exactly one
    fetch call, whatever happens.  The timeout, a network error (itself,
    unless it is an abort) and an error while decoding the body are
    thrown to the caller; so is a non-ok status, unless the response
    announces JSON and its body never arrives.  A value is returned only
    for an ok response, and it is then the payload of that response; no
    error is replaced by a value.  The request stays pending in one case
    only: the response came in time, announces JSON, and its body never
    arrives (the timer is cleared before the body is read). *)
Theorem request_single_fetch (path : string) (options : RequestInit)
  (w : world) :
  Spec.wf_world w ->
  let b := hd never (network w) in
  let res := fst (request path options w) in
  let w' := snd (request path options w) in
  Spec.fetches (log w') = S (Spec.fetches (log w))
  /\ network w' = tl (network w)
  /\ (Spec.too_late b -> res = Thrown (new_Error timeout_message))
  /\ (forall d e, settles_after b = Some d -> d < 30000 ->
                  outcome b = Rejects e -> res = Spec.rethrown e)
  /\ (forall r, Spec.responds b r -> ok r = false ->
                ~ Spec.body_stalls r -> exists e, res = Thrown e)
  /\ (forall r e, Spec.responds b r -> is_json r = true ->
                  r_body r = BodyFails e -> res = Spec.rethrown e)
  /\ (forall v, res = Returned v ->
                exists r, outcome b = Resolves r /\ ok r = true
                          /\ Spec.decoded r v)
  /\ (forall r, Spec.responds b r -> Spec.body_stalls r -> res = Pending)
  /\ (res = Pending ->
      exists r, outcome b = Resolves r /\ Spec.body_stalls r).
Proof.
  intros Hwf b res w'.
  destruct (request_one_fetch path options w) as [F1 F2].
  split; [exact F1|]. split; [exact F2|].
  unfold res. rewrite (request_result path options w Hwf).
  unfold Spec.request_completion. fold b.
  split; [|split; [|split; [|split; [|split; [|split]]]]].
  - intros Hlate. rewrite (too_late_fires b (now w) Hlate). reflexivity.
  - intros d e Hd Hlt Hout.
    rewrite (in_time_settles b (now w) d Hd Hlt), Hd, Hout. reflexivity.
  - intros r (d & Hd & Hrange & Hout) Hok Hbody.
    rewrite (in_time_settles b (now w) d Hd) by lia.
    rewrite Hd, Hout. unfold Spec.finish, Spec.rethrown. rewrite Hok.
    unfold Spec.body_stalls in Hbody.
    destruct (is_json r); [|eauto].
    destruct (r_body r) as [v|e|]; [eauto| |].
    + destruct (String.eqb _ _); eauto.
    + destruct Hbody. split; reflexivity.
  - intros r e (d & Hd & Hrange & Hout) Hj Hb.
    rewrite (in_time_settles b (now w) d Hd) by lia.
    rewrite Hd, Hout, Hj, Hb. reflexivity.
  - intros v. destruct (fires_first _ _ _); [discriminate|].
    destruct (settles_after b) as [d|]; [|discriminate].
    destruct (outcome b) as [r|e].
    + unfold Spec.finish, Spec.rethrown, Spec.decoded.
      destruct (is_json r) eqn:Hj.
      * destruct (r_body r) as [v'|e|] eqn:Hb.
        -- destruct (ok r) eqn:Hok; [|discriminate].
           intros [= ->]. exists r. auto.
        -- destruct (String.eqb _ _); discriminate.
        -- discriminate.
      * destruct (ok r) eqn:Hok; [|discriminate].
        intros [= <-]. exists r. auto.
    + unfold Spec.rethrown. destruct (String.eqb _ _); discriminate.
  - intros r (d & Hd & Hrange & Hout) [Hj Hb].
    rewrite (in_time_settles b (now w) d Hd) by lia.
    rewrite Hd, Hout, Hj, Hb. reflexivity.
  - unfold fires_first.
    destruct (settles_after b) as [d|]; [|discriminate].
    destruct (_ || _); [discriminate|].
    destruct (outcome b) as [r|e].
    + unfold Spec.finish, Spec.rethrown, Spec.body_stalls.
      destruct (is_json r) eqn:Hj; [destruct (r_body r) as [v|e|] eqn:Hb|].
      * destruct (ok r); discriminate.
      * destruct (String.eqb _ _); discriminate.
      * intros _. exists r. repeat split; assumption.
      * destruct (ok r); discriminate.
    + unfold Spec.rethrown. destruct (String.eqb _ _); discriminate.
Qed.

Lemma request_single_fetch_witness :
  let w := mkWorld 0 [] 0
             [mkBehaviour (Some 5)
                (Rejects (TypeError "Failed to fetch")) false;
              mkBehaviour (Some 5)
                (Resolves (mkResponse 200 None (BodyJson VNull))) false] [] in
  Spec.fetches (log (snd (request "/api/maps" no_options w))) = 1%nat
  /\ fst (request "/api/maps" no_options w)
     = Thrown (TypeError "Failed to fetch").
Proof.
  intros w.
  destruct (request_single_fetch "/api/maps" no_options w)
    as (H1 & _ & _ & H4 & _).
  - constructor.
  - split; [exact H1|].
    exact (H4 5 (TypeError "Failed to fetch") eq_refl ltac:(lia) eq_refl).
Defined.

(** C2, counterexample to the claim as worded: a 500 response that
    announces JSON and whose body never arrives.  [request] has cleared
    its timer when it starts to read the body, so nothing ends the wait:
    the failure is not thrown, the request stays pending. *)
Lemma stalled_body_is_not_thrown : ~ Spec.every_failure_is_thrown.
Proof.
  intros H.
  pose (r := mkResponse 500 (Some "application/json") BodyStalls).
  pose (b := mkBehaviour (Some 10) (Resolves r) false).
  destruct (H "/api/config" no_options (mkWorld 0 [] 0 [b] []) b [])
    as (e & He).
  - constructor.
  - reflexivity.
  - apply (Spec.bad_status b r); [|reflexivity].
    exists 10. split; [reflexivity|]. split; [lia | reflexivity].
  - vm_compute in He. discriminate He.
Qed.

End ClientFacts.

(** ** pages/Dashboard *)

Module DashboardFacts.

Import Num JS Async Client Dashboard.

Lemma next_abort_some (c : Z) (ts : list timer) (t : timer) :
  t_controller t = c -> exists u, next_abort c (ts ++ [t]) = Some u.
Proof.
  intros Ht. induction ts as [|u ts [v IH]]; simpl.
  - rewrite Ht, Z.eqb_refl. eauto.
  - rewrite IH. destruct (t_controller u =? c); [|eauto].
    destruct (t_deadline v <? t_deadline u); eauto.
Qed.

(** A request settles unless the body of its response never arrives: its
    own timer ends a fetch that would not settle, but it is cleared before
    the body is read. *)
Lemma request_pending (path : string) (options : RequestInit) (w : world) :
  fst (request path options w) = Pending -> Spec.body_never_arrives w.
Proof.
  unfold request.
  unfold bind at 1. unfold new_AbortController at 1.
  unfold bind at 1. unfold setTimeout_abort at 1.
  cbn [fresh_id now armed network log].
  unfold try_catch. unfold bind at 1. unfold fetch at 1.
  cbn [fresh_id now armed network log f_signal].
  destruct (next_abort_some (fresh_id w) (armed w)
              (mkTimer (fresh_id w + 1) (now w + REQUEST_TIMEOUT_MS)
                 (fresh_id w)) eq_refl) as [u ->].
  unfold fires_first, Spec.body_never_arrives, Spec.body_stalls.
  destruct (settles_after _) as [d|].
  - destruct (_ || _).
    + unfold bind, clearTimeout, throw. cbn. discriminate.
    + destruct (outcome _) as [r|e].
      * unfold bind, clearTimeout, json, ret, throw.
        destruct (is_json r) eqn:Hj;
          [destruct (r_body r) as [v|e|] eqn:Hb|].
        -- destruct (ok r); cbn; discriminate.
        -- destruct (String.eqb _ _); cbn; discriminate.
        -- intros _. exists r. repeat split; assumption.
        -- destruct (ok r); cbn; discriminate.
      * unfold bind, clearTimeout, throw.
        destruct (String.eqb _ _); cbn; discriminate.
  - unfold bind, clearTimeout, throw. cbn. discriminate.
Qed.

Lemma promise_of_pending (c : call) (w : world) :
  promise_of c w = NeverSettles -> Spec.body_never_arrives w.
Proof.
  unfold promise_of.
  destruct (ClientFacts.api_is_request c w) as [(p & o & E)|(e & E & _)];
    rewrite E.
  - pose proof (request_pending p o w) as H.
    destruct (request p o w) as [[v|e|] w']; [discriminate..|].
    intros _. apply H. reflexivity.
  - discriminate.
Qed.

Lemma first_failure_none (ps : list (promise value)) :
  first_failure ps = None <-> forall t e, Fails t e ∉ ps.
Proof.
  induction ps as [|p ps IH]; cbn [first_failure].
  - split; [|reflexivity]. intros _ t e H. by apply elem_of_nil in H.
  - destruct p as [t v|t e|].
    + rewrite IH. split; intros H t' e' Hin.
      * apply elem_of_cons in Hin as [Hin|Hin]; [discriminate|].
        exact (H _ _ Hin).
      * apply (H t' e'), list_elem_of_further, Hin.
    + split.
      * destruct (first_failure ps) as [[t' e']|]; [destruct (t' <? t)|];
          discriminate.
      * intros H. destruct (H t e). apply list_elem_of_here.
    + rewrite IH. split; intros H t' e' Hin.
      * apply elem_of_cons in Hin as [Hin|Hin]; [discriminate|].
        exact (H _ _ Hin).
      * apply (H t' e'), list_elem_of_further, Hin.
Qed.

Lemma all_fulfilled_none (ps : list (promise value)) :
  first_failure ps = None ->
  all_fulfilled ps = None <-> NeverSettles ∈ ps.
Proof.
  induction ps as [|p ps IH]; cbn [first_failure all_fulfilled].
  - intros _. split; [discriminate|]. intros H. by apply elem_of_nil in H.
  - destruct p as [t v|t e|].
    + intros F. specialize (IH F). split.
      * destruct (all_fulfilled ps) as [[t' vs]|]; [discriminate|].
        intros _. apply list_elem_of_further, IH. reflexivity.
      * intros Hin. apply elem_of_cons in Hin as [Hin|Hin]; [discriminate|].
        apply IH in Hin. rewrite Hin. reflexivity.
    + destruct (first_failure ps) as [[t' e']|]; [destruct (t' <? t)|];
        discriminate.
    + intros _. split; [|reflexivity]. intros _. apply list_elem_of_here.
Qed.

(** [Promise.all] never settles exactly when no promise rejects and one
    of them never settles. *)
Lemma Promise_all_never (ps : list (promise value)) :
  Promise_all ps = NeverSettles
  <-> NeverSettles ∈ ps /\ forall t e, Fails t e ∉ ps.
Proof.
  unfold Promise_all. rewrite <- first_failure_none.
  destruct (first_failure ps) as [[t e]|] eqn:F.
  - split; [discriminate|]. intros [_ H]. discriminate H.
  - rewrite <- (all_fulfilled_none ps F).
    destruct (all_fulfilled ps) as [[t vs]|].
    + split; [discriminate|]. intros [H _]. discriminate H.
    + split; auto.
Qed.

Lemma list_of_items (res : value) : list_of res = Spec.items_or_empty res.
Proof.
  destruct res as [| |b|n|s|xs|ps]; try reflexivity.
  unfold list_of, GetOpt, coalesce. cbn [isArray is_nullish Get].
  unfold Spec.items_or_empty.
  destruct (assoc "items" ps); reflexivity.
Qed.

Lemma shown_message_nonempty (e : Error) :
  Spec.shown_message e <> EmptyString.
Proof.
  unfold Spec.shown_message.
  destruct (String.eqb_spec (message e) EmptyString); [discriminate | assumption].
Qed.

Lemma not_both (ps : list (promise value)) (st' : state) :
  ~ (Spec.loaded_all ps st' /\ Spec.load_failed ps st').
Proof.
  intros [(t1 & v1 & t2 & v2 & t3 & v3 & -> & _) (t & e & Hin & _)].
  repeat (apply elem_of_cons in Hin as [Hin|Hin]; [discriminate|]).
  by apply elem_of_nil in Hin.
Qed.

Lemma failed_state (ps : list (promise value)) (t : Z) (e : Error)
  (st : state) :
  Fails t e ∈ ps ->
  Spec.load_failed ps (onFinally (onRejected e (loadData_started st))).
Proof.
  intros Hin. exists t, e. split; [exact Hin|].
  split; [reflexivity|].
  split; [apply shown_message_nonempty|].
  split; reflexivity.
Qed.

(** C7. [loadData] starts the three requests: the events of the year, the
    configuration, and the matches of the filters.  When its run
    completes, exactly one of two outcomes holds: either all three
    requests succeeded and the events, the config and the matches are set
    from the three responses (a bare array, or the [items] of an object,
    or else the empty list); or a request failed, the error message is
    set and both the events and the matches are the empty list.  In both,
    the loading flag ends up false.  The run completes when the body of
    each of the three responses arrives; it does not exactly when no
    request fails and one of them never settles. *)
Theorem loadData_outcomes (f : filters) (w1 w2 w3 : world) (st : state) :
  let ps := [promise_of (getEvents (VObj [("fromYear", fromYear f)])) w1;
             promise_of getConfig w2;
             promise_of (getMatches (params f)) w3] in
  let run := loadData f (w1, w2, w3) st in
  (forall st' : state,
      run = Some st' ->
      loading st' = false
      /\ (Spec.loaded_all ps st' \/ Spec.load_failed ps st')
      /\ ~ (Spec.loaded_all ps st' /\ Spec.load_failed ps st'))
  /\ (~ Spec.body_never_arrives w1 -> ~ Spec.body_never_arrives w2 ->
      ~ Spec.body_never_arrives w3 -> exists st' : state, run = Some st')
  /\ (run = None <-> NeverSettles ∈ ps /\ forall t e, Fails t e ∉ ps).
Proof.
  intros ps run.
  assert (N : run = None <-> NeverSettles ∈ ps /\ forall t e, Fails t e ∉ ps).
  { rewrite <- Promise_all_never. subst run. unfold loadData, requests.
    fold ps. destruct (Promise_all ps); cbn [then_catch_finally];
      split; discriminate || reflexivity. }
  split; [|split; [|exact N]].
  - subst run ps. unfold loadData, requests.
    destruct (promise_of (getEvents _) w1) as [t1 v1|t1 e1|];
    destruct (promise_of getConfig w2) as [t2 v2|t2 e2|];
    destruct (promise_of (getMatches _) w3) as [t3 v3|t3 e3|];
      unfold Promise_all; cbn [first_failure all_fulfilled];
      repeat (match goal with
              | |- context [if ?c then _ else _] => destruct c
              end);
      cbn [then_catch_finally];
      intros st' E; try discriminate E; injection E as <-;
      (split; [reflexivity|]; split; [|apply not_both]).
    1: { left. exists t1, v1, t2, v2, t3, v3. split; [reflexivity|].
         unfold onFinally, onFulfilled. cbn.
         rewrite !list_of_items. repeat split. }
    all: right; eapply failed_state;
      repeat (first [apply list_elem_of_here | apply list_elem_of_further]).
  - intros S1 S2 S3. destruct run as [st'|] eqn:E; [eauto|].
    exfalso. destruct N as [[Hin _] _]; [reflexivity|].
    subst ps.
    apply elem_of_cons in Hin as [Hin|Hin];
      [symmetry in Hin; exact (S1 (promise_of_pending _ _ Hin))|].
    apply elem_of_cons in Hin as [Hin|Hin];
      [symmetry in Hin; exact (S2 (promise_of_pending _ _ Hin))|].
    apply elem_of_cons in Hin as [Hin|Hin];
      [symmetry in Hin; exact (S3 (promise_of_pending _ _ Hin))|].
    by apply elem_of_nil in Hin.
Qed.

End DashboardFacts.

(** ** components/AnalysisPanel *)

Module AnalysisPanelFacts.

Import Num JS JSX AnalysisPanel.

Lemma pct_percent (v : value) : pct v = Spec.percent v.
Proof.
  unfold pct, Spec.percent, or_else.
  destruct (ToBoolean v); reflexivity.
Qed.

Lemma row_shows_fields (edge : value) (idx : nat) :
  is_nullish edge = false ->
  exists r, row edge idx = Ok r /\ Spec.row_shows edge r.
Proof.
  intros H. unfold row, prop. rewrite H. cbn [rbind].
  eexists. split; [reflexivity|].
  unfold Spec.row_shows, cell. cbn [children_of nth td].
  rewrite !pct_percent. repeat split; reflexivity.
Qed.

Lemma rows_show_fields (es : list value) (i : nat) :
  Forall (fun e => is_nullish e = false) es ->
  exists rs, rows_from i es = Ok rs /\ Forall2 Spec.row_shows es rs.
Proof.
  intros H. revert i. induction H as [|e es He _ IH]; intros i.
  - exists []. split; [reflexivity | constructor].
  - destruct (row_shows_fields e i He) as (r & Er & Hr).
    destruct (IH (S i)) as (rs & Ers & Hrs).
    exists (r :: rs). cbn [rows_from]. rewrite Er. cbn [rbind].
    rewrite Ers. cbn [rbind]. split; [reflexivity | constructor; assumption].
Qed.

(** C8. The edges table displays what the backend sent: for an analysis
    payload whose [single_edges] is an array of entries, the panel renders
    one row per entry, and the odds, implied probability, model probability
    and edge cells of the row hold the corresponding fields of the entry
    after a fixed display transformation: the odds with 2 decimal places,
    the others multiplied by 100, with 1 decimal place and a percent sign,
    a missing or [null] value being displayed as 0.0%. *)
Theorem edges_table_shows_payload (analysis : value) (es : list value) :
  edges_of analysis = VArr es ->
  Forall (fun e => is_nullish e = false) es ->
  (exists panel,
     AnalysisPanel analysis = Ok panel
     /\ Forall2 Spec.row_shows es (body_rows panel))
  /\ Spec.percent VNull = "0.0%"
  /\ Spec.percent VUndefined = "0.0%"
  /\ (forall v, ToBoolean v = true ->
       exists s, Spec.percent v = s +:+ "%" /\ Spec.times_100_rounded 1 v s).
Proof.
  intros He Hes. split; [|split; [reflexivity|split; [reflexivity|]]].
  - destruct (rows_show_fields es 0 Hes) as (rs & Ers & Hrs).
    unfold AnalysisPanel. rewrite He, Ers. cbn [rbind].
    eexists. split; [reflexivity|]. exact Hrs.
  - intros v Hv. unfold Spec.percent. rewrite Hv.
    eexists. split; [reflexivity|]. apply ChartFacts.toFixed_times_100.
Qed.

Lemma edges_table_shows_payload_witness :
  let edge := VObj [("market", VStr "map_winner"); ("odds", VNum (ofString "1.853"));
                    ("p_impl", VNum (ofString "0.5397")); ("p_model", VNull);
                    ("edge", VNum (ofString "-0.0345"))] in
  exists panel,
    AnalysisPanel (VObj [("single_edges", VArr [edge])]) = Ok panel
    /\ Forall2 Spec.row_shows [edge] (body_rows panel).
Proof.
  intros edge.
  apply (edges_table_shows_payload (VObj [("single_edges", VArr [edge])])
           [edge]).
  - reflexivity.
  - repeat constructor.
Defined.

End AnalysisPanelFacts.

(** ** components/ComparisonPanel *)

Module ComparisonPanelFacts.

Import Num JS ComparisonPanel.

(** The win probability of team B is computed by the client: when the row
    has a [p_team_a_win], it is 1 minus that field as a Number. *)
Lemma team_b_probability (row : value) :
  is_nullish (Get row "p_team_a_win") = false ->
  pB (pA row) = VNum (sub (of_Z 1) (ToNumber (Get row "p_team_a_win"))).
Proof. intros H. unfold pA, pB. rewrite H. reflexivity. Qed.

(** C8, counterexample to the claim as worded: a row of
    [comparison.all_maps] with a [p_team_a_win] of 0.6.  The panel shows
    60.0% for team A and 40.0% for team B, and the latter is no field of
    the row: the client computed it. *)
Lemma team_b_probability_is_computed : ~ Spec.displays_payload_only.
Proof.
  intros H.
  pose (row := VObj [("map_name", VStr "Ascent");
                     ("p_team_a_win", Spec.num "0.6")]).
  destruct (H row (Some "60.0%") (Some "40.0%")) as [_ [k Hk]].
  - vm_compute. reflexivity.
  - unfold row in Hk. cbn [Get assoc] in Hk.
    destruct (String.eqb_spec "map_name" k) as [E|_];
      [vm_compute in Hk; discriminate Hk|].
    destruct (String.eqb_spec "p_team_a_win" k) as [E|_];
      [vm_compute in Hk; discriminate Hk|].
    vm_compute in Hk. discriminate Hk.
Qed.

End ComparisonPanelFacts.

(** ** components/StatsResult *)

Module StatsResultFacts.

Import Num JS JSX StatsResult.

Lemma startsWith_length (p s : string) :
  Str.startsWith p s = true -> (String.length p <= String.length s)%nat.
Proof.
  revert s. induction p as [|a p IH]; intros [|b s]; simpl; try lia;
    try discriminate.
  intros H. apply andb_true_iff in H as [_ H]. apply IH in H. lia.
Qed.

Lemma find_bound (sub s : string) (i : nat) :
  Str.find sub s = Some i -> (i + String.length sub <= String.length s)%nat.
Proof.
  revert i. induction s as [|b s IH]; intros i; simpl.
  - destruct (Str.startsWith sub EmptyString) eqn:E; [|discriminate].
    intros [= <-]. apply startsWith_length in E. simpl in *. lia.
  - destruct (Str.startsWith sub (String b s)) eqn:E.
    + intros [= <-]. apply startsWith_length in E. simpl in *. lia.
    + destruct (Str.find sub s) as [j|]; [|discriminate].
      intros [= <-]. specialize (IH j eq_refl). lia.
Qed.

Lemma drop_length (n : nat) (s : string) :
  String.length (Str.drop n s) = (String.length s - n)%nat.
Proof.
  revert s. induction n as [|n IH]; intros [|a s]; simpl; try lia. apply IH.
Qed.

Lemma take_length (n : nat) (s : string) :
  String.length (Str.take n s) = Nat.min n (String.length s).
Proof.
  revert s. induction n as [|n IH]; intros [|a s]; simpl; try lia.
  rewrite IH. reflexivity.
Qed.

Lemma indexOf_bound (s sub : string) (from i : Z) :
  Str.indexOf s sub from = i -> i <> -1 ->
  0 <= i /\ i + Str.len sub <= Str.len s.
Proof.
  unfold Str.indexOf, Str.len.
  set (start := Z.to_nat _).
  destruct (Str.find sub (Str.drop start s)) as [j|] eqn:E; [|congruence].
  intros <- _. apply find_bound in E. rewrite drop_length in E. lia.
Qed.

Lemma slice_tail_length (s : string) (k : Z) :
  0 <= k <= Str.len s ->
  Str.len (Str.slice s k None) = Str.len s - k.
Proof.
  intros H. unfold Str.slice, Str.clamp, Str.len in *.
  destruct (Z.ltb_spec k 0); [lia|].
  rewrite Z.min_l by lia.
  destruct (Z.leb_spec (Z.of_nat (String.length s)) k).
  - simpl. lia.
  - rewrite take_length, drop_length. lia.
Qed.

Lemma indexOf_from (s sub : string) (from i : Z) :
  Str.indexOf s sub from = i -> i <> -1 -> 0 <= from <= Str.len s ->
  from <= i.
Proof.
  unfold Str.indexOf, Str.len. intros H Hi Hf.
  rewrite (Z.max_l from 0), (Z.min_l from) in H by lia.
  destruct (Str.find sub _) as [j|]; [|congruence]. lia.
Qed.

Lemma loop_body_shrinks (s : loop_state) :
  match loop_body s with
  | Continue s' =>
      (String.length (remaining s') + 4 <= String.length (remaining s))%nat
  | Exit s' => s' = s
  end.
Proof.
  unfold loop_body.
  destruct (Str.includes (remaining s) "**") eqn:Hinc; [|reflexivity].
  cbn [negb].
  set (i1 := Str.indexOf (remaining s) "**" 0).
  set (i2 := Str.indexOf (remaining s) "**" (i1 + 2)).
  destruct (Z.eqb_spec i2 (-1)) as [E|E]; [reflexivity|].
  cbn [remaining].
  assert (N1 : i1 <> -1).
  { unfold Str.includes in Hinc. fold i1 in Hinc.
    destruct (Z.eqb_spec i1 (-1)); [discriminate | assumption]. }
  assert (H1 : 0 <= i1 /\ i1 + 2 <= Str.len (remaining s)).
  { apply (indexOf_bound (remaining s) "**" 0 i1); [reflexivity | exact N1]. }
  assert (H2 : 0 <= i2 /\ i2 + 2 <= Str.len (remaining s)).
  { apply (indexOf_bound (remaining s) "**" (i1 + 2) i2);
      [reflexivity | exact E]. }
  assert (H3 : i1 + 2 <= i2).
  { apply (indexOf_from (remaining s) "**" (i1 + 2) i2);
      [reflexivity | exact E | lia]. }
  pose proof (slice_tail_length (remaining s) (i2 + 2) ltac:(lia)) as L.
  unfold Str.len in *. lia.
Qed.

Lemma run_loop_enough (n : nat) (s : loop_state) :
  (String.length (remaining s) < n)%nat ->
  exists s', forall fuel, (n <= fuel)%nat -> run_loop fuel s = Some s'.
Proof.
  revert s. induction n as [|n IH]; intros s Hn; [lia|].
  pose proof (loop_body_shrinks s) as Hs.
  destruct (loop_body s) as [s1|s1] eqn:E.
  - destruct (IH s1 ltac:(lia)) as (s' & Hs').
    exists s'. intros [|fuel] Hf; [lia|]. cbn [run_loop]. rewrite E.
    apply Hs'. lia.
  - exists s1. intros [|fuel] Hf; [lia|]. cbn [run_loop]. rewrite E.
    reflexivity.
Qed.

Lemma rev_app_length (s1 s2 : string) :
  String.length (String.rev_app s1 s2)
  = (String.length s1 + String.length s2)%nat.
Proof.
  revert s2. induction s1 as [|a s1 IH]; intros s2; simpl; [reflexivity|].
  rewrite IH. simpl. lia.
Qed.

Lemma split_go_lines (c : ascii) (cur s : string) :
  Forall (fun line => (String.length line
                       <= String.length cur + String.length s)%nat)
    (Str.split_go c cur s).
Proof.
  revert cur. induction s as [|a s IH]; intros cur; cbn [Str.split_go].
  - constructor; [|constructor]. unfold String.rev.
    rewrite rev_app_length. simpl. lia.
  - destruct (Ascii.eqb a c).
    + constructor.
      * unfold String.rev. rewrite rev_app_length. simpl. lia.
      * eapply Forall_impl; [apply IH|]. simpl. intros. lia.
    + eapply Forall_impl; [apply IH|]. simpl. intros. lia.
Qed.

Lemma split_go_count (c : ascii) (cur s : string) :
  length (Str.split_go c cur s) = S (Spec.occurrences c s).
Proof.
  revert cur. induction s as [|a s IH]; intros cur; cbn [Str.split_go Spec.occurrences].
  - reflexivity.
  - destruct (Ascii.eqb a c); cbn [length]; rewrite IH; reflexivity.
Qed.

Lemma slice_short (s : string) (k : Z) :
  (String.length (Str.slice s k None) <= String.length s)%nat.
Proof.
  unfold Str.slice. destruct (_ <=? _); [simpl; lia|].
  rewrite take_length, drop_length. lia.
Qed.

Lemma renderLine_enough (n : nat) (line : string) (i : nat) :
  (String.length line < n)%nat ->
  exists x, forall fuel, (n <= fuel)%nat -> renderLine fuel line i = Some x.
Proof.
  intros Hn. unfold renderLine.
  destruct (Str.startsWith "### " line); [eauto|].
  destruct (Str.startsWith "## " line); [eauto|].
  destruct (Str.startsWith "- " line); [|destruct (String.eqb _ _); eauto].
  destruct (run_loop_enough n (mkLoop [] (Str.slice line 2 None))) as (s' & Hs').
  { cbn [remaining]. pose proof (slice_short line 2). lia. }
  eexists. intros fuel Hf. rewrite (Hs' fuel Hf). reflexivity.
Qed.

Lemma render_from_enough (n : nat) (lines : list string) (i : nat) :
  Forall (fun line => (String.length line < n)%nat) lines ->
  exists out, length out = length lines
              /\ forall fuel, (n <= fuel)%nat ->
                              render_from fuel i lines = Some out.
Proof.
  intros H. revert i. induction H as [|line lines Hl _ IH]; intros i.
  - exists []. split; [reflexivity|]. reflexivity.
  - destruct (renderLine_enough n line i Hl) as (x & Hx).
    destruct (IH (S i)) as (out & Hlen & Hout).
    exists (x :: out). split; [simpl; lia|].
    intros fuel Hf. cbn [render_from]. rewrite (Hx fuel Hf), (Hout fuel Hf).
    reflexivity.
Qed.

(** C10. [renderMarkdownLines] terminates on every input string and gives
    one element per line.  Each round of the bold-parsing loop either ends
    the loop, or found a pair of markers and goes on with a remaining string
    that is strictly shorter (by 4 characters at least); it ends the loop as
    soon as there is no closing marker.  So the loop cannot run forever:
    more rounds than the input has characters are never needed, whatever the
    input. *)
Theorem renderMarkdownLines_terminates (md : string) :
  (forall s : loop_state,
     match loop_body s with
     | Continue s' =>
         (String.length (remaining s') < String.length (remaining s))%nat
     | Exit s' => s' = s
     end)
  /\ (forall s : loop_state,
        Str.indexOf (remaining s) "**"
          (Str.indexOf (remaining s) "**" 0 + 2) = -1 ->
        loop_body s = Exit s)
  /\ (exists out : list node,
        (forall fuel, (String.length md < fuel)%nat ->
                      renderMarkdownLines fuel md = Some out)
        /\ length out = length (Str.split newline md)
        /\ length out = S (Spec.occurrences newline md)).
Proof.
  split; [|split].
  - intros s. pose proof (loop_body_shrinks s) as H.
    destruct (loop_body s); [lia | exact H].
  - intros s H. unfold loop_body. rewrite H.
    destruct (negb _); reflexivity.
  - destruct (render_from_enough (S (String.length md))
                (Str.split newline md) 0) as (out & Hlen & Hout).
    { eapply Forall_impl; [apply split_go_lines|]. simpl. intros. lia. }
    exists out. split; [|split].
    + intros fuel Hf. apply Hout. lia.
    + exact Hlen.
    + rewrite Hlen. apply split_go_count.
Qed.

End StatsResultFacts.

(** ** components/OddsForm *)

Module OddsFormFacts.

Import Num JS Async OddsForm.

Lemma compare_cont_opp (p q : positive) (c : comparison) :
  Pos.compare_cont (CompOpp c) q p = CompOpp (Pos.compare_cont c p q).
Proof. symmetry. apply Pos.compare_cont_antisym. Qed.

(** Among numbers other than NaN, [x <= y] fails exactly when [x > y]. *)
Lemma not_le_gt (x y : number) :
  isNaN x = false -> isNaN y = false -> le x y = false -> gt x y = true.
Proof.
  unfold le, gt, SFleb, SFltb.
  destruct x as [sx|sx| |sx mx ex], y as [sy|sy| |sy my ey];
    try discriminate; intros _ _; cbn [SFcompare];
    try (destruct sx); try (destruct sy); try discriminate; try reflexivity.
  - rewrite (Z.compare_antisym ex ey).
    destruct (ex ?= ey)%Z; cbn [CompOpp]; try discriminate; try reflexivity.
    replace (Pos.compare_cont Eq my mx)
      with (CompOpp (Pos.compare_cont Eq mx my))
      by apply Pos.compare_cont_antisym.
    destruct (Pos.compare_cont Eq mx my); cbn; try discriminate; reflexivity.
  - rewrite (Z.compare_antisym ex ey).
    destruct (ex ?= ey)%Z; cbn [CompOpp]; try discriminate; try reflexivity.
    replace (Pos.compare_cont Eq my mx)
      with (CompOpp (Pos.compare_cont Eq mx my))
      by apply Pos.compare_cont_antisym.
    destruct (Pos.compare_cont Eq mx my); cbn; try discriminate; reflexivity.
Qed.

Lemma parseLine_entry (line : string) (e : value) :
  parseLine line = Some e -> Spec.finite_odds_above_one e.
Proof.
  unfold parseLine.
  destruct (_ <? 4)%nat; [discriminate|].
  set (odds := ofString _).
  destruct (isFinite odds) eqn:F; [|discriminate]. cbn [negb orb].
  destruct (le odds (of_Z 1)) eqn:L; [discriminate|].
  intros [= <-]. exists odds. split; [reflexivity|]. split; [exact F|].
  apply not_le_gt; [|reflexivity|exact L].
  destruct odds; try reflexivity; discriminate.
Qed.

Lemma parseBatch_entries (batchText : string) :
  Forall Spec.finite_odds_above_one (parseBatch batchText).
Proof.
  unfold parseBatch. apply Forall_forall. intros e He.
  apply list_elem_of_omap in He as (line & _ & Hl).
  exact (parseLine_entry line e Hl).
Qed.

Lemma parseLine_drops (line : string) :
  let tokens := Str.split_spaces line in
  let odds := ofString (nth (length tokens - 1) tokens EmptyString) in
  (length tokens < 4)%nat \/ isFinite odds = false \/ le odds (of_Z 1) = true ->
  parseLine line = None.
Proof.
  intros tokens odds H. unfold parseLine. fold tokens. fold odds.
  destruct (Nat.ltb_spec (length tokens) 4); [reflexivity|].
  destruct H as [H|[H|H]]; [lia| |]; rewrite H; [reflexivity|].
  rewrite orb_true_r. reflexivity.
Qed.

Lemma push_if_above (x : number) (ent e : value) :
  e ∈ push_if x ent -> e = ent /\ gt x (of_Z 1) = true.
Proof.
  unfold push_if. destruct (gt x (of_Z 1)); intros H.
  - apply list_elem_of_singleton in H. auto.
  - by apply elem_of_nil in H.
Qed.

Lemma match_winner_above (values teamA teamB : value) (book : string) :
  Forall Spec.odds_above_one (match_winner_entries values teamA teamB book).
Proof.
  apply Forall_forall. intros e He. unfold match_winner_entries in He.
  repeat (apply elem_of_app in He as [He|He]);
    apply push_if_above in He as [-> Hg]; eexists; split;
    first [reflexivity | exact Hg].
Qed.

Lemma map_entries_above (values teamA teamB n : value) (book : string) :
  Forall Spec.odds_above_one (map_entries values teamA teamB n book).
Proof.
  apply Forall_forall. intros e He. unfold map_entries in He.
  repeat (apply elem_of_app in He as [He|He]);
    apply push_if_above in He as [-> Hg]; eexists; split;
    first [reflexivity | exact Hg].
Qed.

Lemma Forall_flat_map {A B} (P : B -> Prop) (f : A -> list B) (xs : list A) :
  (forall x, Forall P (f x)) -> Forall P (flat_map f xs).
Proof.
  intros H. induction xs as [|x xs IH]; simpl; [constructor|].
  apply Forall_app. split; [apply H | exact IH].
Qed.

Lemma mapM_Forall {A B} (P : B -> Prop) (f : A -> result B) (xs : list A)
  (ys : list B) :
  (forall x y, f x = Ok y -> P y) -> JS.mapM f xs = Ok ys -> Forall P ys.
Proof.
  intros H. revert ys. induction xs as [|x xs IH]; intros ys; cbn [JS.mapM].
  - intros [= <-]. constructor.
  - destruct (f x) as [y|e] eqn:E; cbn [rbind]; [|discriminate].
    destruct (JS.mapM f xs) as [ys'|e]; cbn [rbind]; [|discriminate].
    intros [= <-]. constructor; [exact (H x y E) | apply IH; reflexivity].
Qed.

Lemma collectStructuredEntries_above (p : props) (values : value)
  (es : list value) :
  collectStructuredEntries p values = Ok es -> Forall Spec.odds_above_one es.
Proof.
  unfold collectStructuredEntries.
  destruct (mapList (maps p)) as [| |b|n|s|ms|ps]; try discriminate.
  destruct (JS.mapM _ ms) as [per_map|e] eqn:E; cbn [rbind]; [|discriminate].
  intros [= <-]. apply Forall_app. split.
  - change (Forall Spec.odds_above_one
              (flat_map (match_winner_entries values
                           (team_label (teams p) "team_a" "Team A")
                           (team_label (teams p) "team_b" "Team B"))
                 BOOKMAKERS)).
    apply Forall_flat_map. intros book. apply match_winner_above.
  - apply Forall_concat.
    eapply mapM_Forall; [|exact E].
    intros m ys. unfold prop. destruct (is_nullish m); [discriminate|].
    cbn [rbind]. intros [= <-].
    repeat (apply Forall_app; split; [apply map_entries_above|]).
    constructor.
Qed.

Lemma saveBatch_run (p : props) (saved : completion value) (f : form) :
  snd (snd (saveBatch p saved (f, [])))
  = match parseBatch (batchText f) with
    | [] => []
    | es =>
        CallSaveOdds (matchId p) (VObj [("entries", VArr es)])
        :: match saved with
           | Returned res => if has_onSaved p then [CallOnSaved res] else []
           | _ => []
           end
    end.
Proof.
  unfold saveBatch, bind, finally, try_catch, setError, setBusy, setBatchText,
    onSaved, api_saveOdds, modify, gets, throw.
  cbn [fst snd batchText].
  destruct (parseBatch (batchText f)) as [|e es]; [reflexivity|].
  cbn [is_empty]. destruct saved as [res|err|]; cbn; try reflexivity.
  destruct (has_onSaved p); reflexivity.
Qed.

Lemma saveStructured_run (p : props) (saved : completion value) (f : form) :
  snd (snd (saveStructured p saved (f, [])))
  = match collectStructuredEntries p (values f) with
    | Ok (e :: es) =>
        CallSaveOdds (matchId p) (VObj [("entries", VArr (e :: es))])
        :: match saved with
           | Returned res => if has_onSaved p then [CallOnSaved res] else []
           | _ => []
           end
    | _ => []
    end.
Proof.
  unfold saveStructured, bind, finally, try_catch, setError, setBusy,
    onSaved, api_saveOdds, modify, gets, throw, lift.
  cbn [fst snd values].
  destruct (collectStructuredEntries p (values f)) as [[|e es]|err];
    [reflexivity| |reflexivity].
  cbn [is_empty]. destruct saved as [res|err|]; cbn; try reflexivity.
  destruct (has_onSaved p); reflexivity.
Qed.

Lemma save_nothing (p : props) (saved : completion value) (f : form) :
  (parseBatch (batchText f) = [] ->
   saveBatch p saved (f, [])
   = (Returned tt,
      (mkForm (values f) (batchText f) false
         "Nenhuma odd valida no batch paste.", [])))
  /\ (collectStructuredEntries p (values f) = Ok [] ->
      saveStructured p saved (f, [])
      = (Returned tt,
         (mkForm (values f) (batchText f) false
            "Preencha pelo menos uma odd valida.", []))).
Proof.
  split; intros H.
  - unfold saveBatch, bind, finally, try_catch, setError, setBusy, modify,
      gets, throw. cbn [fst snd batchText]. rewrite H. reflexivity.
  - unfold saveStructured, bind, finally, try_catch, setError, setBusy, modify,
      gets, throw, lift. cbn [fst snd values]. rewrite H. reflexivity.
Qed.

(** What both handlers submit: a call is made only with a non-empty list of
    entries; those of the batch field have finite odds above 1, those of the
    structured form have odds above 1. *)
Lemma saveBatch_submits (p : props) (saved : completion value) (f : form)
  (id body : value) :
  CallSaveOdds id body ∈ snd (snd (saveBatch p saved (f, []))) ->
  exists es, body = VObj [("entries", VArr es)] /\ es <> []
             /\ Forall Spec.finite_odds_above_one es.
Proof.
  rewrite saveBatch_run.
  pose proof (parseBatch_entries (batchText f)) as Hall.
  destruct (parseBatch (batchText f)) as [|e es]; intros Hin.
  - by apply elem_of_nil in Hin.
  - apply elem_of_cons in Hin as [[= _ ->]|Hin].
    + exists (e :: es). split; [reflexivity|]. split; [discriminate | exact Hall].
    + destruct saved as [res|err|]; try by apply elem_of_nil in Hin.
      destruct (has_onSaved p); [|by apply elem_of_nil in Hin].
      apply list_elem_of_singleton in Hin. discriminate.
Qed.

Lemma saveStructured_submits (p : props) (saved : completion value) (f : form)
  (id body : value) :
  CallSaveOdds id body ∈ snd (snd (saveStructured p saved (f, []))) ->
  exists es, body = VObj [("entries", VArr es)] /\ es <> []
             /\ Forall Spec.odds_above_one es.
Proof.
  rewrite saveStructured_run.
  destruct (collectStructuredEntries p (values f)) as [[|e es]|err] eqn:E;
    intros Hin; try by apply elem_of_nil in Hin.
  apply elem_of_cons in Hin as [[= _ ->]|Hin].
  - exists (e :: es). split; [reflexivity|]. split; [discriminate|].
    exact (collectStructuredEntries_above p (values f) _ E).
  - destruct saved as [res|err|]; try by apply elem_of_nil in Hin.
    destruct (has_onSaved p); [|by apply elem_of_nil in Hin].
    apply list_elem_of_singleton in Hin. discriminate.
Qed.

(** C9, at the input on which the structured form departs from it: with
    [Infinity] typed into an odds field, [saveStructured] calls the API with
    an entry whose odds are not finite (and which JSON prints as [null]).
    The batch parser refuses the same token: it tests [Number.isFinite],
    which [collectStructuredEntries] does not. *)
Theorem structured_form_submits_infinite_odds :
  let p := mkProps (VNum (of_Z 7)) VNull VUndefined false in
  let f := mkForm Spec.infinity_typed EmptyString false EmptyString in
  snd (snd (saveStructured p (Returned VNull) (f, [])))
  = [CallSaveOdds (VNum (of_Z 7))
       (VObj [("entries",
               VArr [entry (VStr "betano") (VStr "match_winner") (VStr "Team A")
                       (VNum Infinity) VNull])])]
  /\ isFinite Infinity = false
  /\ stringify (VNum Infinity) = Some "null"
  /\ parseBatch "betano match_winner Team A Infinity" = [].
Proof. repeat split; vm_compute; reflexivity. Qed.

End OddsFormFacts.

(** ** components/SeriesProbs and the chart data *)

Module SeriesProbsFacts.

Import Num JS FormatBo FormatBoFacts.

Lemma assoc_missing (k : string) (props : list (string * value)) :
  k ∉ props.*1 -> assoc k props = VUndefined.
Proof.
  induction props as [|[k' v] props IH]; intros H; [reflexivity|].
  simpl in *. apply not_elem_of_cons in H as [Hk Hin].
  destruct (String.eqb_spec k' k) as [->|_]; [congruence|]. apply IH, Hin.
Qed.

Lemma filter_partition {A} (f : A -> bool) (xs : list A) :
  xs ≡ₚ List.filter f xs ++ List.filter (fun x => negb (f x)) xs.
Proof.
  induction xs as [|x xs IH]; [reflexivity|]. simpl.
  destruct (f x); simpl.
  - by constructor.
  - rewrite <- Permutation_middle. by constructor.
Qed.

Lemma filter_swap (xs ys : list string) :
  NoDup xs -> NoDup ys ->
  List.filter (fun s => bool_decide (s ∈ ys)) xs
  ≡ₚ List.filter (fun s => bool_decide (s ∈ xs)) ys.
Proof.
  intros Hx Hy. apply NoDup_Permutation.
  - apply NoDup_ListNoDup, List.NoDup_filter, NoDup_ListNoDup, Hx.
  - apply NoDup_ListNoDup, List.NoDup_filter, NoDup_ListNoDup, Hy.
  - intros s. rewrite !list_elem_of_In, !List.filter_In, <- !list_elem_of_In.
    rewrite !bool_decide_eq_true. tauto.
Qed.

Lemma order_NoDup (format : value) : NoDup (Spec.canonical format).
Proof.
  assert (H3 : NoDup ["2-0"; "2-1"; "1-2"; "0-2"])
    by (apply (bool_decide_unpack _); vm_compute; exact I).
  assert (H5 : NoDup ["3-0"; "3-1"; "3-2"; "2-3"; "1-3"; "0-3"])
    by (apply (bool_decide_unpack _); vm_compute; exact I).
  destruct format as [| | | |s| |]; try exact H3.
  unfold Spec.canonical.
  repeat match goal with
         | |- NoDup (match ?s with _ => _ end) => destruct s; try exact H3
         | |- NoDup (if ?b then _ else _) => destruct b; try exact H3
         end; exact H5.
Qed.

(** X1. For a plain object [scoreProbs] whose values are all other than
    [null] and [undefined], the chart has exactly one row per key: the
    scores of the rows are the keys of [scoreProbs], each once, whatever
    the format. *)
Theorem seriesChartData_each_key_once (props : list (string * value))
  (format : value) :
  NoDup (keys (VObj props)) ->
  (forall k, k ∈ keys (VObj props) ->
             is_nullish (Get (VObj props) k) = false) ->
  exists rows,
    seriesChartData (VObj props) format = VArr rows
    /\ (fun r => Get r "score") <$> rows ≡ₚ VStr <$> keys (VObj props)
    /\ length rows = length props.
Proof.
  intros Hnd Hval. unfold seriesChartData.
  rewrite not_an_object_is_object, order_canonical. cbn [Spec.is_object negb].
  eexists. split; [reflexivity|].
  set (order := Spec.canonical format).
  assert (P : List.filter
                (fun s => negb (is_nullish (Get (VObj props) s))) order
              ++ sort (List.filter (fun s => negb (includes order s))
                         (keys (VObj props)))
              ≡ₚ keys (VObj props)).
  { unfold sort. rewrite merge_sort_Permutation. symmetry.
    etrans; [apply (filter_partition (fun s => bool_decide (s ∈ order)))|].
    apply Permutation_app.
    - rewrite <- (filter_swap order (keys (VObj props)));
        [|apply order_NoDup|exact Hnd].
      rewrite (List.filter_ext _
                 (fun s => negb (is_nullish (Get (VObj props) s))));
        [reflexivity|].
      intros s. case_bool_decide as Hin.
      + pose proof (Hval s Hin) as E. simpl in E. simpl. rewrite E.
        reflexivity.
      + simpl. rewrite (assoc_missing s props Hin). reflexivity.
    - rewrite (List.filter_ext _ (fun s => negb (includes order s)));
        [reflexivity|].
      intros s. rewrite includes_elem_of. reflexivity. }
  split.
  - rewrite <- list_fmap_compose.
    etrans; [|apply (fmap_Permutation VStr), P].
    apply Permutation_refl', list_fmap_ext. intros i s _. reflexivity.
  - rewrite length_map, (Permutation_length P). simpl. apply length_map.
Qed.

Lemma seriesChartData_each_key_once_witness :
  exists rows,
    seriesChartData
      (VObj [("0-2", VNum (ofString "0.2")); ("x", VNum zero);
             ("2-0", VNum (ofString "0.5"))]) (VStr "Bo3") = VArr rows
    /\ (fun r => Get r "score") <$> rows ≡ₚ [VStr "0-2"; VStr "x"; VStr "2-0"]
    /\ length rows = 3%nat.
Proof.
  apply (seriesChartData_each_key_once
           [("0-2", VNum (ofString "0.2")); ("x", VNum zero);
            ("2-0", VNum (ofString "0.5"))] (VStr "Bo3")).
  - apply (bool_decide_unpack _). vm_compute. exact I.
  - intros k Hk. simpl in Hk.
    repeat (apply elem_of_cons in Hk as [->|Hk]; [reflexivity|]).
    by apply elem_of_nil in Hk.
Defined.


(** X2. The inferred format is Bo3 or Bo5, never Bo?.  An object with a
    key among the Bo5 scorelines is a Bo5; a value whose keys are all Bo3
    scorelines is a Bo3, as is everything that is not an object. *)
Theorem inferred_format_follows_keys (scoreProbs : value) :
  let format := inferSeriesFormatFromScoreProbs scoreProbs in
  (format = "Bo3" \/ format = "Bo5")
  /\ (Spec.is_object scoreProbs = true ->
      (exists k, k ∈ keys scoreProbs /\ k ∈ BO5_ORDER) -> format = "Bo5")
  /\ (Forall (fun k => k ∈ BO3_ORDER) (keys scoreProbs) -> format = "Bo3")
  /\ (Spec.is_object scoreProbs = false -> format = "Bo3").
Proof.
  unfold inferSeriesFormatFromScoreProbs.
  rewrite not_an_object_is_object.
  set (three := fun k => Str.startsWith "3-" k || Str.endsWith "-3" k).
  repeat split.
  - destruct (Spec.is_object scoreProbs); simpl; [|by left].
    destruct (existsb three (keys scoreProbs)); [by right|by left].
  - intros -> (k & Hk & H5). simpl.
    assert (E : existsb three (keys scoreProbs) = true).
    { apply existsb_exists. exists k. split; [by apply list_elem_of_In|].
      unfold BO5_ORDER in H5.
      repeat (apply elem_of_cons in H5 as [->|H5]; [reflexivity|]).
      by apply elem_of_nil in H5. }
    rewrite E. reflexivity.
  - intros H3. destruct (Spec.is_object scoreProbs); [|reflexivity]. simpl.
    destruct (existsb three (keys scoreProbs)) eqn:E; [|reflexivity].
    apply existsb_exists in E as (k & Hk & Hthree).
    apply list_elem_of_In in Hk.
    rewrite Forall_forall in H3. specialize (H3 k Hk). unfold BO3_ORDER in H3.
    repeat (apply elem_of_cons in H3 as [->|H3]; [discriminate Hthree|]).
    by apply elem_of_nil in H3.
  - intros ->. reflexivity.
Qed.

Import SeriesProbs.

(** X3. The caption of the chart names the canonical order the chart
    uses: the chart data are those of the captioned format.  The caption
    is Bo3 or Bo5; a best-of type that is given but says neither 3 nor 5
    is captioned Bo3 without looking at the scores. *)
Theorem caption_names_chart_order (scoreProbs boType : value) :
  data scoreProbs boType
  = seriesChartData scoreProbs (VStr (formatLabel scoreProbs boType))
  /\ (formatLabel scoreProbs boType = "Bo3"
      \/ formatLabel scoreProbs boType = "Bo5")
  /\ (formatBoType boType = "Bo?" ->
      is_nullish boType = false -> is_string EmptyString boType = false ->
      formatLabel scoreProbs boType = "Bo3").
Proof.
  unfold data, formatLabel.
  repeat split.
  - destruct (String.eqb_spec (format scoreProbs boType) "Bo5") as [->|Hne];
      [reflexivity|].
    unfold seriesChartData.
    replace (is_string "Bo5" (VStr (format scoreProbs boType))) with false;
      [reflexivity|].
    symmetry. simpl. by apply String.eqb_neq.
  - destruct (String.eqb (format scoreProbs boType) "Bo5"); [by right|by left].
  - intros Hq Hn He. unfold format. rewrite Hn, He, Hq. reflexivity.
Qed.

End SeriesProbsFacts.

(** ** The overview counters and the status badge *)

Module OverviewFacts.

Import JS JSX Dashboard MatchCard.

Lemma filterR_total (s : string) (ms : list value) :
  Forall (fun m => is_nullish m = false) ms ->
  filterR (has_status s) ms
  = Ok (List.filter (fun m => is_string s (Get m "status")) ms).
Proof.
  induction 1 as [|m ms Hm _ IH]; [reflexivity|].
  simpl. unfold has_status at 1, prop. rewrite Hm. simpl. rewrite IH. simpl.
  destruct (is_string s (Get m "status")); reflexivity.
Qed.

Lemma filterR_throws (s : string) (ms : list value) (ys : list value) :
  filterR (has_status s) ms = Ok ys ->
  Forall (fun m => is_nullish m = false) ms.
Proof.
  revert ys. induction ms as [|m ms IH]; intros ys H; [constructor|].
  simpl in H. unfold has_status at 1, prop in H.
  destruct (is_nullish m) eqn:Hm; [discriminate|]. simpl in H.
  destruct (filterR (has_status s) ms) as [zs|e] eqn:E; [|discriminate].
  constructor; [exact Hm|]. eapply IH. reflexivity.
Qed.

Lemma filterR_error (s : string) (ms : list value) (e : Error) :
  filterR (has_status s) ms = Throw e -> name e = "TypeError".
Proof.
  induction ms as [|m ms IH]; intros H; [discriminate|].
  simpl in H. unfold has_status at 1, prop in H.
  destruct (is_nullish m); simpl in H; [injection H as <-; reflexivity|].
  destruct (filterR (has_status s) ms) as [zs|e']; [discriminate|].
  simpl in H. injection H as <-. by apply IH.
Qed.

Lemma overview_run (ms : list value) :
  Forall (fun m => is_nullish m = false) ms ->
  overview (VArr ms)
  = Ok (mkCounters
          (length (List.filter (fun m => is_string "ongoing" (Get m "status")) ms))
          (length (List.filter (fun m => is_string "upcoming" (Get m "status")) ms))
          (length (List.filter (fun m => is_string "completed" (Get m "status")) ms))).
Proof.
  intros H. unfold overview.
  rewrite !filterR_total by exact H. reflexivity.
Qed.

Lemma status_exclusive (v : value) :
  (Nat.b2n (is_string "ongoing" v) + Nat.b2n (is_string "upcoming" v)
   + Nat.b2n (is_string "completed" v)
   = Nat.b2n (Props.counted_status v))%nat.
Proof.
  unfold Props.counted_status. destruct v as [| | | |s| |]; try reflexivity.
  simpl.
  destruct (String.eqb_spec s "ongoing") as [->|_]; [reflexivity|].
  destruct (String.eqb_spec s "upcoming") as [->|_]; [reflexivity|].
  destruct (String.eqb s "completed"); reflexivity.
Qed.

Lemma filter_length_b2n {A} (p : A -> bool) (xs : list A) :
  length (List.filter p xs) = list_sum ((fun x => Nat.b2n (p x)) <$> xs).
Proof.
  induction xs as [|x xs IH]; [reflexivity|]. csimpl.
  destruct (p x); csimpl; rewrite IH; reflexivity.
Qed.

Lemma counted_sum (ms : list value) :
  (list_sum ((fun m => Nat.b2n (Props.counted_status (Get m "status"))) <$> ms)
   <= length ms)%nat
  /\ (list_sum ((fun m => Nat.b2n (Props.counted_status (Get m "status")))
                  <$> ms) = length ms
      <-> Forall (fun m => Props.counted_status (Get m "status") = true) ms).
Proof.
  induction ms as [|m ms [IH1 IH2]]; csimpl.
  - split; [lia|]. split; [constructor|reflexivity].
  - destruct (Props.counted_status (Get m "status")) eqn:E; csimpl.
    + split; [lia|]. split.
      * intros H. constructor; [exact E|]. apply IH2. lia.
      * intros H. inversion H; subst. f_equal. by apply IH2.
    + split; [lia|]. split; [intros H; exfalso; lia|].
      intros H. inversion H; subst. congruence.
Qed.

Lemma three_sums (f g h k : value -> nat) (ms : list value) :
  (forall m, f m + g m + h m = k m)%nat ->
  (list_sum (f <$> ms) + list_sum (g <$> ms) + list_sum (h <$> ms)
   = list_sum (k <$> ms))%nat.
Proof.
  intros H. induction ms as [|m ms IH]; [reflexivity|]. csimpl.
  specialize (H m). lia.
Qed.

(** X4. The overview is computed exactly for an array of matches none
    of which is [null] or [undefined]; otherwise a TypeError is thrown.
    Its three counters count disjoint sets of matches: their sum is at
    most the number of matches, and equals it exactly when every match has
    one of the statuses ongoing, upcoming and completed. *)
Theorem overview_counts (matches : value) :
  ((exists o, overview matches = Ok o)
   <-> exists ms, matches = VArr ms
                  /\ Forall (fun m => is_nullish m = false) ms)
  /\ (forall ms o,
        matches = VArr ms -> overview matches = Ok o ->
        (live o + upcoming o + done o <= length ms)%nat
        /\ ((live o + upcoming o + done o)%nat = length ms
            <-> Forall (fun m => Props.counted_status (Get m "status") = true)
                  ms))
  /\ (forall e, overview matches = Throw e -> name e = "TypeError").
Proof.
  split; [|split].
  - split.
    + intros [o H]. destruct matches as [| | | | |ms|]; try discriminate.
      exists ms. split; [reflexivity|]. unfold overview in H.
      destruct (filterR (has_status "ongoing") ms) as [l|e] eqn:E;
        [|discriminate].
      eapply filterR_throws, E.
    + intros (ms & -> & H). rewrite overview_run by exact H. eauto.
  - intros ms o -> H.
    assert (Hms : Forall (fun m => is_nullish m = false) ms).
    { unfold overview in H.
      destruct (filterR (has_status "ongoing") ms) as [l|e] eqn:E;
        [|discriminate].
      eapply filterR_throws, E. }
    rewrite overview_run in H by exact Hms. injection H as <-. simpl.
    rewrite !filter_length_b2n.
    rewrite (three_sums _ _ _
               (fun m => Nat.b2n (Props.counted_status (Get m "status"))))
      by (intros m; apply status_exclusive).
    apply counted_sum.
  - intros e H. unfold overview in H.
    destruct matches as [| | | | |ms|]; try (injection H as <-; reflexivity).
    destruct (filterR (has_status "ongoing") ms) as [l|e1] eqn:E1;
      [|injection H as <-; exact (filterR_error _ _ _ E1)].
    cbn [rbind] in H.
    destruct (filterR (has_status "upcoming") ms) as [u|e2] eqn:E2;
      [|injection H as <-; exact (filterR_error _ _ _ E2)].
    cbn [rbind] in H.
    destruct (filterR (has_status "completed") ms) as [d|e3] eqn:E3;
      [discriminate|injection H as <-; exact (filterR_error _ _ _ E3)].
Qed.

Lemma badge_of_status (v : value) :
  (Nat.b2n (is_string "ongoing" v) + Nat.b2n (is_string "upcoming" v)
   + Nat.b2n (Props.shows_done (statusBadge v)) = 1)%nat
  /\ (Nat.b2n (is_string "completed" v)
      <= Nat.b2n (Props.shows_done (statusBadge v)))%nat.
Proof.
  unfold statusBadge. destruct v as [| | | |s| |]; try (split; simpl; lia).
  simpl.
  destruct (String.eqb_spec s "ongoing") as [->|_]; [split; simpl; lia|].
  destruct (String.eqb_spec s "upcoming") as [->|_]; [split; simpl; lia|].
  destruct (String.eqb s "completed"); split; simpl; lia.
Qed.

(** X5. Every match is counted as live, counted as upcoming, or carries
    the DONE badge on its card; so the cards with a DONE badge are at
    least as many as the counter of completed matches says. *)
Theorem done_badges_cover_done (ms : list value) (o : counters) :
  overview (VArr ms) = Ok o ->
  let badges := (fun m => statusBadge (Get m "status")) <$> ms in
  (live o + upcoming o + length (List.filter Props.shows_done badges)
   = length ms)%nat
  /\ (done o <= length (List.filter Props.shows_done badges))%nat.
Proof.
  intros H badges.
  assert (Hms : Forall (fun m => is_nullish m = false) ms).
  { unfold overview in H.
    destruct (filterR (has_status "ongoing") ms) as [l|e] eqn:E;
      [|discriminate].
    eapply filterR_throws, E. }
  rewrite overview_run in H by exact Hms. injection H as <-. simpl.
  subst badges. clear Hms. rewrite !filter_length_b2n.
  induction ms as [|m ms [IH1 IH2]]; [split; reflexivity|].
  csimpl. pose proof (badge_of_status (Get m "status")) as [B1 B2].
  split; lia.
Qed.

Lemma done_badges_cover_done_witness :
  let ms := [VObj [("status", VStr "completed")];
             VObj [("status", VStr "canceled")];
             VObj [("status", VStr "ongoing")]; VObj []] in
  let badges := (fun m => statusBadge (Get m "status")) <$> ms in
  (1 + 0 + length (List.filter Props.shows_done badges) = 4)%nat
  /\ (1 <= length (List.filter Props.shows_done badges))%nat.
Proof.
  apply (done_badges_cover_done
           [VObj [("status", VStr "completed")];
            VObj [("status", VStr "canceled")];
            VObj [("status", VStr "ongoing")]; VObj []]
           (mkCounters 1 0 1)).
  reflexivity.
Defined.

End OverviewFacts.

(** ** api/client: what a request leaves behind and what it sends *)

Module RequestFacts.

Import Num JS Async Client ClientFacts DashboardFacts.

Lemma cleared_sub (id : Z) (ts ts0 : list timer) (new t : timer) :
  (forall u, u ∈ ts -> u ∈ ts0 ++ [new]) -> t_id new = id ->
  t ∈ List.filter (fun u => negb (t_id u =? id)) ts ->
  t ∈ ts0 /\ t_id t <> id.
Proof.
  intros Hsub Hnew Ht.
  apply list_elem_of_In, List.filter_In in Ht as [Ht Hid].
  apply list_elem_of_In, Hsub, elem_of_app in Ht as [Ht|Ht].
  - split; [exact Ht|]. intros E. rewrite E, Z.eqb_refl in Hid. discriminate.
  - apply list_elem_of_singleton in Ht as ->.
    rewrite Hnew, Z.eqb_refl in Hid. discriminate.
Qed.

Lemma filter_sub {A} (p : A -> bool) (ts : list A) (t : A) :
  t ∈ List.filter p ts -> t ∈ ts.
Proof.
  intros H. apply list_elem_of_In, List.filter_In in H as [H _].
  by apply list_elem_of_In.
Qed.

(** What a request leaves behind: no timer of its own, and in the log its
    [setTimeout], its one [fetch] and then nothing but [clearTimeout]
    calls, at least one. *)
Lemma request_trace (path : string) (options : RequestInit) (w : world) :
  let id := fresh_id w + 1 in
  let init := mkFetchInit (method options) (body_text options) (fresh_id w)
                (spread DEFAULT_HEADERS (default [] (headers options))) in
  let w' := snd (request path options w) in
  (forall t, t ∈ armed w' -> t ∈ armed w /\ t_id t <> id)
  /\ exists lg,
       log w' = log w ++ [ESetTimeout id REQUEST_TIMEOUT_MS; EFetch path init]
                  ++ lg
       /\ Forall (fun e => e = EClearTimeout id \/ e = EAbort (fresh_id w)) lg
       /\ EClearTimeout id ∈ lg.
Proof.
  intros id init w'. pattern w'.
  match goal with |- ?P w' => set (Q := P) end.
  subst w'. unfold request.
  unfold bind at 1. unfold new_AbortController at 1.
  unfold bind at 1. unfold setTimeout_abort at 1.
  cbn [fresh_id now armed network log].
  unfold try_catch. unfold bind at 1. unfold fetch at 1.
  cbn [fresh_id now armed network log f_signal].
  fold id. fold init.
  set (new := mkTimer id (now w + REQUEST_TIMEOUT_MS) (fresh_id w)).
  destruct (next_abort_some (fresh_id w) (armed w) new eq_refl) as [u Hu].
  rewrite Hu.
  assert (Hall : forall t, t ∈ armed w ++ [new] -> t ∈ armed w ++ [new])
    by auto.
  assert (Hflt : forall i t,
             t ∈ List.filter (fun v => negb (t_id v =? i)) (armed w ++ [new])
             -> t ∈ armed w ++ [new])
    by (intros i t; apply filter_sub).
  unfold fires_first.
  destruct (settles_after _) as [d|].
  - destruct (_ || _).
    + unfold bind, clearTimeout, throw.
      cbn [fst snd fresh_id now armed network log name AbortError String.eqb
           Ascii.eqb Bool.eqb].
      subst Q. cbn beta. cbn [armed log]. split.
      * intros t Ht. eapply cleared_sub; [apply (Hflt (t_id u))|reflexivity|].
        exact Ht.
      * exists [EAbort (fresh_id w); EClearTimeout id].
        split; [by rewrite <- !app_assoc|].
        split; [repeat (apply List.Forall_cons; [auto|]); apply List.Forall_nil|]. (apply list_elem_of_In; simpl; auto).
    + destruct (outcome _) as [r|e].
      * unfold bind, clearTimeout, json, ret, throw.
        destruct (is_json r); [destruct (r_body r) as [v|e|]|];
          try destruct (ok r); try destruct (String.eqb _ _);
          cbn [fst snd fresh_id now armed network log negb];
          subst Q; cbn beta; cbn [armed log];
          (split;
           [intros t Ht;
            first [ eapply cleared_sub; [apply Hall|reflexivity|exact Ht]
                  | apply filter_sub in Ht;
                    eapply cleared_sub; [apply Hall|reflexivity|exact Ht] ]
           |first [ exists [EClearTimeout id]; split;
                    [by rewrite <- !app_assoc|];
                    split; [repeat (apply List.Forall_cons; [auto|]); apply List.Forall_nil|(apply list_elem_of_In; simpl; auto)]
                  | exists [EClearTimeout id; EClearTimeout id]; split;
                    [by rewrite <- !app_assoc|];
                    split; [repeat (apply List.Forall_cons; [auto|]); apply List.Forall_nil|(apply list_elem_of_In; simpl; auto)] ]]).
      * unfold bind, clearTimeout, throw.
        destruct (String.eqb _ _);
          cbn [fst snd fresh_id now armed network log];
          subst Q; cbn beta; cbn [armed log];
          (split;
           [intros t Ht; eapply cleared_sub; [apply Hall|reflexivity|exact Ht]
           |exists [EClearTimeout id]; split; [by rewrite <- !app_assoc|];
            split; [repeat (apply List.Forall_cons; [auto|]); apply List.Forall_nil|(apply list_elem_of_In; simpl; auto)]]).
  - unfold bind, clearTimeout, throw.
    cbn [fst snd fresh_id now armed network log name AbortError String.eqb
         Ascii.eqb Bool.eqb].
    subst Q. cbn beta. cbn [armed log]. split.
    + intros t Ht. eapply cleared_sub; [apply (Hflt (t_id u))|reflexivity|].
      exact Ht.
    + exists [EAbort (fresh_id w); EClearTimeout id].
      split; [by rewrite <- !app_assoc|].
      split; [repeat (apply List.Forall_cons; [auto|]); apply List.Forall_nil|]. (apply list_elem_of_In; simpl; auto).
Qed.


(** X6. A request leaves no timer behind, however it ends: every timer
    armed afterwards was armed before, and the timeout the request set
    (of 30000 ms) has been cleared and is no longer armed. *)
Theorem request_leaves_no_timer (path : string) (options : RequestInit)
  (w : world) :
  let w' := snd (request path options w) in
  (forall t, t ∈ armed w' -> t ∈ armed w)
  /\ (forall id ms,
        ESetTimeout id ms ∈ log w' -> ESetTimeout id ms ∉ log w ->
        ms = REQUEST_TIMEOUT_MS
        /\ EClearTimeout id ∈ log w'
        /\ Forall (fun t => t_id t <> id) (armed w')).
Proof.
  intros w'.
  destruct (request_trace path options w) as (Harmed & lg & Hlog & Hlg & Hclr).
  fold w' in Harmed, Hlog. split.
  - intros t Ht. apply Harmed, Ht.
  - intros id ms Hin Hnew. rewrite Hlog in Hin.
    apply elem_of_app in Hin as [Hin|Hin]; [contradiction|].
    apply elem_of_app in Hin as [Hin|Hin].
    + apply elem_of_cons in Hin as [Hin|Hin].
      * injection Hin as -> ->. split; [reflexivity|]. split.
        -- rewrite Hlog. apply elem_of_app. right. apply elem_of_app. by right.
        -- apply Forall_forall. intros t Ht. apply Harmed, Ht.
      * apply list_elem_of_singleton in Hin. discriminate.
    + rewrite Forall_forall in Hlg. destruct (Hlg _ Hin); discriminate.
Qed.

Lemma request_fetch (path : string) (options : RequestInit) (w : world) :
  Props.fetch_calls (log (snd (request path options w)))
  = Props.fetch_calls (log w)
    ++ [EFetch path
          (mkFetchInit (method options) (body_text options) (fresh_id w)
             (spread DEFAULT_HEADERS (default [] (headers options))))].
Proof.
  destruct (request_trace path options w) as (_ & lg & -> & Hlg & _).
  unfold Props.fetch_calls. rewrite !List.filter_app. simpl.
  replace (List.filter Spec.is_fetch lg) with (@nil event);
    [reflexivity|].
  symmetry. induction Hlg as [|e lg [->| ->] _ IH]; simpl; auto.
Qed.

(** Every endpoint function is one request under [/api/] that leaves the
    headers to [request] and gives either no method and no body, or the
    method POST or PUT; or it throws before any request is made. *)
Lemma api_request (c : call) (w : world) :
  (exists path options,
      api c w = request path options w
      /\ Str.startsWith "/api/" path = true
      /\ headers options = None
      /\ ((method options = None /\ body_text options = None)
          \/ method options = Some "POST" \/ method options = Some "PUT"))
  \/ (exists e, api c w = (Thrown e, w) /\ name e = "TypeError").
Proof.
  rewrite api_of_endpoint.
  destruct (endpoint_cases c) as [(path & options & -> & H)|(e & -> & He)];
    eauto.
Qed.


(** X8. No endpoint function sends a body with a GET: the one fetch call
    of an endpoint function has neither method nor body, or its method is
    POST or PUT. *)
Theorem api_body_only_with_post_or_put (c : call) (w : world) :
  (exists path init,
      Props.fetch_calls (log (snd (api c w)))
      = Props.fetch_calls (log w) ++ [EFetch path init]
      /\ ((f_method init = None /\ f_body init = None)
          \/ f_method init = Some "POST" \/ f_method init = Some "PUT"))
  \/ (exists e, api c w = (Thrown e, w) /\ name e = "TypeError").
Proof.
  destruct (api_request c w) as [(path & options & -> & _ & _ & Hm)|H];
    [left|right; exact H].
  eexists _, _. split; [apply request_fetch|]. exact Hm.
Qed.

End RequestFacts.

(** ** api/client and pages/Dashboard: the query strings *)

Module EndpointFacts.

Import Num JS Async Client Dashboard.

Lemma chars_app (a b : string) :
  String.list_ascii_of_string (a +:+ b)
  = String.list_ascii_of_string a ++ String.list_ascii_of_string b.
Proof. induction a as [|c a IH]; simpl; [reflexivity|]. by rewrite IH. Qed.

Lemma percent_safe (n : N) :
  (n < 256)%N ->
  forallb Props.url_safe (String.list_ascii_of_string (percent n)) = true.
Proof.
  intros H. rewrite <- (N_ascii_embedding n H).
  destruct (ascii_of_N n) as [[] [] [] [] [] [] [] []];
    vm_compute; reflexivity.
Qed.

Lemma percent_utf8_safe (n : N) :
  forallb Props.url_safe
    (String.list_ascii_of_string (percent_utf8 n)) = true.
Proof.
  unfold percent_utf8.
  assert (M : forall k, (128 + k mod 64 < 256)%N).
  { intros k. pose proof (N.mod_lt k 64). lia. }
  destruct (N.ltb_spec n 128); [apply percent_safe; lia|].
  destruct (N.ltb_spec n 2048).
  { assert (n / 64 < 32)%N by (apply N.Div0.div_lt_upper_bound; lia).
    rewrite chars_app, forallb_app, !percent_safe; auto; lia. }
  destruct (N.ltb_spec n 65536).
  { assert (n / 4096 < 16)%N by (apply N.Div0.div_lt_upper_bound; lia).
    rewrite !chars_app, !forallb_app, !percent_safe; auto; lia. }
  pose proof (N.mod_lt (n / 262144) 8).
  rewrite !chars_app, !forallb_app, !percent_safe; auto; lia.
Qed.

Lemma encode_with_safe (keep : N -> bool) (s : string) :
  (forall c, keep (Str.code c) = true -> Props.url_safe c = true) ->
  forallb Props.url_safe
    (String.list_ascii_of_string (encode_with keep false s)) = true.
Proof.
  intros Hkeep. induction s as [|c s IH]; [reflexivity|].
  cbn [encode_with]. rewrite chars_app, forallb_app, IH, andb_true_r.
  destruct (keep (Str.code c)) eqn:K.
  - simpl. rewrite (Hkeep c K). reflexivity.
  - cbn [andb]. apply percent_utf8_safe.
Qed.






Lemma append_length (a b : string) :
  String.length (a +:+ b) = (String.length a + String.length b)%nat.
Proof. induction a as [|c a IH]; simpl; [reflexivity|]. by rewrite IH. Qed.

Lemma join_length (sep x : string) (xs : list string) :
  (String.length x <= String.length (Str.join sep (x :: xs)))%nat.
Proof.
  destruct xs as [|y ys]; [reflexivity|].
  cbn [Str.join]. rewrite append_length. lia.
Qed.

Lemma usp_toString_nonempty (sp : URLSearchParams) :
  sp <> [] -> String.eqb (usp_toString sp) EmptyString = false.
Proof.
  destruct sp as [|[k v] sp]; [congruence|]. intros _.
  unfold usp_toString. cbn [List.map fst snd].
  pose proof (join_length "&" (form_encode k +:+ "=" +:+ form_encode v)
                (List.map
                   (fun kv => form_encode (fst kv) +:+ "=" +:+ form_encode (snd kv))
                   sp)) as L.
  rewrite !append_length in L. cbn [String.length] in L.
  destruct (Str.join _ _); [simpl in L; lia|reflexivity].
Qed.

Lemma limit_text :
  ToBoolean MATCHES_LIMIT = true /\ ToString MATCHES_LIMIT = "80".
Proof. split; vm_compute; reflexivity. Qed.

(** X10. The request for the matches of the dashboard sends exactly the
    filters that are set, in a fixed order: the event (as the number its
    text converts to), the status, the two dates, the year when there is
    one, and always the limit of 80.  A filter left empty sends no
    parameter. *)
Theorem dashboard_matches_query (f : filters) (w : world) :
  let given k s := if String.eqb s EmptyString then [] else [(k, s)] in
  let search :=
    (if String.eqb (eventFilter f) EmptyString then []
     else [("event_id", toString (ofString (eventFilter f)))])
    ++ given "status" (statusFilter f)
    ++ given "date_from" (dateFrom f)
    ++ given "date_to" (dateTo f)
    ++ (if is_nullish (fromYear f) then []
        else [("from_year", ToString (fromYear f))])
    ++ [("limit", "80")] in
  exists init,
    Props.fetch_calls (log (snd (api (getMatches (params f)) w)))
    = Props.fetch_calls (log w)
      ++ [EFetch ("/api/matches?" +:+ usp_toString search) init].
Proof.
  intros given search.
  assert (E : exists options,
             api (getMatches (params f)) w
             = request (with_query "/api/matches" (usp_toString search))
                 options w).
  { exists no_options. destruct limit_text as [Lb Lt].
    subst search given. destruct f as [ef sf df dt fy].
    cbn [eventFilter statusFilter dateFrom dateTo fromYear].
    destruct ef as [|c1 ef], sf as [|c2 sf], df as [|c3 df], dt as [|c4 dt];
      destruct (is_nullish fy) eqn:Hfy;
      cbn -[ofString toString ToString usp_toString request with_query
            MATCHES_LIMIT];
      rewrite ?Hfy, ?Lb;
      cbn -[ofString toString ToString usp_toString request with_query
            MATCHES_LIMIT];
      rewrite ?Lt; reflexivity. }
  destruct E as [options ->]. eexists.
  rewrite RequestFacts.request_fetch. do 3 f_equal.
  unfold with_query. rewrite usp_toString_nonempty; [reflexivity|].
  subst search. intros H. apply (f_equal (@length _)) in H.
  rewrite !length_app in H. simpl in H. lia.
Qed.

End EndpointFacts.

(** ** components/OddsForm: the batch parser *)

Module BatchFacts.

Import Num JS Async OddsForm OddsFormFacts.

Lemma lower_lower (c : ascii) : Str.lower (Str.lower c) = Str.lower c.
Proof. destruct c as [[] [] [] [] [] [] [] []]; vm_compute; reflexivity. Qed.

Lemma lower_space (c : ascii) : Str.is_space (Str.lower c) = Str.is_space c.
Proof. destruct c as [[] [] [] [] [] [] [] []]; vm_compute; reflexivity. Qed.

Lemma toLowerCase_idem (s : string) :
  Str.toLowerCase (Str.toLowerCase s) = Str.toLowerCase s.
Proof.
  induction s as [|c s IH]; [reflexivity|].
  unfold Str.toLowerCase in *. simpl. rewrite lower_lower. f_equal. exact IH.
Qed.

Lemma has_char_lower (c : ascii) (s : string) :
  Spec.has_char c (Str.toLowerCase s) = true ->
  exists c0, Spec.has_char c0 s = true /\ c = Str.lower c0.
Proof.
  unfold Spec.has_char. induction s as [|a s IH]; [discriminate|].
  unfold Str.toLowerCase in *. simpl.
  destruct (Ascii.eqb_spec c (Str.lower a)) as [->|_]; simpl.
  - intros _. exists a. rewrite Ascii.eqb_refl. auto.
  - intros H. destruct (IH H) as (c0 & H0 & ->). exists c0.
    rewrite H0, orb_true_r. auto.
Qed.

Lemma spaceless_rev (s : string) : Props.spaceless s -> Props.spaceless (String.rev s).
Proof.
  unfold Props.spaceless, Spec.has_char. intros H c Hc. apply H.
  apply existsb_exists in Hc as (x & Hin & E).
  apply existsb_exists. exists x. split; [|exact E].
  unfold String.rev in Hin.
  assert (G : forall a b, In x (String.list_ascii_of_string
                                  (String.rev_app a b)) ->
                          In x (String.list_ascii_of_string a)
                          \/ In x (String.list_ascii_of_string b)).
  { clear. induction a as [|c a IH]; intros b Hx; simpl in *; [auto|].
    apply IH in Hx as [Hx|Hx]; simpl in *; tauto. }
  apply G in Hin as [Hin|Hin]; [exact Hin|contradiction].
Qed.

Lemma split_spaces_go_spaceless (cur : string) (skipping : bool) (s : string) :
  Props.spaceless cur -> Forall Props.spaceless (Str.split_spaces_go cur skipping s).
Proof.
  revert cur skipping. induction s as [|a s IH]; intros cur skipping Hcur.
  - simpl. constructor; [|constructor]. apply spaceless_rev, Hcur.
  - simpl. destruct (Str.is_space a) eqn:Ha.
    + destruct skipping; [apply IH, Hcur|].
      constructor; [apply spaceless_rev, Hcur|].
      apply IH. unfold Props.spaceless. intros c Hc. discriminate.
    + apply IH. unfold Props.spaceless. intros c Hc.
      unfold Spec.has_char in Hc. simpl in Hc.
      destruct (Ascii.eqb_spec c a) as [E|_]; [rewrite E; exact Ha|].
      apply Hcur, Hc.
Qed.

Lemma token_spaceless (line : string) (i : nat) :
  Props.spaceless (Str.toLowerCase (nth i (Str.split_spaces line) EmptyString)).
Proof.
  assert (H : Props.spaceless (nth i (Str.split_spaces line) EmptyString)).
  { destruct (Nat.lt_ge_cases i (length (Str.split_spaces line))) as [L|L].
    - pose proof (split_spaces_go_spaceless EmptyString false line) as F.
      rewrite Forall_forall in F.
      apply F; [unfold Props.spaceless; intros c Hc; discriminate|].
      apply list_elem_of_In, nth_In, L.
    - rewrite nth_overflow by exact L. unfold Props.spaceless.
      intros c Hc. discriminate. }
  unfold Props.spaceless. intros c Hc. apply has_char_lower in Hc as (c0 & H0 & ->).
  rewrite lower_space. apply H, H0.
Qed.

Lemma filter_empty (f : ascii -> bool) (s : string) :
  Str.filter f s = EmptyString
  <-> forall c, Spec.has_char c s = true -> f c = false.
Proof.
  unfold Spec.has_char. induction s as [|a s IH]; simpl.
  - split; [intros _ c Hc; discriminate|reflexivity].
  - destruct (f a) eqn:Fa.
    + split; [discriminate|]. intros H.
      specialize (H a). rewrite Ascii.eqb_refl in H. simpl in H.
      specialize (H eq_refl). congruence.
    + rewrite IH. split.
      * intros H c Hc.
        destruct (Ascii.eqb_spec c a) as [E|_]; [rewrite E; exact Fa|].
        apply H, Hc.
      * intros H c Hc. apply H. rewrite Hc. apply orb_true_r.
Qed.

(** X11. Every entry the batch parser returns has a bookmaker and a
    market that are single words in lower case (no white space, unchanged
    by lower-casing), and a map number that is [null] exactly when the
    market has no digit and a number otherwise. *)
Theorem parseBatch_normalises (batchText : string) (e : value) :
  e ∈ parseBatch batchText ->
  exists bookmaker market selection odds map_number,
    e = entry (VStr bookmaker) (VStr market) (VStr selection) (VNum odds)
          map_number
    /\ Str.toLowerCase bookmaker = bookmaker
    /\ Str.toLowerCase market = market
    /\ (forall c, Spec.has_char c bookmaker = true -> Str.is_space c = false)
    /\ (forall c, Spec.has_char c market = true -> Str.is_space c = false)
    /\ (map_number = VNull
        <-> forall c, Spec.has_char c market = true -> Str.is_digit c = false)
    /\ (map_number = VNull \/ exists n, map_number = VNum n).
Proof.
  unfold parseBatch. intros He.
  apply list_elem_of_omap in He as (line & _ & Hl).
  unfold parseLine in Hl.
  destruct (_ <? 4)%nat; [discriminate|].
  destruct (negb _ || _); [discriminate|].
  injection Hl as <-.
  set (market := Str.toLowerCase (nth 1 (Str.split_spaces line) EmptyString)).
  eexists _, market, _, _, _. split; [reflexivity|].
  split; [apply toLowerCase_idem|]. split; [apply toLowerCase_idem|].
  split; [apply token_spaceless|]. split; [apply token_spaceless|].
  rewrite <- filter_empty.
  destruct (String.eqb_spec (Str.filter Str.is_digit market) EmptyString)
    as [E|E]; cbn [negb].
  - split; [tauto|by left].
  - split; [|right; eauto]. split; [discriminate|contradiction].
Qed.

Lemma parseBatch_normalises_witness :
  exists bookmaker market selection odds map_number,
    entry (VStr "betano") (VStr "map2_winner") (VStr "Team Liquid")
      (VNum (ofString "1.75")) (VNum (ofString "2"))
    = entry (VStr bookmaker) (VStr market) (VStr selection) (VNum odds)
        map_number
    /\ Str.toLowerCase bookmaker = bookmaker
    /\ Str.toLowerCase market = market
    /\ (forall c, Spec.has_char c bookmaker = true -> Str.is_space c = false)
    /\ (forall c, Spec.has_char c market = true -> Str.is_space c = false)
    /\ (map_number = VNull
        <-> forall c, Spec.has_char c market = true -> Str.is_digit c = false)
    /\ (map_number = VNull \/ exists n, map_number = VNum n).
Proof.
  apply (parseBatch_normalises "Betano  MAP2_Winner Team Liquid 1.75").
  vm_compute. apply list_elem_of_here.
Defined.

Lemma occurrences_replace (t : string) :
  Spec.occurrences ";"
    (Str.map (fun c => if Ascii.eqb c "010" then ";"%char else c) t)
  = (Spec.occurrences ";" t + Spec.occurrences "010" t)%nat.
Proof.
  induction t as [|c t IH]; [reflexivity|]. simpl.
  destruct (Ascii.eqb c "010") eqn:E1, (Ascii.eqb c ";") eqn:E2;
    simpl; rewrite ?E2, IH; try lia.
  apply Ascii.eqb_eq in E1, E2. congruence.
Qed.

Lemma omap_length {A B} (f : A -> option B) (xs : list A) :
  (length (omap f xs) <= length xs)%nat.
Proof.
  induction xs as [|x xs IH]; [reflexivity|]. csimpl.
  destruct (f x); simpl; lia.
Qed.

(** X12. The batch parser returns at most one entry per line, lines being
    separated by newlines or semicolons. *)
Theorem parseBatch_one_entry_per_line (batchText : string) :
  (length (parseBatch batchText)
   <= S (Spec.occurrences ";" batchText
         + Spec.occurrences "010" batchText))%nat.
Proof.
  unfold parseBatch. etrans; [apply omap_length|].
  unfold batch_lines. etrans; [apply List.filter_length_le|].
  rewrite length_map. unfold Str.split.
  rewrite StatsResultFacts.split_go_count, occurrences_replace.
  reflexivity.
Qed.

End BatchFacts.

(** ** components/OddsForm: the structured form *)

Module StructuredFacts.

Import Num JS Async OddsForm OddsFormFacts.

Lemma push_if_length (x : number) (e : value) :
  (length (push_if x e) <= 1)%nat.
Proof. unfold push_if. destruct (gt x (of_Z 1)); simpl; lia. Qed.

Lemma match_winner_length (values teamA teamB : value) (book : string) :
  (length (match_winner_entries values teamA teamB book) <= 2)%nat.
Proof.
  unfold match_winner_entries. rewrite !length_app.
  repeat match goal with
         | |- context [length (push_if ?x ?e)] =>
             pose proof (push_if_length x e);
             generalize dependent (length (push_if x e)); intros
         end.
  lia.
Qed.

Lemma map_entries_length (values teamA teamB n : value) (book : string) :
  (length (map_entries values teamA teamB n book) <= 6)%nat.
Proof.
  unfold map_entries. rewrite !length_app.
  repeat match goal with
         | |- context [length (push_if ?x ?e)] =>
             pose proof (push_if_length x e);
             generalize dependent (length (push_if x e)); intros
         end.
  lia.
Qed.

(** The entries of one bookmaker name that bookmaker; those for a map carry
    the map's order, the others no map. *)
Lemma match_winner_shape (values teamA teamB : value) (book : string)
  (e : value) :
  e ∈ match_winner_entries values teamA teamB book ->
  Get e "bookmaker" = VStr book /\ Get e "map_number" = VNull.
Proof.
  unfold match_winner_entries. intros He.
  repeat (apply elem_of_app in He as [He|He]);
    apply push_if_above in He as [-> _]; split; reflexivity.
Qed.

Lemma map_entries_shape (values teamA teamB n : value) (book : string)
  (e : value) :
  e ∈ map_entries values teamA teamB n book ->
  Get e "bookmaker" = VStr book /\ Get e "map_number" = n.
Proof.
  unfold map_entries. intros He.
  repeat (apply elem_of_app in He as [He|He]);
    apply push_if_above in He as [-> _]; split; reflexivity.
Qed.

Lemma mapM_Forall2 {A B} (f : A -> result B) (xs : list A) (ys : list B) :
  JS.mapM f xs = Ok ys -> Forall2 (fun x y => f x = Ok y) xs ys.
Proof.
  revert ys. induction xs as [|x xs IH]; intros ys; cbn [JS.mapM].
  - intros [= <-]. constructor.
  - destruct (f x) as [y|e] eqn:E; cbn [rbind]; [|discriminate].
    destruct (JS.mapM f xs) as [ys'|e]; cbn [rbind]; [|discriminate].
    intros [= <-]. constructor; [exact E | apply IH; reflexivity].
Qed.


Lemma in_books (f : string -> list value) (e : value) :
  e ∈ flat_map f BOOKMAKERS -> exists book, book ∈ BOOKMAKERS /\ e ∈ f book.
Proof.
  intros He. apply list_elem_of_In, in_flat_map in He as (book & Hb & He).
  apply list_elem_of_In in He, Hb. eauto.
Qed.

(** The entries collected for one map. *)
Lemma per_map_entries (values teamA teamB m : value) (ys : list value) :
  rbind (prop m "map_order")
    (fun n => Ok (flat_map (map_entries values teamA teamB n) BOOKMAKERS))
  = Ok ys ->
  is_nullish m = false
  /\ ys = flat_map (map_entries values teamA teamB (Get m "map_order"))
            BOOKMAKERS.
Proof.
  unfold prop. destruct (is_nullish m); [discriminate|]. cbn [rbind].
  intros [= <-]. auto.
Qed.

(** X13. The structured form collects at most 4 match-winner entries and
    12 entries per map.  Every entry names one of the two bookmakers, and
    carries either no map number or the order of one of the maps. *)
Theorem structured_entries_bounded (p : props) (values : value)
  (es ms : list value) :
  collectStructuredEntries p values = Ok es ->
  mapList (maps p) = VArr ms ->
  (length es <= 4 + 12 * length ms)%nat
  /\ Forall (fun e => exists book,
                 book ∈ BOOKMAKERS /\ Get e "bookmaker" = VStr book) es
  /\ Forall (fun e => Get e "map_number" = VNull
                      \/ exists m, m ∈ ms
                                   /\ Get e "map_number" = Get m "map_order")
       es.
Proof.
  unfold collectStructuredEntries. intros H Hms. rewrite Hms in H.
  destruct (JS.mapM _ ms) as [per_map|e] eqn:E; cbn [rbind] in H;
    [|discriminate].
  injection H as <-. apply mapM_Forall2 in E.
  set (teamA := team_label (teams p) "team_a" "Team A") in *.
  set (teamB := team_label (teams p) "team_b" "Team B") in *.
  assert (Hfirst : forall book e,
             e ∈ match_winner_entries values teamA teamB book ->
             book ∈ BOOKMAKERS ->
             (exists book, book ∈ BOOKMAKERS /\ Get e "bookmaker" = VStr book)
             /\ Get e "map_number" = VNull).
  { intros book e He Hb. apply match_winner_shape in He as [H1 H2]. eauto. }
  split; [|split].
  - rewrite length_app. cbn [flat_map BOOKMAKERS]. rewrite !length_app.
    pose proof (match_winner_length values teamA teamB "betano").
    pose proof (match_winner_length values teamA teamB "bet365").
    assert (length (concat per_map) <= 12 * length ms)%nat; [|simpl; lia].
    clear -E. induction E as [|m ys ms per_map Hm _ IH]; [simpl; lia|].
    apply per_map_entries in Hm as [_ ->].
    cbn [concat flat_map BOOKMAKERS length]. rewrite !length_app.
    pose proof (map_entries_length values teamA teamB (Get m "map_order")
                  "betano").
    pose proof (map_entries_length values teamA teamB (Get m "map_order")
                  "bet365").
    simpl. lia.
  - apply Forall_app. split.
    + apply Forall_forall. intros e He.
      apply (in_books (match_winner_entries values teamA teamB)) in He
        as (book & Hb & He).
      exact (proj1 (Hfirst book e He Hb)).
    + apply Forall_concat. clear -E.
      induction E as [|m ys ms per_map Hm _ IH]; constructor; [|exact IH].
      apply per_map_entries in Hm as [_ ->].
      apply Forall_forall. intros e He.
      apply in_books in He as (book & Hb & He).
      apply map_entries_shape in He as [H1 _]. eauto.
  - apply Forall_app. split.
    + apply Forall_forall. intros e He.
      apply (in_books (match_winner_entries values teamA teamB)) in He
        as (book & Hb & He).
      left. exact (proj2 (Hfirst book e He Hb)).
    + apply Forall_concat. clear -E.
      induction E as [|m ys ms per_map Hm _ IH]; constructor.
      * apply per_map_entries in Hm as [_ ->].
        apply Forall_forall. intros e He.
        apply in_books in He as (book & Hb & He).
        apply map_entries_shape in He as [_ H2]. right. exists m.
        split; [apply list_elem_of_here|exact H2].
      * eapply Forall_impl; [exact IH|]. intros ys' Hys.
        eapply Forall_impl; [exact Hys|]. intros e [He|(m' & Hm' & He)];
          [by left|]. right. exists m'.
        split; [by apply list_elem_of_further|exact He].
Qed.

Lemma structured_entries_bounded_witness :
  let p := mkProps (VNum (of_Z 7)) VNull (VArr [VObj [("map_order", VStr "2")]])
             false in
  let values := VObj [("match_winner_bet365_b", VStr "2.10");
                      ("map2_ot_betano", VStr "5")] in
  exists es,
    collectStructuredEntries p values = Ok es
    /\ (length es <= 4 + 12 * 1)%nat.
Proof.
  eexists. split; [vm_compute; reflexivity|].
  eapply (structured_entries_bounded
            (mkProps (VNum (of_Z 7)) VNull
               (VArr [VObj [("map_order", VStr "2")]]) false)
            (VObj [("match_winner_bet365_b", VStr "2.10");
                   ("map2_ot_betano", VStr "5")])
            _ [VObj [("map_order", VStr "2")]]);
    vm_compute; reflexivity.
Defined.


End StructuredFacts.

(** ** components/OddsForm: the three handlers *)

Module HandlerFacts.

Import Num JS Async Client OddsForm OddsFormFacts.

(** X15. Whenever the request of a handler settles (or none is made), the
    handler itself returns normally, with the busy flag back to false and
    the typed values untouched: no error escapes [saveStructured],
    [saveBatch] or [autoFetch]. *)
Theorem handlers_release_busy (p : props) (c : completion value) (f : form)
  (lg : list effect) :
  c <> Pending ->
  let settled (h : H unit) :=
    fst (h (f, lg)) = Returned tt
    /\ busy (fst (snd (h (f, lg)))) = false
    /\ values (fst (snd (h (f, lg)))) = values f in
  settled (saveStructured p c) /\ settled (saveBatch p c)
  /\ settled (autoFetch p c).
Proof.
  intros Hc settled. subst settled. cbn beta. split; [|split].
  - unfold saveStructured, bind, finally, try_catch, setError, setBusy,
      onSaved, api_saveOdds, modify, gets, throw, lift.
    cbn [fst snd values].
    destruct (collectStructuredEntries p (values f)) as [[|e es]|err];
      [by cbn| |by cbn].
    cbn [is_empty]. destruct c as [res|err|]; [| |congruence]; by cbn.
  - unfold saveBatch, bind, finally, try_catch, setError, setBusy,
      setBatchText, onSaved, api_saveOdds, modify, gets, throw.
    cbn [fst snd batchText].
    destruct (parseBatch (batchText f)) as [|e es]; [by cbn|].
    cbn [is_empty]. destruct c as [res|err|]; [| |congruence]; by cbn.
  - unfold autoFetch, bind, finally, try_catch, setError, setBusy,
      onSaved, api_autoOdds, modify, gets, throw.
    destruct c as [res|err|]; [| |congruence]; by cbn.
Qed.

Lemma handlers_release_busy_witness :
  let p := mkProps (VNum (of_Z 7)) VNull VUndefined true in
  let f := mkForm (VObj []) "betano map1_ot Yes 5.00" false "old error" in
  let c : completion value := Thrown (new_Error "Request failed (500)") in
  fst (saveBatch p c (f, [])) = Returned tt
  /\ busy (fst (snd (saveBatch p c (f, [])))) = false
  /\ values (fst (snd (saveBatch p c (f, [])))) = VObj [].
Proof.
  apply (handlers_release_busy
           (mkProps (VNum (of_Z 7)) VNull VUndefined true)
           (Thrown (new_Error "Request failed (500)"))
           (mkForm (VObj []) "betano map1_ot Yes 5.00" false "old error") []).
  discriminate.
Defined.

(** X16. [saveBatch] clears the pasted text only after a successful save.
    When nothing parses, no call is made and the text stays with an error
    message; when the save fails the text stays and the error shows the
    failure's message; while the save is pending the form stays busy. *)
Theorem saveBatch_clears_text_on_success_only (p : props)
  (c : completion value) (f : form) (lg : list effect) :
  let f' := fst (snd (saveBatch p c (f, lg))) in
  (parseBatch (batchText f) = [] ->
   batchText f' = batchText f
   /\ error f' = "Nenhuma odd valida no batch paste."
   /\ snd (snd (saveBatch p c (f, lg))) = lg)
  /\ (parseBatch (batchText f) <> [] ->
      (forall res, c = Returned res ->
                   batchText f' = EmptyString /\ error f' = EmptyString)
      /\ (forall err, c = Thrown err ->
                      batchText f' = batchText f /\ error f' = message err)
      /\ (c = Pending -> batchText f' = batchText f /\ busy f' = true)).
Proof.
  intros f'. subst f'.
  unfold saveBatch, bind, finally, try_catch, setError, setBusy,
    setBatchText, onSaved, api_saveOdds, modify, gets, throw.
  cbn [fst snd batchText].
  destruct (parseBatch (batchText f)) as [|e es].
  - split; [intros _; by cbn|congruence].
  - split; [discriminate|]. intros _. cbn [is_empty].
    repeat split; intros; subst c; reflexivity.
Qed.

(** X17. When the automatic fetch is answered in time by a non-ok
    response whose payload lists [fallback_steps], the form shows the
    error message of the request followed by [ | Fallback: ] and the steps
    joined by [ | ]; it is no longer busy and [onSaved] is not called. *)
Theorem autoFetch_shows_fallback_steps (p : props) (f : form) (w : world)
  (b : fetch_behaviour) (rest : list fetch_behaviour) (r : Response)
  (payload : value) (steps : list value) :
  Spec.wf_world w -> network w = b :: rest ->
  Spec.responds b r -> Spec.decoded r payload -> ok r = false ->
  GetOpt payload "fallback_steps" = VArr steps ->
  let fetched := fst (api (autoOdds (matchId p) VUndefined) w) in
  let s' := snd (autoFetch p fetched (f, [])) in
  error (fst s')
  = Spec.error_message payload (r_status r)
    +:+ " | Fallback: " +:+ Array_join " | " steps
  /\ busy (fst s') = false
  /\ snd s' = [].
Proof.
  intros Hwf Hnet (d & Hd & Hlt & Hout) Hdec Hok Hsteps fetched s'.
  assert (E : fetched = Thrown (Spec.http_error r payload)).
  { subst fetched. rewrite ClientFacts.api_of_endpoint.
    cbn [endpoint default_arg].
    rewrite ClientFacts.request_result by exact Hwf.
    unfold Spec.request_completion. rewrite Hnet. cbn [hd].
    rewrite (ClientFacts.in_time_settles b (now w) d Hd) by lia.
    rewrite Hd, Hout.
    destruct Hdec as [[Hj Hb]|[Hj ->]]; rewrite Hj.
    - rewrite Hb. unfold Spec.finish. rewrite Hok.
      rewrite ClientFacts.failure_message_text. reflexivity.
    - unfold Spec.finish. rewrite Hok.
      rewrite ClientFacts.failure_message_text. reflexivity. }
  subst s'. rewrite E.
  unfold autoFetch, bind, finally, try_catch, setError, setBusy,
    onSaved, api_autoOdds, modify, gets, throw.
  cbn [fst snd error busy]. unfold fallbackText.
  cbn [JS.payload Spec.http_error JS.message]. rewrite Hsteps. auto.
Qed.

Lemma autoFetch_shows_fallback_steps_witness :
  let payload := VObj [("detail", VStr "No odds found");
                       ("fallback_steps",
                        VArr [VStr "paste the odds"; VNull; VStr "retry"])] in
  let r := mkResponse 404 (Some "application/json") (BodyJson payload) in
  let w := mkWorld 0 [] 0 [mkBehaviour (Some 250) (Resolves r) false] [] in
  let p := mkProps (VNum (of_Z 7)) VNull VUndefined true in
  let f := mkForm (VObj []) EmptyString false EmptyString in
  let s' := snd (autoFetch p (fst (api (autoOdds (matchId p) VUndefined) w))
                   (f, [])) in
  error (fst s') = "No odds found | Fallback: paste the odds |  | retry"
  /\ busy (fst s') = false
  /\ snd s' = [].
Proof.
  apply (autoFetch_shows_fallback_steps
           (mkProps (VNum (of_Z 7)) VNull VUndefined true)
           (mkForm (VObj []) EmptyString false EmptyString)
           (mkWorld 0 [] 0
              [mkBehaviour (Some 250)
                 (Resolves
                    (mkResponse 404 (Some "application/json")
                       (BodyJson
                          (VObj [("detail", VStr "No odds found");
                                 ("fallback_steps",
                                  VArr [VStr "paste the odds"; VNull;
                                        VStr "retry"])])))) false] [])
           (mkBehaviour (Some 250)
              (Resolves
                 (mkResponse 404 (Some "application/json")
                    (BodyJson
                       (VObj [("detail", VStr "No odds found");
                              ("fallback_steps",
                               VArr [VStr "paste the odds"; VNull;
                                     VStr "retry"])])))) false)
           []
           (mkResponse 404 (Some "application/json")
              (BodyJson
                 (VObj [("detail", VStr "No odds found");
                        ("fallback_steps",
                         VArr [VStr "paste the odds"; VNull; VStr "retry"])])))
           (VObj [("detail", VStr "No odds found");
                  ("fallback_steps",
                   VArr [VStr "paste the odds"; VNull; VStr "retry"])])
           [VStr "paste the odds"; VNull; VStr "retry"]).
  - constructor.
  - reflexivity.
  - exists 250. split; [reflexivity|]. split; [lia|reflexivity].
  - left. split; reflexivity.
  - reflexivity.
  - reflexivity.
Defined.

End HandlerFacts.

(** ** components/AnalysisPanel: when the panel renders *)

Module PanelFacts.

Import Num JS JSX AnalysisPanel AnalysisPanelFacts.




(** X19. Without edges (an analysis that is missing, has no
    [single_edges], a falsy one or an empty list) the panel renders with no
    row and the notice that there are not enough odds. *)
Theorem AnalysisPanel_without_edges (analysis : value) :
  ToBoolean (GetOpt analysis "single_edges") = false
  \/ GetOpt analysis "single_edges" = VArr [] ->
  exists panel,
    AnalysisPanel analysis = Ok panel
    /\ body_rows panel = []
    /\ Props.after_rows panel = Some empty_row.
Proof.
  intros H.
  assert (E : edges_of analysis = VArr []).
  { unfold edges_of, or_else. destruct H as [-> | ->]; reflexivity. }
  unfold AnalysisPanel. rewrite E. eexists. split; [reflexivity|].
  split; reflexivity.
Qed.

Lemma AnalysisPanel_without_edges_witness :
  exists panel,
    AnalysisPanel (VObj [("series_prob", VNull)]) = Ok panel
    /\ body_rows panel = []
    /\ Props.after_rows panel = Some empty_row.
Proof.
  apply (AnalysisPanel_without_edges (VObj [("series_prob", VNull)])).
  left. reflexivity.
Defined.

End PanelFacts.

(** ** components/StatsResult: the bold parts of a bullet *)

Module MarkdownFacts.

Import Num JS JSX StatsResult StatsResultFacts.

Lemma append_assoc (a b c : string) : (a +:+ b) +:+ c = a +:+ (b +:+ c).
Proof.
  induction a as [|x a IH]; [reflexivity|].
  change (String x ((a +:+ b) +:+ c) = String x (a +:+ (b +:+ c))).
  by rewrite IH.
Qed.

Lemma append_cons (x : ascii) (a b : string) :
  String x a +:+ b = String x (a +:+ b).
Proof. reflexivity. Qed.

Lemma source_of_app (a b : list node) :
  Props.source_of (a ++ b) = Props.source_of a +:+ Props.source_of b.
Proof.
  induction a as [|x a IH]; [reflexivity|].
  cbn [app Props.source_of foldr]. fold (Props.source_of (a ++ b)).
  fold (Props.source_of a). rewrite IH. symmetry. apply append_assoc.
Qed.

Lemma startsWith_split (p s : string) :
  Str.startsWith p s = true -> s = p +:+ Str.drop (String.length p) s.
Proof.
  revert s. induction p as [|a p IH]; intros s H; [reflexivity|].
  destruct s as [|b s]; [discriminate|]. simpl in *.
  apply andb_true_iff in H as [E H]. apply Ascii.eqb_eq in E as ->.
  rewrite append_cons. f_equal. apply IH, H.
Qed.

Lemma drop_drop (n m : nat) (s : string) :
  Str.drop n (Str.drop m s) = Str.drop (m + n) s.
Proof.
  revert s. induction m as [|m IH]; intros s; [reflexivity|].
  destruct s as [|a s]; simpl; [destruct n; reflexivity|apply IH].
Qed.

Lemma take_drop (n : nat) (s : string) :
  s = Str.take n s +:+ Str.drop n s.
Proof.
  revert s. induction n as [|n IH]; intros s; [reflexivity|].
  destruct s as [|a s]; simpl; [reflexivity|].
  rewrite append_cons. f_equal. apply IH.
Qed.

(** A string with an occurrence of [sub] at offset [i] is what comes
    before, then [sub], then what comes after. *)
Lemma find_split (sub s : string) (i : nat) :
  Str.find sub s = Some i ->
  s = Str.take i s +:+ sub +:+ Str.drop (i + String.length sub) s.
Proof.
  revert i. induction s as [|b s IH]; intros i; simpl.
  - destruct (Str.startsWith sub EmptyString) eqn:E; [|discriminate].
    intros [= <-]. exact (startsWith_split _ _ E).
  - destruct (Str.startsWith sub (String b s)) eqn:E.
    + intros [= <-]. exact (startsWith_split _ _ E).
    + destruct (Str.find sub s) as [j|]; [|discriminate].
      intros [= <-]. simpl. rewrite append_cons. f_equal. apply IH.
      reflexivity.
Qed.

Lemma indexOf_find (s sub : string) (from i : Z) :
  Str.indexOf s sub from = i -> i <> -1 -> 0 <= from <= Str.len s ->
  exists j, Str.find sub (Str.drop (Z.to_nat from) s) = Some j
            /\ i = from + Z.of_nat j.
Proof.
  unfold Str.indexOf, Str.len. intros H Hi Hf.
  rewrite (Z.max_l from 0), (Z.min_l from) in H by lia.
  destruct (Str.find sub _) as [j|]; [|congruence].
  exists j. split; [reflexivity|]. lia.
Qed.

Lemma clamp_in (l i : Z) : 0 <= i <= l -> Str.clamp l i = i.
Proof.
  intros H. unfold Str.clamp. destruct (Z.ltb_spec i 0); lia.
Qed.

Lemma slice_mid (s : string) (a b : Z) :
  0 <= a <= b -> b <= Str.len s ->
  Str.slice s a (Some b)
  = Str.take (Z.to_nat (b - a)) (Str.drop (Z.to_nat a) s).
Proof.
  intros H Hb. unfold Str.slice. rewrite !clamp_in by lia.
  destruct (Z.leb_spec b a); [|reflexivity].
  assert (a = b) as -> by lia. rewrite Z.sub_diag. reflexivity.
Qed.

Lemma take_all (n : nat) (t : string) :
  (String.length t <= n)%nat -> Str.take n t = t.
Proof.
  revert t. induction n as [|n IH]; intros [|a t] Hn; simpl in *;
    try reflexivity; try lia.
  f_equal. apply IH. lia.
Qed.

Lemma drop_all (s : string) : Str.drop (String.length s) s = EmptyString.
Proof. induction s as [|a s IH]; [reflexivity|exact IH]. Qed.

Lemma slice_tail (s : string) (k : Z) :
  0 <= k <= Str.len s -> Str.slice s k None = Str.drop (Z.to_nat k) s.
Proof.
  intros H. unfold Str.slice. rewrite clamp_in by lia. unfold Str.len in *.
  destruct (Z.leb_spec (Z.of_nat (String.length s)) k).
  - assert (E : Z.to_nat k = String.length s) by lia. rewrite E.
    symmetry. apply drop_all.
  - apply take_all. rewrite drop_length. lia.
Qed.

(** One run of the loop body keeps the text: what the parts stand for,
    followed by what remains, is the same before and after. *)
Lemma loop_body_keeps_text (s : loop_state) :
  match loop_body s with
  | Continue s' | Exit s' =>
      Props.source_of (parts s') +:+ remaining s'
      = Props.source_of (parts s) +:+ remaining s
  end.
Proof.
  unfold loop_body.
  destruct (Str.includes (remaining s) "**") eqn:Hinc; [|reflexivity].
  cbn [negb].
  set (r := remaining s) in *.
  set (i1 := Str.indexOf r "**" 0).
  set (i2 := Str.indexOf r "**" (i1 + 2)).
  destruct (Z.eqb_spec i2 (-1)) as [E|E]; [reflexivity|].
  cbn [remaining parts].
  assert (N1 : i1 <> -1).
  { unfold Str.includes in Hinc. fold i1 in Hinc.
    destruct (Z.eqb_spec i1 (-1)); [discriminate | assumption]. }
  assert (H1 : 0 <= i1 /\ i1 + 2 <= Str.len r).
  { apply (indexOf_bound r "**" 0 i1); [reflexivity | exact N1]. }
  assert (H2 : 0 <= i2 /\ i2 + 2 <= Str.len r).
  { apply (indexOf_bound r "**" (i1 + 2) i2); [reflexivity | exact E]. }
  assert (H3 : i1 + 2 <= i2).
  { apply (indexOf_from r "**" (i1 + 2) i2); [reflexivity | exact E | lia]. }
  destruct (indexOf_find r "**" 0 i1 eq_refl N1 ltac:(unfold Str.len in *; lia))
    as (j1 & F1 & J1).
  destruct (indexOf_find r "**" (i1 + 2) i2 eq_refl E ltac:(lia))
    as (j2 & F2 & J2).
  change (Str.drop (Z.to_nat 0) r) with r in F1.
  apply find_split in F1. apply find_split in F2.
  rewrite drop_drop in F2. cbn [String.length] in F1, F2.
  rewrite !slice_mid, slice_tail by lia.
  rewrite Z.sub_0_r. change (Str.drop (Z.to_nat 0) r) with r.
  rewrite <- app_assoc, source_of_app.
  cbn [Props.source_of foldr Props.part_source app].
  rewrite !append_assoc. f_equal.
  replace (Z.to_nat i1) with j1 by lia.
  replace (Z.to_nat (i2 - (i1 + 2))) with j2 by lia.
  replace (Z.to_nat (i2 + 2)) with (Z.to_nat (i1 + 2) + (j2 + 2))%nat by lia.
  replace (Z.to_nat (i1 + 2)) with (j1 + 2)%nat in * by lia.
  symmetry. etrans; [exact F1|]. do 2 f_equal.
  etrans; [exact F2|]. reflexivity.
Qed.


Lemma append_empty (s : string) : s +:+ EmptyString = s.
Proof.
  induction s as [|a s IH]; [reflexivity|]. rewrite append_cons, IH.
  reflexivity.
Qed.

Lemma run_loop_keeps_text (fuel : nat) (s s' : loop_state) :
  run_loop fuel s = Some s' ->
  Props.source_of (parts s') +:+ remaining s'
  = Props.source_of (parts s) +:+ remaining s.
Proof.
  revert s. induction fuel as [|fuel IH]; intros s; [discriminate|].
  cbn [run_loop]. pose proof (loop_body_keeps_text s) as K.
  destruct (loop_body s) as [s1|s1].
  - intros H. rewrite (IH _ H). exact K.
  - intros [= <-]. exact K.
Qed.

(** X20. Rendering a bullet loses no text: the line is [- ] followed by
    the text of the rendered parts, each [strong] part between two pairs
    of asterisks. *)
Theorem bullet_keeps_its_text (fuel : nat) (line : string) (i : nat)
  (n : node) :
  Str.startsWith "- " line = true ->
  renderLine fuel line i = Some n ->
  exists parts,
    n = Elem "p" [key (num_of_nat i); className "ml-2 text-sm text-slate-700"]
          [Many parts]
    /\ "- " +:+ Props.source_of parts = line.
Proof.
  intros Hb. pose proof (startsWith_split "- " line Hb) as L.
  destruct line as [|a [|b l]]; try discriminate.
  change (String a (String b l) = String "-" (String " " l)) in L.
  injection L as -> ->. unfold renderLine.
  change (Str.startsWith "### " (String "-" (String " " l))) with false.
  change (Str.startsWith "## " (String "-" (String " " l))) with false.
  change (Str.startsWith "- " (String "-" (String " " l))) with true.
  cbn iota.
  destruct (run_loop fuel _) as [s|] eqn:R; [|discriminate].
  intros [= <-]. eexists. split; [reflexivity|].
  apply run_loop_keeps_text in R.
  cbn [parts remaining Props.source_of foldr] in R.
  rewrite source_of_app. cbn [Props.source_of foldr Props.part_source].
  rewrite append_empty. fold (Props.source_of (parts s)) in R. rewrite R.
  rewrite slice_tail; [reflexivity|].
  unfold Str.len. cbn [String.length]. lia.
Qed.

Lemma bullet_keeps_its_text_witness :
  exists parts,
    Elem "p" [key (num_of_nat 0); className "ml-2 text-sm text-slate-700"]
      [Many [Expr (VStr EmptyString);
             Elem "strong" [key (num_of_nat 1)] [Expr (VStr "Mapa:")];
             Expr (VStr " Ascent **x")]]
    = Elem "p" [key (num_of_nat 0); className "ml-2 text-sm text-slate-700"]
        [Many parts]
    /\ "- " +:+ Props.source_of parts = "- **Mapa:** Ascent **x".
Proof.
  apply (bullet_keeps_its_text 30 "- **Mapa:** Ascent **x" 0).
  - reflexivity.
  - vm_compute. reflexivity.
Defined.

End MarkdownFacts.

(** ** components/VetoInput and components/LivePanel *)

Module VetoFacts.

Import JS Async VetoInput.

Lemma trimStart_spaces (s : string) :
  (forall c, Spec.has_char c s = true -> Str.is_space c = true) ->
  Str.trimStart s = EmptyString.
Proof.
  induction s as [|a s IH]; intros H; [reflexivity|]. simpl.
  rewrite (H a) by (unfold Spec.has_char; simpl; by rewrite Ascii.eqb_refl).
  apply IH. intros c Hc. apply H. unfold Spec.has_char in *. simpl.
  rewrite Hc. apply orb_true_r.
Qed.

Lemma trim_spaces (s : string) :
  (forall c, Spec.has_char c s = true -> Str.is_space c = true) ->
  Str.trim s = EmptyString.
Proof.
  intros H. unfold Str.trim. rewrite (trimStart_spaces s H). reflexivity.
Qed.

(** X21. A veto of white space only is blank, and a blank veto is not
    sent: the handler returns with its message and nothing else changes.
    Any other text is sent as typed, once; the text is cleared only when
    the save succeeds, and once the save has settled the handler returns
    normally with the loading flag back to false. *)
Theorem blank_veto_is_not_sent (matchId : value) (has_onSaved : bool)
  (saved : completion value) (f : form) (lg : list effect) :
  let r := handleSave matchId has_onSaved saved (f, lg) in
  ((forall c, Spec.has_char c (vetoText f) = true -> Str.is_space c = true) ->
   Str.trim (vetoText f) = EmptyString)
  /\ (Str.trim (vetoText f) = EmptyString ->
      r = (Returned tt,
           (mkForm (vetoText f) (loading f) "Cole o veto antes de salvar.",
            lg)))
  /\ (Str.trim (vetoText f) <> EmptyString ->
      snd (snd r)
      = lg ++ CallSaveVeto matchId (VObj [("veto_text", VStr (vetoText f))])
           :: match saved with
              | Returned res => if has_onSaved then [CallOnSaved res] else []
              | _ => []
              end
      /\ vetoText (fst (snd r))
         = match saved with
           | Returned _ => EmptyString
           | _ => vetoText f
           end
      /\ (saved <> Pending ->
          fst r = Returned tt /\ loading (fst (snd r)) = false)).
Proof.
  intros r. subst r. split; [apply trim_spaces|].
  unfold handleSave, bind, finally, try_catch, setError, setLoading,
    setVetoText, onSaved, api_saveVeto, modify, gets, throw.
  cbn [fst snd vetoText].
  destruct (String.eqb_spec (Str.trim (vetoText f)) EmptyString) as [E|E].
  - split; [reflexivity|congruence].
  - split; [congruence|]. intros _.
    destruct saved as [res|err|]; cbn.
    + destruct has_onSaved; rewrite <- ?app_assoc; repeat split; reflexivity.
    + repeat split; reflexivity.
    + split; [reflexivity|]. split; [reflexivity|congruence].
Qed.

End VetoFacts.

Module LivePanelFacts.

Import Num JS Async Client Page LivePanel.

(** X22. Registering a map result posts the result and asks for the
    series probability only after that request succeeded: the fetch calls
    are the POST to [live/map-result] followed, exactly when it returned,
    by the GET of [live/series-prob].  No error escapes the handler; when
    saving fails the error shows the failure's message and [onUpdated] is
    not called. *)
Theorem series_prob_follows_saved_result (matchId : value)
  (has_onUpdated : bool) (w : world) (p : panel) :
  let saved := fst (api (saveLiveMapResult matchId (map_result p)) w) in
  let r := submitResult matchId has_onUpdated (w, p) in
  exists init1 init2,
    f_method init1 = Some "POST"
    /\ f_body init1 = stringify (map_result p)
    /\ f_method init2 = None
    /\ Props.fetch_calls (log (fst (snd r)))
       = Props.fetch_calls (log w)
         ++ EFetch ("/api/matches/" +:+ ToString matchId +:+ "/live/map-result")
              init1
         :: match saved with
            | Returned _ =>
                [EFetch ("/api/matches/" +:+ ToString matchId
                         +:+ "/live/series-prob") init2]
            | _ => []
            end
    /\ (forall e, fst r <> Thrown e)
    /\ (forall e, saved = Thrown e ->
                  error (snd (snd r)) = message e
                  /\ updates (snd (snd r)) = updates p).
Proof.
  intros saved r. subst saved r.
  unfold submitResult, api_call, api, bind, try_catch, update, read, lift,
    modify, gets.
  cbn [fst snd endpoint ret].
  change (map_result (setError EmptyString p)) with (map_result p).
  set (path1 := "/api/matches/" +:+ ToString matchId +:+ "/live/map-result").
  set (path2 := "/api/matches/" +:+ ToString matchId +:+ "/live/series-prob").
  pose proof (RequestFacts.request_fetch path1 (post "POST" (map_result p)) w)
    as F1.
  destruct (request path1 (post "POST" (map_result p)) w) as [[v|e|] w1]
    eqn:R1; cbn [fst snd] in *.
  - pose proof (RequestFacts.request_fetch path2 no_options w1) as F2.
    exists (mkFetchInit (Some "POST") (stringify (map_result p)) (fresh_id w)
              DEFAULT_HEADERS),
           (mkFetchInit None None (fresh_id w1) DEFAULT_HEADERS).
    destruct (request path2 no_options w1) as [[v2|e2|] w2] eqn:R2;
      cbn [fst snd] in *;
      (split; [reflexivity|]; split; [reflexivity|];
       split; [reflexivity|]; split;
       [rewrite F2, F1, <- app_assoc; reflexivity|];
       split; [discriminate|discriminate]).
  - exists (mkFetchInit (Some "POST") (stringify (map_result p)) (fresh_id w)
              DEFAULT_HEADERS),
           (mkFetchInit None None 0 []).
    split; [reflexivity|]. split; [reflexivity|]. split; [reflexivity|].
    split; [exact F1|]. split; [discriminate|].
    intros e' [= <-]. split; reflexivity.
  - exists (mkFetchInit (Some "POST") (stringify (map_result p)) (fresh_id w)
              DEFAULT_HEADERS),
           (mkFetchInit None None 0 []).
    split; [reflexivity|]. split; [reflexivity|]. split; [reflexivity|].
    split; [exact F1|]. split; discriminate.
Qed.

End LivePanelFacts.

(** ** pages/Stats and pages/MatchAnalysis *)

Module StatsPageFacts.

Import Num JS Async Client Page StatsPage.

(** What [show] leaves of a request: its fetch call, and never an error of
    its own. *)
Lemma show_requested (path : string) (options : RequestInit)
  (w : world) (p : page) :
  Props.fetch_calls (log (fst (snd (show (requested path options) (w, p)))))
  = Props.fetch_calls (log w)
    ++ [EFetch path
          (mkFetchInit (method options) (body_text options) (fresh_id w)
             (spread DEFAULT_HEADERS (default [] (headers options))))]
  /\ forall e, fst (show (requested path options) (w, p)) <> Thrown e.
Proof.
  unfold show, bind, try_catch, update, requested, modify.
  cbn [fst snd].
  pose proof (RequestFacts.request_fetch path options w) as F.
  destruct (request path options w) as [[v|e|] w1]; cbn [fst snd] in *;
    (split; [exact F|discriminate]).
Qed.

(** A handler that starts a request and shows its result: what the
    endpoint function throws leaves the handler; otherwise the promise is
    shown. *)
Lemma start_show (c : call) (w : world) (p : page) :
  (let* promise := start c in show promise) (w, p)
  = match endpoint c with
    | Ok (path, options) => show (requested path options) (w, p)
    | Throw e => (Thrown e, (w, p))
    end.
Proof.
  unfold bind, start. destruct (endpoint c) as [[path options]|e];
    reflexivity.
Qed.


Lemma loadH2h_run (w : world) (p : page) :
  let a := ofString (h2hA p) in
  let b := ofString (h2hB p) in
  loadH2h (w, p)
  = if negb (ToBoolean (VNum a)) || negb (ToBoolean (VNum b))
    then (Returned tt, (w, setError "Selecione os dois times." p))
    else if same_number a b
    then (Returned tt, (w, setError "Escolha times diferentes." p))
    else (let* promise := start (statsH2h (VNum a) (VNum b)
                                   (or_else (VStr (h2hMap p)) VUndefined)) in
          show promise)
           (w, setResult VNull (setError EmptyString p)).
Proof.
  intros a b. unfold loadH2h. unfold bind at 1 2.
  unfold update, read, modify, gets.
  cbn [fst snd].
  change (h2hA (setError EmptyString p)) with (h2hA p).
  change (h2hB (setError EmptyString p)) with (h2hB p).
  change (h2hMap (setError EmptyString p)) with (h2hMap p).
  fold a b.
  destruct (negb (ToBoolean (VNum a)) || negb (ToBoolean (VNum b)));
    [reflexivity|].
  destruct (same_number a b); [reflexivity|].
  unfold bind at 1. reflexivity.
Qed.


Lemma form_encode_a : form_encode "a" = "a" /\ form_encode "b" = "b"
                      /\ form_encode "map_name" = "map_name".
Proof. repeat split; vm_compute; reflexivity. Qed.

(** X24. A head-to-head is requested only for two different teams: when
    a team id does not convert to a number other than 0 and NaN, or both
    convert to the same number, nothing is fetched, the result stays and a
    message is shown.  Otherwise one request is made, with the two numbers
    as [a] and [b] and the map, when one is chosen, as [map_name]. *)
Theorem h2h_needs_two_different_teams (w : world) (p : page) :
  let a := ofString (h2hA p) in
  let b := ofString (h2hB p) in
  let valid :=
    ToBoolean (VNum a) && ToBoolean (VNum b) && negb (same_number a b) in
  let r := loadH2h (w, p) in
  (valid = false ->
   fst (snd r) = w /\ result (snd (snd r)) = result p
   /\ (error (snd (snd r)) = "Selecione os dois times."
       \/ error (snd (snd r)) = "Escolha times diferentes."))
  /\ (valid = true ->
      exists init,
        Props.fetch_calls (log (fst (snd r)))
        = Props.fetch_calls (log w)
          ++ [EFetch ("/api/stats/h2h?a=" +:+ form_encode (toString a)
                      +:+ "&b=" +:+ form_encode (toString b)
                      +:+ (if String.eqb (h2hMap p) EmptyString
                           then EmptyString
                           else "&map_name=" +:+ form_encode (h2hMap p)))
                init])
  /\ (forall e, fst r <> Thrown e).
Proof.
  intros a b valid r. subst r valid. rewrite loadH2h_run. fold a b.
  destruct (ToBoolean (VNum a)); cbn [negb orb andb];
    [|split; [intros _; repeat split; by left|];
      split; [discriminate|discriminate]].
  destruct (ToBoolean (VNum b)); cbn [negb orb andb];
    [|split; [intros _; repeat split; by left|];
      split; [discriminate|discriminate]].
  destruct (same_number a b); cbn [negb];
    [split; [intros _; repeat split; by right|];
     split; [discriminate|discriminate]|].
  destruct form_encode_a as (Ea & Eb & Em).
  split; [discriminate|]. rewrite start_show.
  destruct (String.eqb_spec (h2hMap p) EmptyString) as [->|Hm].
  - assert (Hc : endpoint (statsH2h (VNum a) (VNum b)
                             (or_else (VStr EmptyString) VUndefined))
                 = Ok ("/api/stats/h2h?a=" +:+ form_encode (toString a)
                       +:+ "&b=" +:+ form_encode (toString b), no_options)).
    { cbn [endpoint]. unfold when, usp_toString.
      cbn [or_else ToBoolean String.eqb negb List.map fst snd Str.join
           ToString].
      rewrite Ea, Eb. reflexivity. }
    rewrite Hc.
    destruct (show_requested
                ("/api/stats/h2h?a=" +:+ form_encode (toString a)
                 +:+ "&b=" +:+ form_encode (toString b))
                no_options w
                (setResult VNull (setError EmptyString p))) as [F N].
    split; [|exact N]. intros _. eexists. rewrite F.
    rewrite MarkdownFacts.append_empty. reflexivity.
  - assert (Hc : endpoint (statsH2h (VNum a) (VNum b)
                             (or_else (VStr (h2hMap p)) VUndefined))
                 = Ok ("/api/stats/h2h?a=" +:+ form_encode (toString a)
                       +:+ "&b=" +:+ form_encode (toString b)
                       +:+ "&map_name=" +:+ form_encode (h2hMap p),
                       no_options)).
    { assert (T : ToBoolean (VStr (h2hMap p)) = true).
      { apply String.eqb_neq in Hm. simpl. rewrite Hm. reflexivity. }
      cbn [endpoint]. unfold when, usp_toString, or_else. rewrite !T.
      cbn [usp_set existsb fst snd String.eqb Ascii.eqb Bool.eqb orb
           app List.map Str.join ToString].
      rewrite Ea, Eb, Em. reflexivity. }
    rewrite Hc.
    destruct (show_requested
                ("/api/stats/h2h?a=" +:+ form_encode (toString a)
                 +:+ "&b=" +:+ form_encode (toString b)
                 +:+ "&map_name=" +:+ form_encode (h2hMap p))
                no_options w
                (setResult VNull (setError EmptyString p))) as [F N].
    split; [|exact N]. intros _. eexists. exact F.
Qed.

End StatsPageFacts.

Module MatchAnalysisFacts.

Import JS Async Client Dashboard MatchAnalysisPage.

(** X25. The match and its analysis are loaded together or not at all.
    When [loadAll] finishes, the loading flag is false, and either both
    requests succeeded and the page holds both responses with no error,
    or one failed, the page keeps the match and the analysis it had and
    shows the message of a failed request.  It finishes when the body of
    each of the two responses arrives; it does not (and the page keeps
    loading) exactly when no request fails and one never settles. *)
Theorem match_and_analysis_load_together (matchId : value)
  (w1 w2 : world) (p : page) :
  let ps := [promise_of (getMatch matchId) w1;
             promise_of (getMatchAnalysis matchId) w2] in
  let run := loadAll matchId (w1, w2) p in
  (forall p' : page,
      run = Some p' ->
      loading p' = false
      /\ ((exists t1 m t2 a,
             ps = [Fulfils t1 m; Fulfils t2 a]
             /\ match_ p' = m /\ analysis p' = a /\ error p' = EmptyString)
          \/ (exists t e,
                Fails t e ∈ ps
                /\ match_ p' = match_ p /\ analysis p' = analysis p
                /\ error p' = message e)))
  /\ (~ Spec.body_never_arrives w1 -> ~ Spec.body_never_arrives w2 ->
      exists p' : page, run = Some p')
  /\ (run = None <-> NeverSettles ∈ ps /\ forall t e, Fails t e ∉ ps).
Proof.
  intros ps run.
  assert (N : run = None <-> NeverSettles ∈ ps /\ forall t e, Fails t e ∉ ps).
  { rewrite <- DashboardFacts.Promise_all_never. subst run.
    unfold loadAll, requests. cbn [fst snd]. fold ps.
    destruct (Promise_all ps); split; discriminate || reflexivity. }
  split; [|split; [|exact N]].
  - subst run ps. unfold loadAll, requests. cbn [fst snd].
    destruct (promise_of (getMatch matchId) w1) as [t1 m|t1 e1|];
      destruct (promise_of (getMatchAnalysis matchId) w2) as [t2 a|t2 e2|];
      unfold Promise_all; cbn [first_failure all_fulfilled];
      repeat (match goal with
              | |- context [if ?c then _ else _] => destruct c
              end);
      intros p' E; try discriminate E; injection E as <-;
      (split; [reflexivity|]).
    1: { left. exists t1, m, t2, a. repeat split; reflexivity. }
    all: right;
      first [ exists t1, e1; split; [|repeat split; reflexivity];
              repeat (first [apply list_elem_of_here
                            | apply list_elem_of_further])
            | exists t2, e2; split; [|repeat split; reflexivity];
              repeat (first [apply list_elem_of_here
                            | apply list_elem_of_further]) ].
  - intros S1 S2. destruct run as [p'|] eqn:E; [eauto|].
    exfalso. destruct N as [[Hin _] _]; [reflexivity|].
    subst ps.
    apply elem_of_cons in Hin as [Hin|Hin];
      [symmetry in Hin;
       exact (S1 (DashboardFacts.promise_of_pending _ _ Hin))|].
    apply elem_of_cons in Hin as [Hin|Hin];
      [symmetry in Hin;
       exact (S2 (DashboardFacts.promise_of_pending _ _ Hin))|].
    by apply elem_of_nil in Hin.
Qed.

End MatchAnalysisFacts.

(** ** Worked examples *)

Module Examples.

Import Num JS Async JSX.

Import Spec.

Example formatBoType_examples :
  List.map FormatBo.formatBoType
    [VStr "Bo5"; VStr "bo3"; VStr "BO1"; VNull; VStr EmptyString; num "3";
     num "5"; VStr "best of five"]
  = ["Bo5"; "Bo3"; "Bo?"; "Bo?"; "Bo?"; "Bo3"; "Bo5"; "Bo?"].
Proof. vm_compute. reflexivity. Qed.

Example resolveBoType_examples :
  FormatBo.resolveBoType VNull (num "2") (num "1") = "Bo3"
  /\ FormatBo.resolveBoType VNull (num "3") (num "2") = "Bo5"
  /\ FormatBo.resolveBoType VNull VNull VNull = "Bo3"
  /\ FormatBo.resolveBoType VNull VUndefined (num "1") = "Bo?"
  /\ FormatBo.resolveBoType (VStr "bo3") (num "3") (num "2") = "Bo3".
Proof. repeat split; vm_compute; reflexivity. Qed.

Example seriesChartData_example :
  FormatBo.seriesChartData
    (VObj [("2-1", num "0.3"); ("x", VNull); ("2-0", VNull);
           ("0-2", num "0.12345"); ("3-0", num "0.1")])
    (VStr "Bo3")
  = VArr [VObj [("score", VStr "2-1"); ("probability", num "30")];
          VObj [("score", VStr "0-2"); ("probability", num "12.35")];
          VObj [("score", VStr "3-0"); ("probability", num "10")];
          VObj [("score", VStr "x"); ("probability", num "0")]].
Proof. vm_compute. reflexivity. Qed.

Example toFixed_examples :
  toFixed (ofString "1.005") 2 = "1.00"
  /\ toFixed (ofString "0.25") 1 = "0.3"
  /\ toFixed (ofString "-0.001") 2 = "-0.00"
  /\ toFixed (ofString "1e21") 2 = "1e+21"
  /\ toFixed NaN 1 = "NaN"
  /\ toString (mul (ofString "0.57") (of_Z 100)) = "56.99999999999999".
Proof. repeat split; vm_compute; reflexivity. Qed.

Example pct_examples :
  List.map AnalysisPanel.pct [num "0.5397"; num "-0.0345"; VNull; VUndefined;
                              VStr "0.1"; num "1"]
  = ["54.0%"; "-3.5%"; "0.0%"; "0.0%"; "10.0%"; "100.0%"].
Proof. vm_compute. reflexivity. Qed.

(** The placeholder of the batch field, and lines that are dropped. *)
Example parseBatch_example :
  OddsForm.parseBatch
    "betano map1_winner MIBR 1.75; bet365 map1_ot Yes 5.00; a b 2.0; a b c 1; a b c x"
  = [OddsForm.entry (VStr "betano") (VStr "map1_winner") (VStr "MIBR")
       (num "1.75") (num "1");
     OddsForm.entry (VStr "bet365") (VStr "map1_ot") (VStr "Yes")
       (num "5") (num "1")].
Proof. vm_compute. reflexivity. Qed.

(** A line with an unmatched marker: the loop stops at it. *)
Example renderMarkdownLines_example :
  StatsResult.renderMarkdownLines 20 "- a **b** c **d"
  = Some [Elem "p" [key (num "0"); className "ml-2 text-sm text-slate-700"]
            [Many [Expr (VStr "a ");
                   Elem "strong" [key (num "1")] [Expr (VStr "b")];
                   Expr (VStr " c **d")]]].
Proof. vm_compute. reflexivity. Qed.

Example request_times_out :
  fst (Client.request "/api/maps" Client.no_options
         (Client.mkWorld 0 [] 0 [] []))
  = Thrown (new_Error Client.timeout_message).
Proof. vm_compute. reflexivity. Qed.

Example getMatches_path :
  List.filter Spec.is_fetch
    (Client.log
       (snd (Client.api
               (Client.getMatches
                  (VObj [("eventIds", VArr [num "12"]);
                         ("status", VStr "ongoing");
                         ("fromYear", num "2026"); ("limit", num "80")]))
               (Client.mkWorld 0 [] 0 [] []))))
  = [Client.EFetch
       "/api/matches?event_id=12&status=ongoing&from_year=2026&limit=80"
       (Client.mkFetchInit None None 0
          [("Content-Type", "application/json")])].
Proof. vm_compute. reflexivity. Qed.

End Examples.

(** ** Worked examples: the pages and handlers *)

Module PageExamples.

Import Spec Num JS Async.

Example overview_example :
  Dashboard.overview
    (VArr [VObj [("status", VStr "ongoing")];
           VObj [("status", VStr "completed")];
           VObj [("status", VStr "canceled")]; VObj [];
           VObj [("status", VStr "upcoming")];
           VObj [("status", VStr "completed")]])
  = Ok (Dashboard.mkCounters 1 1 2)
  /\ Dashboard.overview (VArr [VNull])
     = Throw (TypeError "Cannot read properties of null").
Proof. split; vm_compute; reflexivity. Qed.

Example caption_examples :
  SeriesProbs.formatLabel (VObj [("3-1", num "0.4")]) VNull = "Bo5"
  /\ SeriesProbs.formatLabel (VObj [("3-1", num "0.4")]) (VStr "bo1") = "Bo3"
  /\ SeriesProbs.formatLabel (VObj [("2-1", num "0.4")]) (VStr "Bo5") = "Bo5".
Proof. repeat split; vm_compute; reflexivity. Qed.

Example dashboard_query_example :
  List.filter Spec.is_fetch
    (Client.log
       (snd (Client.api
               (Client.getMatches
                  (Dashboard.params
                     (Dashboard.mkFilters "12" EmptyString "2026-01-05"
                        EmptyString (num "2026"))))
               (Client.mkWorld 0 [] 0 [] []))))
  = [Client.EFetch
       "/api/matches?event_id=12&date_from=2026-01-05&from_year=2026&limit=80"
       (Client.mkFetchInit None None 0
          [("Content-Type", "application/json")])].
Proof. vm_compute. reflexivity. Qed.

Example statsQuery_example :
  Client.encodeURIComponent (VStr "pistol rate & OT?")
  = Ok "pistol%20rate%20%26%20OT%3F"
  /\ Client.encodeURIComponent (VStr (String "233" "cole"))
     = Ok "%C3%A9cole"
  /\ Client.Encode Client.uri_unreserved [104; 8212; 55357; 56832]%N
     = Ok "h%E2%80%94%F0%9F%98%80"
  /\ Client.Encode Client.uri_unreserved [104; 55357]%N
     = Throw Client.URIError
  /\ Client.Encode Client.uri_unreserved [56832; 104]%N
     = Throw Client.URIError.
Proof. repeat split; vm_compute; reflexivity. Qed.

Example stalled_body_example :
  let r := Client.mkResponse 200 (Some "application/json")
             Client.BodyStalls in
  let w := Client.mkWorld 0 [] 0
             [Client.mkBehaviour (Some 40) (Client.Resolves r) false] [] in
  fst (Client.request "/api/config" Client.no_options w) = Pending
  /\ Client.armed (snd (Client.request "/api/config" Client.no_options w))
     = []
  /\ Dashboard.loadData
       (Dashboard.mkFilters EmptyString EmptyString EmptyString EmptyString
          (num "2026"))
       (Client.mkWorld 0 [] 0 [] [], w, Client.mkWorld 0 [] 0 [] [])
       Dashboard.initial
     = Some (Dashboard.mkState (VArr []) (VArr []) VNull false
               Client.timeout_message)
  /\ MatchAnalysisPage.loadAll (num "7") (w, w) MatchAnalysisPage.initial
     = None.
Proof. repeat split; vm_compute; reflexivity. Qed.

Example handleSave_examples :
  VetoInput.handleSave (num "7") false (Returned VNull)
    (VetoInput.mkForm "   " false EmptyString, [])
  = (Returned tt,
     (VetoInput.mkForm "   " false "Cole o veto antes de salvar.", []))
  /\ VetoInput.handleSave (num "7") false (Returned VNull)
       (VetoInput.mkForm " A ban Pearl " false EmptyString, [])
     = (Returned tt,
        (VetoInput.mkForm EmptyString false EmptyString,
         [VetoInput.CallSaveVeto (num "7")
            (VObj [("veto_text", VStr " A ban Pearl ")])])).
Proof. split; vm_compute; reflexivity. Qed.

Example loadH2h_examples :
  let w := Client.mkWorld 0 [] 0 [] [] in
  let page a b := StatsPage.mkPage EmptyString a b EmptyString VNull
                    EmptyString in
  StatsPage.error (snd (snd (StatsPage.loadH2h (w, page "3" "3.0"))))
  = "Escolha times diferentes."
  /\ StatsPage.error (snd (snd (StatsPage.loadH2h (w, page "3" EmptyString))))
     = "Selecione os dois times."
  /\ List.filter Spec.is_fetch
       (Client.log (fst (snd (StatsPage.loadH2h (w, page "3" "12")))))
     = [Client.EFetch "/api/stats/h2h?a=3&b=12"
          (Client.mkFetchInit None None 0
             [("Content-Type", "application/json")])].
Proof. repeat split; vm_compute; reflexivity. Qed.

Example submitResult_example :
  let saved := Client.mkResponse 200 (Some "application/json")
                 (Client.BodyJson (VObj [("ok", VBool true)])) in
  let prob := Client.mkResponse 200 (Some "application/json")
                (Client.BodyJson (VObj [("p_a_series", num "0.61")])) in
  let w := Client.mkWorld 0 [] 0
             [Client.mkBehaviour (Some 80) (Client.Resolves saved) false;
              Client.mkBehaviour (Some 90) (Client.Resolves prob) false] [] in
  let p := LivePanel.mkPanel "2" "a" "13" "x" EmptyString [] in
  let r := LivePanel.submitResult (num "7") true (w, p) in
  LivePanel.updates (snd (snd r)) = [VObj [("p_a_series", num "0.61")]]
  /\ List.map (fun e => match e with
                        | Client.EFetch path init => (path, Client.f_body init)
                        | _ => (EmptyString, None)
                        end)
       (List.filter Spec.is_fetch (Client.log (fst (snd r))))
     = [("/api/matches/7/live/map-result",
         Some ("{" +:+ JS.quote "map_number" +:+ ":2,"
               +:+ JS.quote "winner_side" +:+ ":" +:+ JS.quote "a" +:+ ","
               +:+ JS.quote "score_a" +:+ ":13,"
               +:+ JS.quote "score_b" +:+ ":null}"));
        ("/api/matches/7/live/series-prob", None)].
Proof. split; vm_compute; reflexivity. Qed.

End PageExamples.
